(** * XMR statistics engine (js/xmr-math.ts): model and verification

    The engine computes the limits of an Individuals / Moving-Range chart and
    flags the points that break one of three detection rules.  The colours
    that the chart (js/xmr-chart.ts) gives to the points are modelled with
    it.

    The engine is modelled twice, function by function from the same
    source, with two readings of a JavaScript [number].
    - In the first part of the file a number is an exact rational ([Q]) and
      the arithmetic is exact.  The detection rules only compare numbers;
      what is proved on this engine is about the order of the rows, the
      store, the statuses and the comparisons with the limits that the
      result carries, and about the relation between two runs.
    - In the module [Binary64] a number is an IEEE 754 double, with [NaN],
      the two infinities and the two zeros, and every operation rounds as
      the hardware does.  The limits, the movement values, the rounding, the
      cleaning of the rows and the bounds of the charts depend on this
      arithmetic and are verified on this engine.

    Modelling choices.
    - The objects of the caller are cells of a heap, and an array is a list of
      references into it, so that the in-place writes to [status] and the
      aliasing between the caller's array and the result are visible.
    - The 32-bit integer of the bitwise operators is a [Z] with the wrap-around
      of [ToInt32] written out.
    - At run time a row may lack [x] or [value]; both fields are options.
      Where a number is expected a missing value reads as [0], what [null]
      coerces to; the rows that survive the cleaning have both fields.
    - [dayjs] is an external library: the date parser is a parameter, with
      integer instants, so that dates it cannot read are left out.
    - [Number.prototype.toString] is a parameter as well; what is proved of
      the spaced numbers holds for every string it may give.
    - A regular expression is modelled by the positions it matches, read off
      the pattern. *)

From Stdlib Require Import ZArith QArith Qround Qabs Lia Lqa List Bool Ascii String Sorted Permutation.
From Stdlib Require Import SpecFloat.
From stdpp Require Import base list.
Import ListNotations.

Local Open Scope nat_scope.

(** * The engine in exact arithmetic *)

(** ** Data model *)

Inductive DataStatus : Type :=
  | NORMAL
  | RUN_OF_EIGHT_EXCEPTION
  | FOUR_NEAR_LIMIT_EXCEPTION
  | NPL_EXCEPTION.

Definition status_code (s : DataStatus) : Z :=
  match s with
  | NORMAL => 0
  | RUN_OF_EIGHT_EXCEPTION => 1
  | FOUR_NEAR_LIMIT_EXCEPTION => 2
  | NPL_EXCEPTION => 3
  end.

(** A row as it exists at run time: [x] and [value] may be missing
    ([undefined] or [null], both [None]). *)
Record DataValue : Type := mkDataValue {
  order : Z;
  x : option string;
  value : option Q;
  status : DataStatus
}.

#[global] Instance DataValue_inhabited : Inhabited DataValue :=
  populate (mkDataValue 0 None None NORMAL).

#[global] Instance Q_inhabited : Inhabited Q := populate 0%Q.

(** References and the object store.  Objects are never freed, so a new
    object takes the next free index. *)
Abbreviation loc := nat (only parsing).
Abbreviation heap := (list DataValue) (only parsing).

Definition deref (h : heap) (l : loc) : DataValue := h !!! l.

Definition with_status (s : DataStatus) (d : DataValue) : DataValue :=
  mkDataValue (order d) (x d) (value d) s.

(** [o.status = s] *)
Definition set_status (l : loc) (s : DataStatus) (h : heap) : heap :=
  alter (with_status s) l h.

(** [new object] *)
Definition alloc (d : DataValue) (h : heap) : loc * heap :=
  (length h, h ++ [d]).

(** Array indexing [data[i]]; every loop below stays in range. *)
Definition at_index (data : list loc) (i : nat) : loc := data !!! i.

(** Reading [o.value] where a number is expected: the rows that survive
    [removeAllNulls] carry a number; [null] coerces to [0]. *)
Definition ToNumber (v : option Q) : Q :=
  match v with
  | Some q => q
  | None => 0%Q
  end.

Definition value_of (h : heap) (l : loc) : Q := ToNumber (value (deref h l)).
Definition status_of (h : heap) (l : loc) : DataStatus := status (deref h l).

(** Strict comparisons of numbers, as booleans. *)
Definition Qltb (a b : Q) : bool := if Qlt_le_dec a b then true else false.
Definition Qgtb (a b : Q) : bool := Qltb b a.

(** [for (let i = a; i < b; i++) body] *)
Definition for_loop {S : Type} (a b : nat) (body : nat -> S -> S) (s : S) : S :=
  fold_left (fun s i => body i s) (seq a (b - a)) s.

(** ** Constants and rounding *)

Definition NPL_SCALING : Q := 266 # 100.
Definition URL_SCALING : Q := 3268 # 1000.
Definition DECIMAL_POINT : Z := 2.

(** [Math.round]: the nearest integer, an exact half going to the integer
    closer to [+Infinity]. *)
Definition Math_round (q : Q) : Q := inject_Z (Qfloor (q + (1 # 2))).

Definition round_to (n : Q) (decimal_point : Z) : Q :=
  let pow := Qpower 10 decimal_point in
  (Math_round (n * pow) / pow)%Q.

Definition round (n : Q) : Q := round_to n DECIMAL_POINT.

(** ** Movements *)

(** [getMovements]: one new object per consecutive pair. *)
Definition movement_of (h : heap) (data : list loc) (i : nat) : DataValue :=
  let cur := deref h (at_index data i) in
  let diff := round (Qabs (value_of h (at_index data i) - value_of h (at_index data (i - 1)))) in
  mkDataValue (order cur) (x cur) (Some diff) NORMAL.

Definition getMovements (xdata : list loc) (h : heap) : list loc * heap :=
  for_loop 1 (length xdata)
    (fun i st =>
       let '(movements, h1) := st in
       let '(l, h2) := alloc (movement_of h1 xdata i) h1 in
       (movements ++ [l], h2))
    ([], h).

(** ** Built-in array operations *)

(** [arr.forEach(f)] for an [f] that updates a state. *)
Definition forEach {A S : Type} (arr : list A) (f : A -> S -> S) (s : S) : S :=
  fold_left (fun s a => f a s) arr s.

(** [Array.prototype.sort] is stable; [leb a b] says that the comparator is
    not positive on [(a, b)].  A stable sort has one possible result, given
    here by insertion. *)
Fixpoint sort_insert {A : Type} (leb : A -> A -> bool) (a : A) (l : list A) : list A :=
  match l with
  | [] => [a]
  | b :: l' => if leb a b then a :: b :: l' else b :: sort_insert leb a l'
  end.

Fixpoint Array_sort {A : Type} (leb : A -> A -> bool) (l : list A) : list A :=
  match l with
  | [] => []
  | a :: l' => sort_insert leb a (Array_sort leb l')
  end.

(** The chart bounds: numbers together with the two infinities. *)
Inductive xnum : Type :=
  | NegInfinity
  | Finite (q : Q)
  | PosInfinity.

Definition xltb (a b : xnum) : bool :=
  match a, b with
  | _, NegInfinity => false
  | NegInfinity, _ => true
  | PosInfinity, _ => false
  | Finite _, PosInfinity => true
  | Finite p, Finite q => Qltb p q
  end.

Definition Math_min (a b : xnum) : xnum := if xltb b a then b else a.
Definition Math_max (a b : xnum) : xnum := if xltb a b then b else a.

(** ** Limits *)

Definition USE_MEDIAN_AVG : bool := false.
Definition USE_MEDIAN_MR : bool := false.
Definition MEDIAN_NPL_SCALING : Q := 3145 # 1000.
Definition MEDIAN_URL_SCALING : Q := 3865 # 1000.

Definition calculateMedian (arr : list Q) : Q :=
  let arr := Array_sort (fun a b => Qle_bool (a - b) 0) arr in
  let n := length arr in
  if n =? 0 then 0%Q
  else if negb (n mod 2 =? 0) then nth (n / 2) arr 0%Q
  else ((nth (n / 2 - 1) arr 0%Q + nth (n / 2) arr 0%Q) / 2)%Q.

(** The fields [calculateLimits] fills in. *)
Record Limits : Type := mkLimits {
  avgX : Q;
  avgMovement : Q;
  UNPL : Q;
  LNPL : Q;
  URL : Q;
  lowerQuartile : Q;
  upperQuartile : Q
}.

(** [arr.reduce((a, b) => a + b.value, 0)] *)
Definition sum_values (h : heap) (arr : list loc) : Q :=
  fold_left (fun a b => (a + value_of h b)%Q) arr 0%Q.

Definition calculateLimits (xdata : list loc) (h : heap) : Limits * heap :=
  let '(movements, h1) := getMovements xdata h in
  let avgX :=
    if USE_MEDIAN_AVG then calculateMedian (map (value_of h1) xdata)
    else (sum_values h1 xdata / inject_Z (Z.of_nat (length xdata)))%Q in
  let avgMovement :=
    if USE_MEDIAN_MR then calculateMedian (map (value_of h1) movements)
    else (sum_values h1 movements
          / inject_Z (Z.of_nat (Nat.max (length movements) 1)))%Q in
  let delta :=
    ((if USE_MEDIAN_MR then MEDIAN_NPL_SCALING else NPL_SCALING) * avgMovement)%Q in
  let UNPL := (avgX + delta)%Q in
  let LNPL := (avgX - delta)%Q in
  let URL :=
    ((if USE_MEDIAN_MR then MEDIAN_URL_SCALING else URL_SCALING) * avgMovement)%Q in
  let lowerQuartile := ((LNPL + avgX) / 2)%Q in
  let upperQuartile := ((UNPL + avgX) / 2)%Q in
  (mkLimits (round avgX) (round avgMovement) (round UNPL) (round LNPL)
            (round URL) (round lowerQuartile) (round upperQuartile), h1).

(** ** Exception detection *)

(** The bitwise operators work on 32-bit signed integers. *)
Definition ToInt32 (z : Z) : Z := ((z + 2 ^ 31) mod 2 ^ 32 - 2 ^ 31)%Z.
Definition js_shl (a b : Z) : Z := ToInt32 (Z.shiftl (ToInt32 a) (b mod 32)).
Definition js_or (a b : Z) : Z := ToInt32 (Z.lor (ToInt32 a) (ToInt32 b)).
Definition js_and (a b : Z) : Z := ToInt32 (Z.land (ToInt32 a) (ToInt32 b)).
Definition js_not (a : Z) : Z := ToInt32 (Z.lnot (ToInt32 a)).

(** [1 << i % 8] *)
Definition bit_of (i : nat) : Z := js_shl 1 (Z.of_nat i mod 8).

(** [for (let j = a; j <= b; j++) data[j].status = s] *)
Definition mark_range (data : list loc) (a b : nat) (s : DataStatus) (h : heap) : heap :=
  for_loop a (b + 1) (fun j h => set_status (at_index data j) s h) h.

(** The first loop of [checkRunOfEight]: bits are set, never cleared. *)
Definition run8_prime (data : list loc) (avg : Q) (h : heap) : Z :=
  for_loop 0 7
    (fun i aboveOrBelow =>
       if Qgtb (value_of h (at_index data i)) avg
       then js_or aboveOrBelow (bit_of i)
       else aboveOrBelow)
    0%Z.

(** The body of its second loop. *)
Definition run8_body (data : list loc) (avg : Q) (i : nat) (st : Z * heap) : Z * heap :=
  let '(aboveOrBelow, h) := st in
  let aboveOrBelow :=
    if Qgtb (value_of h (at_index data i)) avg
    then js_or aboveOrBelow (bit_of i)
    else js_and aboveOrBelow (js_not (bit_of i)) in
  if (aboveOrBelow =? 0)%Z || (aboveOrBelow =? 255)%Z
  then (aboveOrBelow, mark_range data (i - 7) i RUN_OF_EIGHT_EXCEPTION h)
  else (aboveOrBelow, h).

(** The state once the second loop has finished index [i]. *)
Definition run8_state (data : list loc) (avg : Q) (h : heap) (i : nat) : Z * heap :=
  for_loop 7 (i + 1) (run8_body data avg) (run8_prime data avg h, h).

Definition checkRunOfEight (data : list loc) (avg : Q) (h : heap) : heap :=
  if length data <? 8 then h
  else snd (for_loop 7 (length data) (run8_body data avg) (run8_prime data avg h, h)).

(** The counter update shared by the loops of [checkFourNearLimit]. *)
Definition quartile_count (lowerQuartile upperQuartile : Q) (delta : Z) (v : Q)
    (c : Z * Z) : Z * Z :=
  let '(belowQuartile, aboveQuartile) := c in
  if Qltb v lowerQuartile then ((belowQuartile + delta)%Z, aboveQuartile)
  else if Qgtb v upperQuartile then (belowQuartile, (aboveQuartile + delta)%Z)
  else (belowQuartile, aboveQuartile).

Definition four_prime (data : list loc) (lowerQuartile upperQuartile : Q) (h : heap) : Z * Z :=
  for_loop 0 3
    (fun i c => quartile_count lowerQuartile upperQuartile 1 (value_of h (at_index data i)) c)
    (0%Z, 0%Z).

(** The counters when the test of index [i] is made, after the addition. *)
Definition four_added (data : list loc) (lowerQuartile upperQuartile : Q) (i : nat)
    (st : Z * Z * heap) : Z * Z :=
  let '(c, h) := st in
  quartile_count lowerQuartile upperQuartile 1 (value_of h (at_index data i)) c.

Definition four_body (data : list loc) (lowerQuartile upperQuartile : Q) (i : nat)
    (st : Z * Z * heap) : Z * Z * heap :=
  let c := four_added data lowerQuartile upperQuartile i st in
  let h := snd st in
  let h :=
    if (3 <=? fst c)%Z || (3 <=? snd c)%Z
    then mark_range data (i - 3) i FOUR_NEAR_LIMIT_EXCEPTION h
    else h in
  (quartile_count lowerQuartile upperQuartile (-1) (value_of h (at_index data (i - 3))) c, h).

Definition four_state (data : list loc) (lowerQuartile upperQuartile : Q) (h : heap)
    (i : nat) : Z * Z * heap :=
  for_loop 3 (i + 1) (four_body data lowerQuartile upperQuartile)
    (four_prime data lowerQuartile upperQuartile h, h).

Definition checkFourNearLimit (data : list loc) (lowerQuartile upperQuartile : Q)
    (h : heap) : heap :=
  if length data <? 4 then h
  else snd (for_loop 3 (length data) (four_body data lowerQuartile upperQuartile)
              (four_prime data lowerQuartile upperQuartile h, h)).

Definition checkOutsideLimit (data : list loc) (lowerLimit upperLimit : Q) (h : heap) : heap :=
  forEach data
    (fun dv h =>
       if Qltb (value_of h dv) lowerLimit then set_status dv NPL_EXCEPTION h
       else if Qgtb (value_of h dv) upperLimit then set_status dv NPL_EXCEPTION h
       else h)
    h.

(** ** Preprocessing *)

(** Truthiness of [d.x] and of [d.value], and the loose comparison
    [d.value == 0], which is false for [null] and [undefined]. *)
Definition truthy_string (s : option string) : bool :=
  match s with
  | Some s => negb (String.eqb s "")
  | None => false
  end.

Definition truthy_number (v : option Q) : bool :=
  match v with
  | Some q => negb (Qeq_bool q 0)
  | None => false
  end.

Definition loose_eq_zero (v : option Q) : bool :=
  match v with
  | Some q => Qeq_bool q 0
  | None => false
  end.

Definition keeps (d : DataValue) : bool :=
  truthy_string (x d) && (truthy_number (value d) || loose_eq_zero (value d)).

(** [dv.filter(...)]: a new array holding the same objects. *)
Definition removeAllNulls (dv : list loc) (h : heap) : list loc :=
  List.filter (fun d => keeps (deref h d)) dv.

(** ** The result *)

(** A line: the extremes of the dates and the fields of [Limits]. *)
Record LineValueType : Type := mkLineValue {
  xLeft : xnum;
  xRight : xnum;
  lineLimits : Limits
}.

Record Stats : Type := mkStats {
  xchartMin : xnum;
  xchartMax : xnum;
  mrchartMax : xnum;
  lineValues : list LineValueType;
  xdataPerRange : list (list loc);
  movementsPerRange : list (list loc)
}.

Definition set_xchartMin (v : xnum) (s : Stats) : Stats :=
  mkStats v (xchartMax s) (mrchartMax s) (lineValues s) (xdataPerRange s) (movementsPerRange s).
Definition set_xchartMax (v : xnum) (s : Stats) : Stats :=
  mkStats (xchartMin s) v (mrchartMax s) (lineValues s) (xdataPerRange s) (movementsPerRange s).
Definition set_mrchartMax (v : xnum) (s : Stats) : Stats :=
  mkStats (xchartMin s) (xchartMax s) v (lineValues s) (xdataPerRange s) (movementsPerRange s).
Definition push_lineValue (lv : LineValueType) (s : Stats) : Stats :=
  mkStats (xchartMin s) (xchartMax s) (mrchartMax s) (lineValues s ++ [lv])
          (xdataPerRange s) (movementsPerRange s).
Definition push_xdata (d : list loc) (s : Stats) : Stats :=
  mkStats (xchartMin s) (xchartMax s) (mrchartMax s) (lineValues s)
          (xdataPerRange s ++ [d]) (movementsPerRange s).
Definition push_movements (d : list loc) (s : Stats) : Stats :=
  mkStats (xchartMin s) (xchartMax s) (mrchartMax s) (lineValues s)
          (xdataPerRange s) (movementsPerRange s ++ [d]).

Definition empty_stats : Stats :=
  mkStats PosInfinity NegInfinity NegInfinity [] [] [].

(** [arr.forEach((dv) => (dv.status = DataStatus.NORMAL))] *)
Definition reset_status (arr : list loc) (h : heap) : heap :=
  forEach arr (fun dv h => set_status dv NORMAL h) h.

Section Engine.

(** [fromDateStr]: the instant, in milliseconds, that [dayjs] reads in a
    date string. *)
Variable fromDateStr : string -> Z.

Definition date_of (h : heap) (l : loc) : Z :=
  fromDateStr (default EmptyString (x (deref h l))).

(** [dv.sort((a, b) => fromDateStr(a.x) - fromDateStr(b.x))] *)
Definition sortDataValues (dv : list loc) (h : heap) : list loc :=
  Array_sort (fun a b => (date_of h a - date_of h b <=? 0)%Z) dv.

Definition findExtremesX (arr : list loc) (h : heap) : xnum * xnum :=
  forEach arr
    (fun el mm =>
       let d := Finite (inject_Z (date_of h el)) in
       (Math_min (fst mm) d, Math_max (snd mm) d))
    (PosInfinity, NegInfinity).

Definition computeXmrStats (data : list loc) (h : heap) : Stats * heap :=
  let tableData := sortDataValues (removeAllNulls data h) h in
  let '(xdataXmin, xdataXmax) := findExtremesX tableData h in
  let stats := empty_stats in
  if length tableData =? 0 then (stats, h)
  else
    let '(lim, h) := calculateLimits tableData h in
    let lv := mkLineValue xdataXmin xdataXmax lim in
    let stats := push_lineValue lv stats in
    let stats := set_xchartMin (Math_min (xchartMin stats) (Finite (LNPL lim))) stats in
    let stats := set_xchartMax (Math_max (xchartMax stats) (Finite (UNPL lim))) stats in
    let stats := set_mrchartMax (Math_max (mrchartMax stats) (Finite (URL lim))) stats in
    (* process exceptions on the values *)
    let h := reset_status tableData h in
    let h := checkRunOfEight tableData (avgX lim) h in
    let h := checkFourNearLimit tableData (lowerQuartile lim) (upperQuartile lim) h in
    let h := checkOutsideLimit tableData (LNPL lim) (UNPL lim) h in
    let stats := push_xdata tableData stats in
    (* movement exceptions *)
    let '(movements, h) := getMovements tableData h in
    let h := reset_status movements h in
    let h := checkOutsideLimit movements 0 (URL lim) h in
    let stats := push_movements movements stats in
    (* widen the chart bounds to the data *)
    let stats :=
      forEach (removeAllNulls tableData h)
        (fun dv stats =>
           let stats :=
             if xltb (xchartMax stats) (Finite (value_of h dv))
             then set_xchartMax (Finite (value_of h dv)) stats else stats in
           if xltb (Finite (value_of h dv)) (xchartMin stats)
           then set_xchartMin (Finite (value_of h dv)) stats else stats)
        stats in
    let stats :=
      forEach movements
        (fun dv stats =>
           if xltb (mrchartMax stats) (Finite (value_of h dv))
           then set_mrchartMax (Finite (value_of h dv)) stats else stats)
        stats in
    (stats, h).

End Engine.

(** ** Copies *)

(** [deepClone]: [src.map(...)] builds one new object per element, with the
    four fields of the element. *)
Definition deepClone (src : list loc) (h : heap) : list loc * heap :=
  forEach src
    (fun el st =>
       let '(out, h1) := st in
       let d := deref h1 el in
       let '(l, h2) := alloc (mkDataValue (order d) (x d) (value d) (status d)) h1 in
       (out ++ [l], h2))
    ([], h).

(** ** Colours (js/xmr-chart.ts) *)

Definition dataStatusColor (d : DataStatus) : string :=
  match d with
  | RUN_OF_EIGHT_EXCEPTION => "blue"
  | FOUR_NEAR_LIMIT_EXCEPTION => "orange"
  | NPL_EXCEPTION => "red"
  | _ => "black"
  end.

Definition dataLabelsStatusColor (d : DataStatus) : string :=
  match d with
  | RUN_OF_EIGHT_EXCEPTION => "blue"
  | FOUR_NEAR_LIMIT_EXCEPTION => "#be5504"
  | NPL_EXCEPTION => "#e3242b"
  | _ => "black"
  end.

(** ** Spaced numbers *)

(** The character classes [\d] and [\w] of the two patterns. *)
Definition is_digit (c : ascii) : bool :=
  (48 <=? nat_of_ascii c) && (nat_of_ascii c <=? 57).

Definition is_word (c : ascii) : bool :=
  is_digit c
  || ((65 <=? nat_of_ascii c) && (nat_of_ascii c <=? 90))
  || ((97 <=? nat_of_ascii c) && (nat_of_ascii c <=? 122))
  || (nat_of_ascii c =? 95).

Definition word_at (c : option ascii) : bool :=
  match c with
  | Some c => is_word c
  | None => false
  end.

Definition first_char (s : string) : option ascii :=
  match s with
  | String c _ => Some c
  | EmptyString => None
  end.

(** The digits at the head of a string. *)
Fixpoint digit_run (s : string) : nat :=
  match s with
  | String c s' => if is_digit c then S (digit_run s') else 0
  | EmptyString => 0
  end.

(** [/\B(?=(\d{3})+(?!\d))/] at the position between [prev] and [s]: no
    word boundary here, and the digits that follow, up to the first
    character that is not a digit, make up one or more groups of three. *)
Definition thousands_match (prev : option ascii) (s : string) : bool :=
  Bool.eqb (word_at prev) (word_at (first_char s))
  && (0 <? digit_run s) && (digit_run s mod 3 =? 0).

(** [.replace(/\B(?=(\d{3})+(?!\d))/g, " ")]: the match is empty, so every
    position of the string is tried, the end included. *)
Fixpoint replace_thousands (prev : option ascii) (s : string) : string :=
  let rest :=
    match s with
    | String c s' => String c (replace_thousands (Some c) s')
    | EmptyString => EmptyString
    end in
  if thousands_match prev s then String " " rest else rest.

(** [.replace(/(\d{3})(?=\d)/g, "$1 ")]: a match consumes three digits and
    the search goes on behind them. *)
Fixpoint replace_decimals (s : string) : string :=
  match s with
  | String c1 ((String c2 (String c3 ((String c4 _) as rest))) as tl) =>
      if is_digit c1 && is_digit c2 && is_digit c3 && is_digit c4
      then String c1 (String c2 (String c3 (String " " (replace_decimals rest))))
      else String c1 (replace_decimals tl)
  | String c tl => String c (replace_decimals tl)
  | EmptyString => EmptyString
  end.

(** [.split(".")]: the pieces between the dots, at least one. *)
Fixpoint split_dot (s : string) : list string :=
  match s with
  | EmptyString => [EmptyString]
  | String c s' =>
      if Ascii.eqb c "." then EmptyString :: split_dot s'
      else match split_dot s' with
           | p :: ps => String c p :: ps
           | [] => [String c EmptyString]
           end
  end.

Section Spaced.

(** [Number.prototype.toString] is the engine's own. *)
Variable Number_toString : Q -> string.

Definition numberStringSpaced (num : Q) : string :=
  let parts := split_dot (Number_toString num) in
  let integerPart := hd EmptyString parts in
  let decimalPart := nth_error parts 1 in
  let integerPart := replace_thousands None integerPart in
  if truthy_string decimalPart then
    let decimalPart := replace_decimals (default EmptyString decimalPart) in
    (integerPart ++ "." ++ decimalPart)%string
  else integerPart.

End Spaced.

(** * Vocabulary of the statements *)

(** References of an array that point into the store. *)
Definition valid_refs (h : heap) (data : list loc) : Prop :=
  Forall (fun l => l < length h) data.

(** A write to [status] leaves the other three fields of every object. *)
Definition same_fields (d d' : DataValue) : Prop :=
  order d = order d' /\ x d = x d' /\ value d = value d'.

(** The body of the loop of [getMovements]. *)
Definition movements_body (xdata : list loc) (i : nat) (st : list loc * heap) :
    list loc * heap :=
  let '(movements, h1) := st in
  let '(l, h2) := alloc (movement_of h1 xdata i) h1 in
  (movements ++ [l], h2).

(** The limit formulas on a plain list of values, before rounding. *)
Definition Qsum (l : list Q) : Q := fold_right Qplus 0%Q l.

Definition arithmetic_mean (l : list Q) : Q :=
  (Qsum l / inject_Z (Z.of_nat (length l)))%Q.

(** The values of the movements of a series [v]. *)
Fixpoint moving_ranges (v : list Q) : list Q :=
  match v with
  | a :: (b :: _) as rest => round (Qabs (b - a)) :: moving_ranges rest
  | _ => []
  end.

(** Their mean, [0] below two points. *)
Definition mean_movement (v : list Q) : Q :=
  if length v <? 2 then 0%Q else arithmetic_mean (moving_ranges v).

Definition unrounded_limits (v : list Q) : Limits :=
  let mean := arithmetic_mean v in
  let meanMovement := mean_movement v in
  let upperNaturalLimit := (mean + (266 # 100) * meanMovement)%Q in
  let lowerNaturalLimit := (mean - (266 # 100) * meanMovement)%Q in
  mkLimits mean meanMovement upperNaturalLimit lowerNaturalLimit
           ((3268 # 1000) * meanMovement)%Q
           ((lowerNaturalLimit + mean) / 2)%Q
           ((upperNaturalLimit + mean) / 2)%Q.

(** Field by field, [a] is [b] rounded. *)
Definition rounded_from (a b : Limits) : Prop :=
  (avgX a == round (avgX b))%Q /\
  (avgMovement a == round (avgMovement b))%Q /\
  (UNPL a == round (UNPL b))%Q /\
  (LNPL a == round (LNPL b))%Q /\
  (URL a == round (URL b))%Q /\
  (lowerQuartile a == round (lowerQuartile b))%Q /\
  (upperQuartile a == round (upperQuartile b))%Q.

(** The order of the keys, and the elements that share a key. *)
Definition key_le {A : Type} (key : A -> Z) (a b : A) : Prop := (key a <= key b)%Z.

Definition with_key {A : Type} (key : A -> Z) (k : Z) (l : list A) : list A :=
  List.filter (fun a => (key a =? k)%Z) l.

(** [h'] is [h] up to the statuses. *)
Definition status_only (h h' : heap) : Prop :=
  length h' = length h /\ forall l, same_fields (deref h l) (deref h' l).

(** [h'] is [h] followed by new objects. *)
Definition extends (h h' : heap) : Prop := exists ext, h' = h ++ ext.

(** What the caller can observe of an object it owns, apart from [status]. *)
Definition frame (h h' : heap) : Prop :=
  length h <= length h' /\
  forall l, l < length h -> same_fields (deref h l) (deref h' l).

(** A pass that writes only the status [s] leaves, on every object, either
    [s] or the status the object had. *)
Definition writes_only (s : DataStatus) (h h' : heap) : Prop :=
  forall l, status_of h' l = s \/ status_of h' l = status_of h l.

(** [v] is strictly beyond one of the limits; the step of Rule C. *)
Definition outside (lowerLimit upperLimit v : Q) : bool :=
  Qltb v lowerLimit || Qgtb v upperLimit.

Definition outside_step (lo hi : Q) (dv : loc) (h : heap) : heap :=
  if outside lo hi (value_of h dv) then set_status dv NPL_EXCEPTION h else h.

(** The mask stays within eight bits. *)
Definition mask_ok (m : Z) : Prop := (0 <= m < 256)%Z.

(** Point [k] is strictly above the comparison mean. *)
Definition above (data : list loc) (avg : Q) (h : heap) (k : nat) : bool :=
  Qgtb (value_of h (at_index data k)) avg.

(** The body of the first loop of [checkRunOfEight]. *)
Definition prime_body (data : list loc) (avg : Q) (h : heap) (i : nat) (m : Z) : Z :=
  if above data avg h i then js_or m (bit_of i) else m.

(** The mask that the body of the second loop computes at index [i]. *)
Definition next_mask (data : list loc) (avg : Q) (h : heap) (i : nat) (m : Z) : Z :=
  if above data avg h i then js_or m (bit_of i)
  else js_and m (js_not (bit_of i)).

(** The eight points from [s] on are all above the mean, or none is. *)
Definition uniform (data : list loc) (avg : Q) (h : heap) (s : nat) : Prop :=
  (forall k, s <= k < s + 8 -> above data avg h k = true) \/
  (forall k, s <= k < s + 8 -> above data avg h k = false).

(** The object [l] sits in a uniform window that ends at index [i] or before. *)
Definition in_window_upto (data : list loc) (avg : Q) (h : heap) (i : nat) (l : loc) :
    Prop :=
  exists j s, at_index data j = l /\ s <= j < s + 8 /\ s + 7 <= i /\
              uniform data avg h s.

(** A window of eight consecutive indices of the series whose values are
    all strictly above the mean, or all not. *)
Definition run_window (data : list loc) (avg : Q) (h : heap) (s : nat) : Prop :=
  s + 8 <= length data /\ uniform data avg h s.

(** Point [k] counts for the lower counter, or (if not) for the upper one. *)
Definition near_lower (data : list loc) (lq : Q) (h : heap) (k : nat) : bool :=
  Qltb (value_of h (at_index data k)) lq.

Definition near_upper (data : list loc) (lq uq : Q) (h : heap) (k : nat) : bool :=
  negb (Qltb (value_of h (at_index data k)) lq)
  && Qgtb (value_of h (at_index data k)) uq.

(** The number of indices [k] with [a <= k < b] that satisfy [f]. *)
Definition count_between (f : nat -> bool) (a b : nat) : Z :=
  Z.of_nat (length (List.filter f (seq a (b - a)))).

Definition indicator (b : bool) : Z := if b then 1%Z else 0%Z.

(** The counters of a window, lower and upper. *)
Definition window_counts (data : list loc) (lq uq : Q) (h : heap) (a b : nat) : Z * Z :=
  (count_between (near_lower data lq h) a b,
   count_between (near_upper data lq uq h) a b).

(** The three rules over the values, after the reset. *)
Definition values_pass (tableData : list loc) (lim : Limits) (h : heap) : heap :=
  checkOutsideLimit tableData (LNPL lim) (UNPL lim)
    (checkFourNearLimit tableData (lowerQuartile lim) (upperQuartile lim)
       (checkRunOfEight tableData (avgX lim) (reset_status tableData h))).

(** Rule C alone over the movements, after the reset. *)
Definition movements_pass (movements : list loc) (lim : Limits) (h : heap) : heap :=
  checkOutsideLimit movements 0 (URL lim) (reset_status movements h).

(** The bound updates leave the three lists of the result alone. *)
Definition same_lists (s s' : Stats) : Prop :=
  lineValues s' = lineValues s /\
  xdataPerRange s' = xdataPerRange s /\
  movementsPerRange s' = movementsPerRange s.

(** The array that [computeXmrStats] works on. *)
Definition tableData_of (fromDateStr : string -> Z) (data : list loc) (h : heap) :
    list loc :=
  sortDataValues fromDateStr (removeAllNulls data h) h.

(** Three of the four points from [s] on count for the same counter. *)
Definition hot (data : list loc) (lq uq : Q) (h : heap) (s : nat) : Prop :=
  (3 <= count_between (near_lower data lq h) s (s + 4))%Z \/
  (3 <= count_between (near_upper data lq uq h) s (s + 4))%Z.

(** A window of four consecutive indices of the series, three of whose
    points count for the same counter. *)
Definition near_window (data : list loc) (lq uq : Q) (h : heap) (s : nat) : Prop :=
  s + 4 <= length data /\ hot data lq uq h s.

(** The object [l] sits at an index of a window of eight (of four) that the
    rule flags. *)
Definition in_run_window (data : list loc) (avg : Q) (h : heap) (l : loc) : Prop :=
  exists j s, at_index data j = l /\ s <= j < s + 8 /\ run_window data avg h s.

Definition in_near_window (data : list loc) (lq uq : Q) (h : heap) (l : loc) : Prop :=
  exists j s, at_index data j = l /\ s <= j < s + 4 /\ near_window data lq uq h s.

(** The two stores give the same value to every object of the array. *)
Definition agree_on (data : list loc) (h h' : heap) : Prop :=
  forall l, In l data -> value_of h' l = value_of h l.

(** The two updates that widen the chart bounds to the data. *)
Definition widen_x (h : heap) (dv : loc) (stats : Stats) : Stats :=
  let stats :=
    if xltb (xchartMax stats) (Finite (value_of h dv))
    then set_xchartMax (Finite (value_of h dv)) stats else stats in
  if xltb (Finite (value_of h dv)) (xchartMin stats)
  then set_xchartMin (Finite (value_of h dv)) stats else stats.

Definition widen_mr (h : heap) (dv : loc) (stats : Stats) : Stats :=
  if xltb (mrchartMax stats) (Finite (value_of h dv))
  then set_mrchartMax (Finite (value_of h dv)) stats else stats.

(** The result before the bounds are widened. *)
Definition limits_stats (lv : LineValueType) (tableData movements : list loc) : Stats :=
  mkStats (Finite (LNPL (lineLimits lv))) (Finite (UNPL (lineLimits lv)))
          (Finite (URL (lineLimits lv))) [lv] [tableData] [movements].

(** A string without spaces, as it is read back. *)
Fixpoint strip_spaces (s : string) : string :=
  match s with
  | String c s' => if Ascii.eqb c " " then strip_spaces s' else String c (strip_spaces s')
  | EmptyString => EmptyString
  end.

Fixpoint dot_free (s : string) : Prop :=
  match s with
  | String c s' => c <> "."%char /\ dot_free s'
  | EmptyString => True
  end.

Fixpoint all_digits (s : string) : Prop :=
  match s with
  | String c s' => is_digit c = true /\ all_digits s'
  | EmptyString => True
  end.

(** * Inputs of the examples *)

(** A stand-in for the date parser on the examples: the digits of an ISO
    date, read as one number, grow with the date. *)
Fixpoint digits_value (s : string) (acc : Z) : Z :=
  match s with
  | EmptyString => acc
  | String c s' =>
      let n := nat_of_ascii c in
      if (48 <=? n) && (n <=? 57)
      then digits_value s' (10 * acc + Z.of_nat (n - 48))%Z
      else digits_value s' acc
  end.

Definition iso_date_number (s : string) : Z := digits_value s 0%Z.

Definition row (i : Z) (date : string) (v : Q) : DataValue :=
  mkDataValue i (Some date) (Some v) NORMAL.

(** Three rows with values [10], [12], [11]. *)
Definition three_rows : heap :=
  [ mkDataValue 0 (Some "2024-01-01"%string) (Some 10%Q) NORMAL;
    mkDataValue 1 (Some "2024-01-02"%string) (Some 12%Q) NORMAL;
    mkDataValue 2 (Some "2024-01-03"%string) (Some 11%Q) NORMAL ].

Definition three_refs : list loc := [0; 1; 2].

(** Rows out of order, two of them on the same day, three of them unusable. *)
Definition mixed_rows : heap :=
  [ row 0 "2024-01-03" 5;
    row 1 "2024-01-01" 0;
    mkDataValue 2 None (Some 7%Q) NORMAL;
    mkDataValue 3 (Some "2024-01-02"%string) None NORMAL;
    row 4 "2024-01-01" 3;
    row 5 "" 1 ].

Definition mixed_refs : list loc := [0; 1; 2; 3; 4; 5].

(** Rows that the cleaning drops, all of them. *)
Definition unusable_rows : heap :=
  [ mkDataValue 0 None (Some 7%Q) NORMAL;
    mkDataValue 1 (Some "2024-01-02"%string) None NORMAL ].

Definition unusable_refs : list loc := [0; 1].

(** Sixteen days: eight at [0], seven at [10], one at [30].  The last eight
    are a run above the mean, and the last one is above the upper limit. *)
Definition sixteen_rows : heap :=
  [ row 0 "2024-01-01" 0; row 1 "2024-01-02" 0; row 2 "2024-01-03" 0;
    row 3 "2024-01-04" 0; row 4 "2024-01-05" 0; row 5 "2024-01-06" 0;
    row 6 "2024-01-07" 0; row 7 "2024-01-08" 0; row 8 "2024-01-09" 10;
    row 9 "2024-01-10" 10; row 10 "2024-01-11" 10; row 11 "2024-01-12" 10;
    row 12 "2024-01-13" 10; row 13 "2024-01-14" 10; row 14 "2024-01-15" 10;
    row 15 "2024-01-16" 30 ].

Definition sixteen_refs : list loc := seq 0 16.

Definition sixteen_result : Stats * list DataValue :=
  computeXmrStats iso_date_number sixteen_refs sixteen_rows.

(** Nine days at the constant value [10]. *)
Definition nine_rows : heap :=
  [ row 0 "2024-01-01" 10; row 1 "2024-01-02" 10; row 2 "2024-01-03" 10;
    row 3 "2024-01-04" 10; row 4 "2024-01-05" 10; row 5 "2024-01-06" 10;
    row 6 "2024-01-07" 10; row 7 "2024-01-08" 10; row 8 "2024-01-09" 10 ].

Definition nine_refs : list loc := seq 0 9.

(** Five days: three points at [9] between two at [5]. *)
Definition five_rows : heap :=
  [ row 0 "2024-01-01" 5; row 1 "2024-01-02" 9; row 2 "2024-01-03" 9;
    row 3 "2024-01-04" 9; row 4 "2024-01-05" 5 ].

Definition five_refs : list loc := seq 0 5.

(** The first eight of the nine days. *)
Definition eight_refs : list loc := seq 0 8.

(** The line and the movements of the result for the sixteen days. *)
Definition no_line : LineValueType :=
  mkLineValue PosInfinity PosInfinity (mkLimits 0 0 0 0 0 0 0).

Definition sixteen_line : LineValueType :=
  hd no_line (lineValues (fst sixteen_result)).

(** The usable rows of the mixed input, and the same store with every
    status overwritten. *)
Definition usable_refs : list loc := [0; 1; 4].

Definition mixed_rows_flagged : heap := map (with_status NPL_EXCEPTION) mixed_rows.

(** A number of two decimals as JavaScript writes it: the whole part, then
    a dot and the decimals unless they are zero, without a closing zero. *)
Definition digit_char (d : Z) : ascii := ascii_of_nat (48 + Z.to_nat d).

Fixpoint show_digits (fuel : nat) (z : Z) (acc : string) : string :=
  match fuel with
  | O => acc
  | S f =>
      let acc' := String (digit_char (z mod 10)) acc in
      if (z <? 10)%Z then acc' else show_digits f (z / 10) acc'
  end.

Definition show_whole (z : Z) : string :=
  show_digits (S (Z.to_nat (Z.log2 z))) z EmptyString.

Definition show_hundredths (q : Q) : string :=
  let k := Z.abs (Qfloor (q * 100)) in
  let sign := if Qltb q 0 then "-"%string else EmptyString in
  let f := (k mod 100)%Z in
  let decimals :=
    if (f =? 0)%Z then EmptyString
    else if (f mod 10 =? 0)%Z then String "." (String (digit_char (f / 10)) EmptyString)
    else String "." (String (digit_char (f / 10))
                       (String (digit_char (f mod 10)) EmptyString)) in
  (sign ++ show_whole (k / 100) ++ decimals)%string.

(** A large amount with two decimals. *)
Definition large_amount : Q := 123456725 # 100.

(** The three days, latest first. *)
Definition three_refs_reversed : list loc := [2; 1; 0].

(** The sixteen days with every status overwritten. *)
Definition sixteen_rows_flagged : heap := map (with_status NPL_EXCEPTION) sixteen_rows.

(** * The engine in binary64 arithmetic *)

(** The same functions, with the numbers as the engine has them at run time:
    IEEE 754 binary64, from the Standard Library's specification of
    floating-point arithmetic ([SpecFloat]), with the two infinities, the
    two zeros and [NaN].  Every arithmetic operation rounds its exact result
    to the nearest double, ties to even, and overflows to an infinity; a
    comparison with [NaN] is false.  The limits, the movement values, the
    rounding, the cleaning of the rows and the bounds of the charts are
    verified on this engine. *)
Module Binary64.

(** ** Numbers *)

Abbreviation number := spec_float (only parsing).

Definition prec : Z := 53.
Definition emax : Z := 1024.

Definition NaN : number := S754_nan.
Definition Infinity : number := S754_infinity false.
Definition zero : number := S754_zero false.

(** [a + b], [a - b], [a * b], [a / b] and [-a] *)
Definition plus (a b : number) : number := SFadd prec emax a b.
Definition minus (a b : number) : number := SFsub prec emax a b.
Definition times (a b : number) : number := SFmul prec emax a b.
Definition divide (a b : number) : number := SFdiv prec emax a b.
Definition negate (a : number) : number := SFopp a.

(** [a < b], [a > b] and [a === b] *)
Definition lt (a b : number) : bool := SFltb a b.
Definition gt (a b : number) : bool := SFltb b a.
Definition strict_eq (a b : number) : bool := SFeqb a b.

Declare Scope num_scope.
Delimit Scope num_scope with num.
Infix "+" := plus : num_scope.
Infix "-" := minus : num_scope.
Infix "*" := times : num_scope.
Infix "/" := divide : num_scope.
Notation "- a" := (negate a) : num_scope.
Infix "<?" := lt : num_scope.
Infix ">?" := gt : num_scope.
Infix "=?" := strict_eq : num_scope.

Definition is_nan (a : number) : bool :=
  match a with
  | S754_nan => true
  | _ => false
  end.

(** An integer as a number: itself up to [2^53] in magnitude, the nearest
    double beyond. *)
Definition of_Z (k : Z) : number := binary_normalize prec emax k 0 false.

(** A decimal literal such as [2.66], written [decimal 266 100]: the double
    nearest to the quotient of two integers below [2^53]. *)
Definition decimal (n d : Z) : number := (of_Z n / of_Z d)%num.

(** The rational that a finite number stands for. *)
Definition signed (s : bool) (m : positive) : Z := if s then Z.neg m else Z.pos m.

Definition exact_value (a : number) : Q :=
  match a with
  | S754_finite s m e =>
      if (0 <=? e)%Z then inject_Z (signed s m * 2 ^ e)
      else signed s m # Z.to_pos (2 ^ (- e))
  | _ => 0%Q
  end.

(** [Math.abs] *)
Definition Math_abs (a : number) : number := SFabs a.

(** [Math.round]: a number that is not finite, or that is an integer, is
    returned as it is; a number of magnitude below one half gives the zero
    of its sign; otherwise the result is the nearest integer, an exact half
    going to the integer closer to [+Infinity].  A double with a fractional
    part is below [2^52] in magnitude. *)
Definition Math_round (a : number) : number :=
  match a with
  | S754_finite s m e =>
      if (0 <=? e)%Z then a
      else
        let k := Qfloor (exact_value a + (1 # 2)) in
        if (k =? 0)%Z then S754_zero s else of_Z k
  | _ => a
  end.

(** [Math.min] and [Math.max] of two numbers: [NaN] if either is, and [-0]
    below [+0]. *)
Definition Math_min (a b : number) : number :=
  match a, b with
  | S754_nan, _ | _, S754_nan => NaN
  | S754_zero sa, S754_zero sb => S754_zero (sa || sb)
  | _, _ => if (b <? a)%num then b else a
  end.

Definition Math_max (a b : number) : number :=
  match a, b with
  | S754_nan, _ | _, S754_nan => NaN
  | S754_zero sa, S754_zero sb => S754_zero (sa && sb)
  | _, _ => if (a <? b)%num then b else a
  end.

(** ** Data model *)

(** The field [value] at run time: [undefined], [null] or a number, which
    may be [NaN] or an infinity. *)
Inductive maybe_number : Type :=
  | Undefined
  | Null
  | Number (n : number).

(** A row as it exists at run time; a missing [x] ([undefined] or [null])
    is [None]. *)
Record DataValue : Type := mkDataValue {
  order : Z;
  x : option string;
  value : maybe_number;
  status : DataStatus
}.

#[global] Instance DataValue_inhabited : Inhabited DataValue :=
  populate (mkDataValue 0 None Undefined NORMAL).

#[global] Instance number_inhabited : Inhabited number := populate zero.

Abbreviation heap := (list DataValue) (only parsing).

Definition deref (h : heap) (l : loc) : DataValue := h !!! l.

Definition with_status (s : DataStatus) (d : DataValue) : DataValue :=
  mkDataValue (order d) (x d) (value d) s.

(** [o.status = s] *)
Definition set_status (l : loc) (s : DataStatus) (h : heap) : heap :=
  alter (with_status s) l h.

(** [new object] *)
Definition alloc (d : DataValue) (h : heap) : loc * heap :=
  (length h, h ++ [d]).

(** Reading [o.value] where a number is expected: [undefined] coerces to
    [NaN] and [null] to [0]. *)
Definition ToNumber (v : maybe_number) : number :=
  match v with
  | Undefined => NaN
  | Null => zero
  | Number n => n
  end.

Definition value_of (h : heap) (l : loc) : number := ToNumber (value (deref h l)).
Definition status_of (h : heap) (l : loc) : DataStatus := status (deref h l).

(** ** Constants and rounding *)

Definition NPL_SCALING : number := decimal 266 100.
Definition URL_SCALING : number := decimal 3268 1000.
Definition DECIMAL_POINT : Z := 2.

(** [10 ** decimal_point], for an exponent that is a natural number, as
    every caller has it: the power of ten is an integer, and a double up to
    [10 ** 22]. *)
Definition round_to (n : number) (decimal_point : Z) : number :=
  let pow := of_Z (10 ^ decimal_point) in
  (Math_round (n * pow) / pow)%num.

Definition round (n : number) : number := round_to n DECIMAL_POINT.

(** ** Movements *)

Definition movement_of (h : heap) (data : list loc) (i : nat) : DataValue :=
  let cur := deref h (at_index data i) in
  let diff :=
    round (Math_abs (value_of h (at_index data i)
                     - value_of h (at_index data (i - 1)))%num) in
  mkDataValue (order cur) (x cur) (Number diff) NORMAL.

Definition getMovements (xdata : list loc) (h : heap) : list loc * heap :=
  for_loop 1 (length xdata)
    (fun i st =>
       let '(movements, h1) := st in
       let '(l, h2) := alloc (movement_of h1 xdata i) h1 in
       (movements ++ [l], h2))
    ([], h).

(** ** Limits *)

Definition USE_MEDIAN_AVG : bool := false.
Definition USE_MEDIAN_MR : bool := false.
Definition MEDIAN_NPL_SCALING : number := decimal 3145 1000.
Definition MEDIAN_URL_SCALING : number := decimal 3865 1000.

(** The comparator [(a, b) => a - b] puts [a] first unless the difference is
    positive; a [NaN] difference counts as [0]. *)
Definition calculateMedian (arr : list number) : number :=
  let arr := Array_sort (fun a b => negb (a - b >? zero)%num) arr in
  let n := length arr in
  if n =? 0 then zero
  else if negb (n mod 2 =? 0) then nth (n / 2) arr NaN
  else ((nth (n / 2 - 1) arr NaN + nth (n / 2) arr NaN) / of_Z 2)%num.

Record Limits : Type := mkLimits {
  avgX : number;
  avgMovement : number;
  UNPL : number;
  LNPL : number;
  URL : number;
  lowerQuartile : number;
  upperQuartile : number
}.

(** [arr.reduce((a, b) => a + b.value, 0)] *)
Definition sum_values (h : heap) (arr : list loc) : number :=
  fold_left (fun a b => (a + value_of h b)%num) arr zero.

Definition calculateLimits (xdata : list loc) (h : heap) : Limits * heap :=
  let '(movements, h1) := getMovements xdata h in
  let avgX :=
    if USE_MEDIAN_AVG then calculateMedian (map (value_of h1) xdata)
    else (sum_values h1 xdata / of_Z (Z.of_nat (length xdata)))%num in
  let avgMovement :=
    if USE_MEDIAN_MR then calculateMedian (map (value_of h1) movements)
    else (sum_values h1 movements
          / of_Z (Z.of_nat (Nat.max (length movements) 1)))%num in
  let delta :=
    ((if USE_MEDIAN_MR then MEDIAN_NPL_SCALING else NPL_SCALING) * avgMovement)%num in
  let UNPL := (avgX + delta)%num in
  let LNPL := (avgX - delta)%num in
  let URL :=
    ((if USE_MEDIAN_MR then MEDIAN_URL_SCALING else URL_SCALING) * avgMovement)%num in
  let lowerQuartile := ((LNPL + avgX) / of_Z 2)%num in
  let upperQuartile := ((UNPL + avgX) / of_Z 2)%num in
  (mkLimits (round avgX) (round avgMovement) (round UNPL) (round LNPL)
            (round URL) (round lowerQuartile) (round upperQuartile), h1).

(** ** Exception detection *)

Definition mark_range (data : list loc) (a b : nat) (s : DataStatus) (h : heap) : heap :=
  for_loop a (b + 1) (fun j h => set_status (at_index data j) s h) h.

Definition run8_prime (data : list loc) (avg : number) (h : heap) : Z :=
  for_loop 0 7
    (fun i aboveOrBelow =>
       if (value_of h (at_index data i) >? avg)%num
       then js_or aboveOrBelow (bit_of i)
       else aboveOrBelow)
    0%Z.

Definition run8_body (data : list loc) (avg : number) (i : nat) (st : Z * heap) :
    Z * heap :=
  let '(aboveOrBelow, h) := st in
  let aboveOrBelow :=
    if (value_of h (at_index data i) >? avg)%num
    then js_or aboveOrBelow (bit_of i)
    else js_and aboveOrBelow (js_not (bit_of i)) in
  if (aboveOrBelow =? 0)%Z || (aboveOrBelow =? 255)%Z
  then (aboveOrBelow, mark_range data (i - 7) i RUN_OF_EIGHT_EXCEPTION h)
  else (aboveOrBelow, h).

Definition checkRunOfEight (data : list loc) (avg : number) (h : heap) : heap :=
  if length data <? 8 then h
  else snd (for_loop 7 (length data) (run8_body data avg) (run8_prime data avg h, h)).

Definition quartile_count (lowerQuartile upperQuartile : number) (delta : Z)
    (v : number) (c : Z * Z) : Z * Z :=
  let '(belowQuartile, aboveQuartile) := c in
  if (v <? lowerQuartile)%num then ((belowQuartile + delta)%Z, aboveQuartile)
  else if (v >? upperQuartile)%num then (belowQuartile, (aboveQuartile + delta)%Z)
  else (belowQuartile, aboveQuartile).

Definition four_prime (data : list loc) (lowerQuartile upperQuartile : number)
    (h : heap) : Z * Z :=
  for_loop 0 3
    (fun i c => quartile_count lowerQuartile upperQuartile 1 (value_of h (at_index data i)) c)
    (0%Z, 0%Z).

Definition four_added (data : list loc) (lowerQuartile upperQuartile : number) (i : nat)
    (st : Z * Z * heap) : Z * Z :=
  let '(c, h) := st in
  quartile_count lowerQuartile upperQuartile 1 (value_of h (at_index data i)) c.

Definition four_body (data : list loc) (lowerQuartile upperQuartile : number) (i : nat)
    (st : Z * Z * heap) : Z * Z * heap :=
  let c := four_added data lowerQuartile upperQuartile i st in
  let h := snd st in
  let h :=
    if (3 <=? fst c)%Z || (3 <=? snd c)%Z
    then mark_range data (i - 3) i FOUR_NEAR_LIMIT_EXCEPTION h
    else h in
  (quartile_count lowerQuartile upperQuartile (-1) (value_of h (at_index data (i - 3))) c, h).

Definition checkFourNearLimit (data : list loc) (lowerQuartile upperQuartile : number)
    (h : heap) : heap :=
  if length data <? 4 then h
  else snd (for_loop 3 (length data) (four_body data lowerQuartile upperQuartile)
              (four_prime data lowerQuartile upperQuartile h, h)).

Definition checkOutsideLimit (data : list loc) (lowerLimit upperLimit : number)
    (h : heap) : heap :=
  forEach data
    (fun dv h =>
       if (value_of h dv <? lowerLimit)%num then set_status dv NPL_EXCEPTION h
       else if (value_of h dv >? upperLimit)%num then set_status dv NPL_EXCEPTION h
       else h)
    h.

(** ** Preprocessing *)

(** A number is truthy unless it is a zero or [NaN]; the loose comparison
    [d.value == 0] holds of the two zeros, and of no missing value. *)
Definition truthy_number (v : maybe_number) : bool :=
  match v with
  | Number n => negb ((n =? zero)%num || is_nan n)
  | _ => false
  end.

Definition loose_eq_zero (v : maybe_number) : bool :=
  match v with
  | Number n => (n =? zero)%num
  | _ => false
  end.

Definition keeps (d : DataValue) : bool :=
  truthy_string (x d) && (truthy_number (value d) || loose_eq_zero (value d)).

Definition removeAllNulls (dv : list loc) (h : heap) : list loc :=
  List.filter (fun d => keeps (deref h d)) dv.

(** ** The result *)

(** A line: the extremes of the dates and the fields of [Limits]. *)
Record LineValueType : Type := mkLineValue {
  xLeft : number;
  xRight : number;
  lineLimits : Limits
}.

Record Stats : Type := mkStats {
  xchartMin : number;
  xchartMax : number;
  mrchartMax : number;
  lineValues : list LineValueType;
  xdataPerRange : list (list loc);
  movementsPerRange : list (list loc)
}.

Definition set_xchartMin (v : number) (s : Stats) : Stats :=
  mkStats v (xchartMax s) (mrchartMax s) (lineValues s) (xdataPerRange s) (movementsPerRange s).
Definition set_xchartMax (v : number) (s : Stats) : Stats :=
  mkStats (xchartMin s) v (mrchartMax s) (lineValues s) (xdataPerRange s) (movementsPerRange s).
Definition set_mrchartMax (v : number) (s : Stats) : Stats :=
  mkStats (xchartMin s) (xchartMax s) v (lineValues s) (xdataPerRange s) (movementsPerRange s).
Definition push_lineValue (lv : LineValueType) (s : Stats) : Stats :=
  mkStats (xchartMin s) (xchartMax s) (mrchartMax s) (lineValues s ++ [lv])
          (xdataPerRange s) (movementsPerRange s).
Definition push_xdata (d : list loc) (s : Stats) : Stats :=
  mkStats (xchartMin s) (xchartMax s) (mrchartMax s) (lineValues s)
          (xdataPerRange s ++ [d]) (movementsPerRange s).
Definition push_movements (d : list loc) (s : Stats) : Stats :=
  mkStats (xchartMin s) (xchartMax s) (mrchartMax s) (lineValues s)
          (xdataPerRange s) (movementsPerRange s ++ [d]).

Definition empty_stats : Stats :=
  mkStats Infinity (- Infinity)%num (- Infinity)%num [] [] [].

Definition reset_status (arr : list loc) (h : heap) : heap :=
  forEach arr (fun dv h => set_status dv NORMAL h) h.

Section Engine.

(** [fromDateStr]: the instant, in milliseconds, that [dayjs] reads in a
    date string; an integer, which a number holds exactly. *)
Variable fromDateStr : string -> Z.

Definition date_of (h : heap) (l : loc) : Z :=
  fromDateStr (default EmptyString (x (deref h l))).

Definition sortDataValues (dv : list loc) (h : heap) : list loc :=
  Array_sort (fun a b => (date_of h a - date_of h b <=? 0)%Z) dv.

Definition findExtremesX (arr : list loc) (h : heap) : number * number :=
  forEach arr
    (fun el mm =>
       let d := of_Z (date_of h el) in
       (Math_min (fst mm) d, Math_max (snd mm) d))
    (Infinity, (- Infinity)%num).

Definition computeXmrStats (data : list loc) (h : heap) : Stats * heap :=
  let tableData := sortDataValues (removeAllNulls data h) h in
  let '(xdataXmin, xdataXmax) := findExtremesX tableData h in
  let stats := empty_stats in
  if length tableData =? 0 then (stats, h)
  else
    let '(lim, h) := calculateLimits tableData h in
    let lv := mkLineValue xdataXmin xdataXmax lim in
    let stats := push_lineValue lv stats in
    let stats := set_xchartMin (Math_min (xchartMin stats) (LNPL lim)) stats in
    let stats := set_xchartMax (Math_max (xchartMax stats) (UNPL lim)) stats in
    let stats := set_mrchartMax (Math_max (mrchartMax stats) (URL lim)) stats in
    (* process exceptions on the values *)
    let h := reset_status tableData h in
    let h := checkRunOfEight tableData (avgX lim) h in
    let h := checkFourNearLimit tableData (lowerQuartile lim) (upperQuartile lim) h in
    let h := checkOutsideLimit tableData (LNPL lim) (UNPL lim) h in
    let stats := push_xdata tableData stats in
    (* movement exceptions *)
    let '(movements, h) := getMovements tableData h in
    let h := reset_status movements h in
    let h := checkOutsideLimit movements zero (URL lim) h in
    let stats := push_movements movements stats in
    (* widen the chart bounds to the data *)
    let stats :=
      forEach (removeAllNulls tableData h)
        (fun dv stats =>
           let stats :=
             if (value_of h dv >? xchartMax stats)%num
             then set_xchartMax (value_of h dv) stats else stats in
           if (value_of h dv <? xchartMin stats)%num
           then set_xchartMin (value_of h dv) stats else stats)
        stats in
    let stats :=
      forEach movements
        (fun dv stats =>
           if (value_of h dv >? mrchartMax stats)%num
           then set_mrchartMax (value_of h dv) stats else stats)
        stats in
    (stats, h).

End Engine.

(** ** Vocabulary of the statements *)

(** References of an array that point into the store. *)
Definition valid_refs (h : heap) (data : list loc) : Prop :=
  Forall (fun l => l < length h) data.

(** A write to [status] leaves the other three fields of every object. *)
Definition same_fields (d d' : DataValue) : Prop :=
  order d = order d' /\ x d = x d' /\ value d = value d'.

(** The body of the loop of [getMovements]. *)
Definition movements_body (xdata : list loc) (i : nat) (st : list loc * heap) :
    list loc * heap :=
  let '(movements, h1) := st in
  let '(l, h2) := alloc (movement_of h1 xdata i) h1 in
  (movements ++ [l], h2).

(** A double in its one representation: a mantissa of 53 bits, or fewer at
    the smallest exponent. *)
Definition valid (a : number) : Prop := valid_binary prec emax a = true.

Definition finite (a : number) : Prop :=
  match a with
  | S754_zero _ | S754_finite _ _ _ => True
  | _ => False
  end.

(** [a] is an integer, that is [k]. *)
Definition is_integer (a : number) (k : Z) : Prop :=
  finite a /\ (exact_value a == inject_Z k)%Q.

(** The integer nearest to [q], an exact half going up. *)
Definition nearest_integer_half_up (q : Q) (k : Z) : Prop :=
  (inject_Z k - (1 # 2) <= q)%Q /\ (q < inject_Z k + (1 # 2))%Q.

(** The limit formulas on a plain list of values, before rounding;
    the sum runs from the left, starting at [0]. *)
Definition sum (l : list number) : number := fold_left plus l zero.

Definition arithmetic_mean (l : list number) : number :=
  (sum l / of_Z (Z.of_nat (length l)))%num.

(** The values of the movements of a series [v]. *)
Fixpoint moving_ranges (v : list number) : list number :=
  match v with
  | a :: (b :: _) as rest => round (Math_abs (b - a)%num) :: moving_ranges rest
  | _ => []
  end.

(** Their mean, [0] below two points. *)
Definition mean_movement (v : list number) : number :=
  if length v <? 2 then zero else arithmetic_mean (moving_ranges v).

Definition unrounded_limits (v : list number) : Limits :=
  let mean := arithmetic_mean v in
  let meanMovement := mean_movement v in
  let upperNaturalLimit := (mean + decimal 266 100 * meanMovement)%num in
  let lowerNaturalLimit := (mean - decimal 266 100 * meanMovement)%num in
  mkLimits mean meanMovement upperNaturalLimit lowerNaturalLimit
           (decimal 3268 1000 * meanMovement)%num
           ((lowerNaturalLimit + mean) / of_Z 2)%num
           ((upperNaturalLimit + mean) / of_Z 2)%num.

(** Field by field, [a] is [b] rounded. *)
Definition rounded_from (a b : Limits) : Prop :=
  avgX a = round (avgX b) /\
  avgMovement a = round (avgMovement b) /\
  UNPL a = round (UNPL b) /\
  LNPL a = round (LNPL b) /\
  URL a = round (URL b) /\
  lowerQuartile a = round (lowerQuartile b) /\
  upperQuartile a = round (upperQuartile b).

(** The date is missing: [undefined], [null] or the empty string. *)
Definition x_absent (d : DataValue) : Prop :=
  x d = None \/ x d = Some EmptyString.

(** [h'] is [h] up to the statuses. *)
Definition status_only (h h' : heap) : Prop :=
  length h' = length h /\ forall l, same_fields (deref h l) (deref h' l).

(** [h'] is [h] followed by new objects. *)
Definition extends (h h' : heap) : Prop := exists ext, h' = h ++ ext.

(** [v] is strictly beyond one of the limits; the step of Rule C. *)
Definition outside (lowerLimit upperLimit v : number) : bool :=
  (v <? lowerLimit)%num || (v >? upperLimit)%num.

Definition outside_step (lo hi : number) (dv : loc) (h : heap) : heap :=
  if outside lo hi (value_of h dv) then set_status dv NPL_EXCEPTION h else h.

(** The three rules over the values, after the reset. *)
Definition values_pass (tableData : list loc) (lim : Limits) (h : heap) : heap :=
  checkOutsideLimit tableData (LNPL lim) (UNPL lim)
    (checkFourNearLimit tableData (lowerQuartile lim) (upperQuartile lim)
       (checkRunOfEight tableData (avgX lim) (reset_status tableData h))).

(** Rule C alone over the movements, after the reset. *)
Definition movements_pass (movements : list loc) (lim : Limits) (h : heap) : heap :=
  checkOutsideLimit movements zero (URL lim) (reset_status movements h).

(** The bound updates leave the three lists of the result alone. *)
Definition same_lists (s s' : Stats) : Prop :=
  lineValues s' = lineValues s /\
  xdataPerRange s' = xdataPerRange s /\
  movementsPerRange s' = movementsPerRange s.

(** The array that [computeXmrStats] works on. *)
Definition tableData_of (fromDateStr : string -> Z) (data : list loc) (h : heap) :
    list loc :=
  sortDataValues fromDateStr (removeAllNulls data h) h.

(** The two updates that widen the chart bounds to the data. *)
Definition widen_x (h : heap) (dv : loc) (stats : Stats) : Stats :=
  let stats :=
    if (value_of h dv >? xchartMax stats)%num
    then set_xchartMax (value_of h dv) stats else stats in
  if (value_of h dv <? xchartMin stats)%num
  then set_xchartMin (value_of h dv) stats else stats.

Definition widen_mr (h : heap) (dv : loc) (stats : Stats) : Stats :=
  if (value_of h dv >? mrchartMax stats)%num
  then set_mrchartMax (value_of h dv) stats else stats.

(** The result before the bounds are widened. *)
Definition limits_stats (lv : LineValueType) (tableData movements : list loc) : Stats :=
  mkStats (LNPL (lineLimits lv)) (UNPL (lineLimits lv)) (URL (lineLimits lv))
          [lv] [tableData] [movements].

(** The sign bit of the number is [s], unless the number is [NaN]. *)
Definition sign_or_nan (s : bool) (a : number) : Prop :=
  match a with
  | S754_zero s' | S754_infinity s' | S754_finite s' _ _ => s' = s
  | S754_nan => True
  end.

(** The smaller and the larger of a number and a bound, as the loops at the
    end of [computeXmrStats] update a bound. *)
Definition lower (v m : number) : number := if (v <? m)%num then v else m.
Definition upper (v m : number) : number := if (v >? m)%num then v else m.

(** ** Inputs of the examples *)

Definition row (i : Z) (date : string) (v : number) : DataValue :=
  mkDataValue i (Some date) (Number v) NORMAL.

(** Two rows a day apart, with values [0] and [0.125]. *)
Definition eighth_rows : heap :=
  [ row 0 "2024-01-01" zero; row 1 "2024-01-02" (decimal 125 1000) ].

(** Two rows with values [2.25] and [2.255]. *)
Definition close_rows : heap :=
  [ row 0 "2024-01-01" (decimal 225 100); row 1 "2024-01-02" (decimal 2255 1000) ].

(** Three rows with values [10], [12], [11]. *)
Definition three_rows : heap :=
  [ row 0 "2024-01-01" (of_Z 10); row 1 "2024-01-02" (of_Z 12);
    row 2 "2024-01-03" (of_Z 11) ].

Definition three_refs : list loc := [0; 1; 2].

(** Rows out of order, two of them on the same day; one has no date, one a
    blank date, two have no value, one has the value [NaN] and one the value
    [-0]. *)
Definition mixed_rows : heap :=
  [ row 0 "2024-01-03" (of_Z 5);
    row 1 "2024-01-01" zero;
    mkDataValue 2 None (Number (of_Z 7)) NORMAL;
    mkDataValue 3 (Some "2024-01-02"%string) Null NORMAL;
    row 4 "2024-01-01" (of_Z 3);
    row 5 "" (of_Z 1);
    row 6 "2024-01-02" NaN;
    row 7 "2024-01-04" (- zero)%num;
    mkDataValue 8 (Some "2024-01-05"%string) Undefined NORMAL ].

Definition mixed_refs : list loc := [0; 1; 2; 3; 4; 5; 6; 7; 8].

(** A row with a date whose value is [NaN]. *)
Definition nan_row : DataValue := row 0 "2024-01-01" NaN.

(** Ten rows at the value [0.005]. *)
Definition ten_rows : heap :=
  map (fun i => row (Z.of_nat i) "2024-01-01" (decimal 5 1000)) (seq 0 10).

Definition ten_refs : list loc := seq 0 10.

(** A single row with the value [1e307]. *)
Definition huge_rows : heap := [ row 0 "2024-01-01" (of_Z (10 ^ 307)) ].

(** The first line and the first list of movements of a result. *)
Definition no_line : LineValueType :=
  mkLineValue NaN NaN (mkLimits NaN NaN NaN NaN NaN NaN NaN).

Definition first_line (r : Stats * heap) : LineValueType :=
  hd no_line (lineValues (fst r)).

Definition first_movements (r : Stats * heap) : list loc :=
  hd [] (movementsPerRange (fst r)).

End Binary64.

(** * Verification *)

(** ** Loops *)

Lemma for_loop_ge {S : Type} (a b : nat) (body : nat -> S -> S) (s : S) :
  b <= a -> for_loop a b body s = s.
Proof.
  intros Hle. unfold for_loop.
  replace (b - a) with 0 by lia. reflexivity.
Qed.

Lemma for_loop_S {S : Type} (a b : nat) (body : nat -> S -> S) (s : S) :
  a <= b -> for_loop a (Datatypes.S b) body s = body b (for_loop a b body s).
Proof.
  intros Hle. unfold for_loop.
  replace (Datatypes.S b - a) with (Datatypes.S (b - a)) by lia.
  rewrite seq_S, fold_left_app. simpl.
  replace (a + (b - a)) with b by lia. reflexivity.
Qed.

(** A loop whose body keeps an invariant keeps it. *)
Lemma for_loop_invariant {S : Type} (P : S -> Prop) (a b : nat)
    (body : nat -> S -> S) (s : S) :
  P s -> (forall i s', a <= i < b -> P s' -> P (body i s')) ->
  P (for_loop a b body s).
Proof.
  intros Hs Hstep. induction b as [|b IH].
  - rewrite for_loop_ge by lia. exact Hs.
  - destruct (Nat.le_gt_cases a b) as [Hab|Hab].
    + rewrite for_loop_S by exact Hab. apply Hstep; [lia|].
      apply IH. intros i s' Hi. apply Hstep. lia.
    + rewrite for_loop_ge by lia. exact Hs.
Qed.

Lemma forEach_invariant {A S : Type} (P : S -> Prop) (arr : list A)
    (f : A -> S -> S) (s : S) :
  P s -> (forall a s', In a arr -> P s' -> P (f a s')) -> P (forEach arr f s).
Proof.
  unfold forEach. revert s. induction arr as [|a arr IH]; intros s Hs Hstep.
  - exact Hs.
  - simpl. apply IH.
    + apply Hstep; [left; reflexivity | exact Hs].
    + intros a' s' Hin. apply Hstep. right. exact Hin.
Qed.

(** ** The object store *)

Lemma valid_refs_at h data i :
  valid_refs h data -> i < length data -> at_index data i < length h.
Proof.
  intros Hv Hi. unfold valid_refs in Hv. rewrite Forall_lookup in Hv.
  apply (Hv i). unfold at_index. apply list_lookup_lookup_total_lt. exact Hi.
Qed.

Lemma deref_alloc_old h d l :
  l < length h -> deref (snd (alloc d h)) l = deref h l.
Proof. intros Hl. unfold deref, alloc. simpl. apply lookup_total_app_l. exact Hl. Qed.

Lemma deref_app_old (h ext : heap) l :
  l < length h -> deref (h ++ ext) l = deref h l.
Proof. intros Hl. unfold deref. apply lookup_total_app_l. exact Hl. Qed.

Lemma length_set_status l s h : length (set_status l s h) = length h.
Proof. unfold set_status. apply length_alter. Qed.

Lemma deref_set_status_ne l l' s h :
  l <> l' -> deref (set_status l s h) l' = deref h l'.
Proof. intros Hne. unfold deref, set_status. apply list_lookup_total_alter_ne. exact Hne. Qed.

Lemma deref_set_status_eq l s h :
  l < length h -> deref (set_status l s h) l = with_status s (deref h l).
Proof. intros Hl. unfold deref, set_status. apply list_lookup_total_alter_eq. exact Hl. Qed.

Lemma deref_set_status_out l s h : length h <= l -> set_status l s h = h.
Proof.
  intros Hl. unfold set_status. apply list_eq. intros i.
  destruct (decide (l = i)) as [->|Hne].
  - rewrite list_lookup_alter_eq.
    rewrite (lookup_ge_None_2 h i) by exact Hl. reflexivity.
  - apply list_lookup_alter_ne. exact Hne.
Qed.

Lemma same_fields_refl d : same_fields d d.
Proof. repeat split. Qed.

Lemma same_fields_trans d1 d2 d3 :
  same_fields d1 d2 -> same_fields d2 d3 -> same_fields d1 d3.
Proof. unfold same_fields. intros (?&?&?) (?&?&?). repeat split; congruence. Qed.

Lemma same_fields_set_status l l' s h :
  same_fields (deref h l') (deref (set_status l s h) l').
Proof.
  destruct (decide (l = l')) as [->|Hne].
  - destruct (Nat.lt_ge_cases l' (length h)) as [Hlt|Hge].
    + rewrite deref_set_status_eq by exact Hlt. repeat split.
    + rewrite deref_set_status_out by exact Hge. apply same_fields_refl.
  - rewrite deref_set_status_ne by exact Hne. apply same_fields_refl.
Qed.

Lemma value_of_set_status l l' s h :
  value_of (set_status l s h) l' = value_of h l'.
Proof.
  unfold value_of. destruct (same_fields_set_status l l' s h) as (_ & _ & Hv).
  rewrite Hv. reflexivity.
Qed.

Lemma status_of_set_status_eq l s h :
  l < length h -> status_of (set_status l s h) l = s.
Proof. intros Hl. unfold status_of. rewrite deref_set_status_eq by exact Hl. reflexivity. Qed.

Lemma status_of_set_status_ne l l' s h :
  l <> l' -> status_of (set_status l s h) l' = status_of h l'.
Proof. intros Hne. unfold status_of. rewrite deref_set_status_ne by exact Hne. reflexivity. Qed.

(** ** Movements *)

Lemma getMovements_unfold xdata h :
  getMovements xdata h = for_loop 1 (length xdata) (movements_body xdata) ([], h).
Proof. reflexivity. Qed.

Lemma movement_of_app h ext xdata i :
  valid_refs h xdata -> 1 <= i < length xdata ->
  movement_of (h ++ ext) xdata i = movement_of h xdata i.
Proof.
  intros Hv Hi. unfold movement_of, value_of.
  rewrite !deref_app_old by (apply valid_refs_at; [exact Hv | lia]).
  reflexivity.
Qed.

(** The loop of [getMovements] after index [k]: the new objects sit, in
    order, right after the old store. *)
Lemma getMovements_loop xdata h k :
  valid_refs h xdata -> k < length xdata ->
  for_loop 1 (S k) (movements_body xdata) ([], h)
  = (seq (length h) k, h ++ map (movement_of h xdata) (seq 1 k)).
Proof.
  intros Hv. induction k as [|k IH]; intros Hk.
  - rewrite for_loop_ge by lia. simpl. rewrite app_nil_r. reflexivity.
  - rewrite for_loop_S by lia. rewrite IH by lia.
    rewrite !seq_S, map_app.
    unfold movements_body, alloc.
    rewrite movement_of_app by (try exact Hv; lia).
    rewrite length_app, length_map, length_seq.
    rewrite <- app_assoc. reflexivity.
Qed.

Lemma getMovements_eq xdata h :
  valid_refs h xdata ->
  getMovements xdata h
  = (seq (length h) (length xdata - 1),
     h ++ map (movement_of h xdata) (seq 1 (length xdata - 1))).
Proof.
  intros Hv. rewrite getMovements_unfold.
  destruct xdata as [|a xdata].
  - rewrite for_loop_ge by (simpl; lia). simpl. rewrite app_nil_r. reflexivity.
  - replace (length (a :: xdata)) with (S (length xdata)) by reflexivity.
    replace (S (length xdata) - 1) with (length xdata) by lia.
    apply getMovements_loop; [exact Hv | simpl; lia].
Qed.

Lemma getMovements_old xdata h l :
  valid_refs h xdata -> l < length h ->
  deref (snd (getMovements xdata h)) l = deref h l.
Proof.
  intros Hv Hl. rewrite getMovements_eq by exact Hv. simpl.
  apply deref_app_old. exact Hl.
Qed.

Lemma getMovements_new xdata h i :
  valid_refs h xdata -> 1 <= i < length xdata ->
  at_index (fst (getMovements xdata h)) (i - 1) = length h + (i - 1) /\
  deref (snd (getMovements xdata h)) (at_index (fst (getMovements xdata h)) (i - 1))
  = movement_of h xdata i.
Proof.
  intros Hv Hi. rewrite getMovements_eq by exact Hv. simpl.
  assert (Hat : at_index (seq (length h) (length xdata - 1)) (i - 1) = length h + (i - 1)).
  { unfold at_index. apply lookup_total_seq_lt. lia. }
  split; [exact Hat|]. rewrite Hat. unfold deref.
  rewrite lookup_total_app_r by lia.
  replace (length h + (i - 1) - length h) with (i - 1) by lia.
  rewrite (list_lookup_total_fmap (movement_of h xdata)) by (rewrite length_seq; lia).
  rewrite lookup_total_seq_lt by lia.
  replace (1 + (i - 1)) with i by lia. reflexivity.
Qed.

(** ** Rounding *)

Lemma round_unfold (n : Q) :
  round n = (inject_Z (Qfloor (n * 100 + (1 # 2))) / 100)%Q.
Proof. reflexivity. Qed.

#[global] Instance round_Proper : Proper (Qeq ==> Qeq) round.
Proof.
  intros a b Hab. rewrite !round_unfold.
  assert (Hfl : Qfloor (a * 100 + (1 # 2)) = Qfloor (b * 100 + (1 # 2))).
  { apply Qfloor_comp. rewrite Hab. reflexivity. }
  rewrite Hfl. reflexivity.
Qed.

Lemma round_monotone (a b : Q) : (a <= b)%Q -> (round a <= round b)%Q.
Proof.
  intros Hab. rewrite !round_unfold.
  assert (Hfl : (Qfloor (a * 100 + (1 # 2)) <= Qfloor (b * 100 + (1 # 2)))%Z).
  { apply Qfloor_resp_le. lra. }
  rewrite Zle_Qle in Hfl.
  set (x := inject_Z (Qfloor (a * 100 + (1 # 2)))) in *.
  set (y := inject_Z (Qfloor (b * 100 + (1 # 2)))) in *.
  apply Qmult_le_compat_r with (z := (/ 100)%Q) in Hfl; [exact Hfl | discriminate].
Qed.

(** ** Limits *)



Lemma length_moving_ranges (v : list Q) : length (moving_ranges v) = length v - 1.
Proof.
  induction v as [|a [|b v] IH]; simpl in *; try reflexivity.
  rewrite IH. lia.
Qed.

Lemma moving_ranges_lookup (v : list Q) (i : nat) :
  i + 1 < length v ->
  moving_ranges v !! i = Some (round (Qabs (v !!! (i + 1) - v !!! i))).
Proof.
  revert i. induction v as [|a [|b v] IH]; intros i Hi; simpl in Hi; try lia.
  destruct i as [|i].
  - reflexivity.
  - change (moving_ranges (a :: b :: v)) with
      (round (Qabs (b - a)) :: moving_ranges (b :: v)).
    change ((a :: b :: v) !!! (S i + 1)) with ((b :: v) !!! (i + 1)).
    change ((a :: b :: v) !!! S i) with ((b :: v) !!! i).
    change ((round (Qabs (b - a)) :: moving_ranges (b :: v)) !! S i)
      with (moving_ranges (b :: v) !! i).
    apply IH. simpl. lia.
Qed.

(** The movements that [getMovements] stores carry the moving ranges. *)
Lemma getMovements_values (xdata : list loc) (h : heap) :
  valid_refs h xdata ->
  map (value_of (snd (getMovements xdata h))) (fst (getMovements xdata h))
  = moving_ranges (map (value_of h) xdata).
Proof.
  intros Hv. apply list_eq_same_length with (length xdata - 1).
  - rewrite length_moving_ranges, length_map. reflexivity.
  - rewrite length_map, getMovements_eq by exact Hv. simpl. apply length_seq.
  - intros i a b Hi Ha Hb.
    rewrite moving_ranges_lookup in Hb by (rewrite length_map; lia).
    rewrite list_lookup_fmap in Ha.
    destruct (getMovements_new xdata h (i + 1) Hv ltac:(lia)) as [Hat Hd].
    replace (i + 1 - 1) with i in Hat, Hd by lia.
    assert (Hl : fst (getMovements xdata h) !! i
                 = Some (at_index (fst (getMovements xdata h)) i)).
    { unfold at_index. apply list_lookup_lookup_total_lt.
      rewrite getMovements_eq by exact Hv. simpl. rewrite length_seq. lia. }
    rewrite Hl in Ha. simpl in Ha. unfold value_of at 1 in Ha. rewrite Hd in Ha.
    unfold movement_of in Ha. cbn [value ToNumber] in Ha.
    replace (i + 1 - 1) with i in Ha by lia.
    rewrite !(list_lookup_total_fmap (value_of h)) in Hb by lia.
    unfold at_index in Ha. congruence.
Qed.

Lemma valid_refs_values_old (xdata : list loc) (h : heap) :
  valid_refs h xdata ->
  map (value_of (snd (getMovements xdata h))) xdata = map (value_of h) xdata.
Proof.
  intros Hv. apply map_ext_in. intros l Hl. unfold value_of.
  rewrite getMovements_old; [reflexivity | exact Hv |].
  unfold valid_refs in Hv. rewrite Forall_forall in Hv. apply Hv.
  apply list_elem_of_In. exact Hl.
Qed.

Lemma calculateLimits_heap (xdata : list loc) (h : heap) :
  snd (calculateLimits xdata h) = snd (getMovements xdata h).
Proof.
  unfold calculateLimits. destruct (getMovements xdata h) as [movements h1].
  reflexivity.
Qed.


Lemma round_nonneg (q : Q) : (0 <= q)%Q -> (0 <= round q)%Q.
Proof.
  intros Hq. assert (H0 : (round 0 == 0)%Q) by reflexivity.
  rewrite <- H0. apply round_monotone. exact Hq.
Qed.




(** ** Sorting *)

Section SortByKey.

Context {A : Type} (key : A -> Z) (leb : A -> A -> bool).
Hypothesis leb_key : forall a b, leb a b = true <-> (key a <= key b)%Z.

Lemma sort_insert_perm (a : A) (l : list A) :
  Permutation (sort_insert leb a l) (a :: l).
Proof.
  induction l as [|b l IH]; simpl.
  - reflexivity.
  - destruct (leb a b).
    + reflexivity.
    + rewrite IH. apply perm_swap.
Qed.

Lemma Array_sort_perm (l : list A) : Permutation (Array_sort leb l) l.
Proof.
  induction l as [|a l IH]; simpl.
  - reflexivity.
  - rewrite sort_insert_perm, IH. reflexivity.
Qed.

Lemma sort_insert_sorted (a : A) (l : list A) :
  StronglySorted (key_le key) l -> StronglySorted (key_le key) (sort_insert leb a l).
Proof.
  induction l as [|b l IH]; intros Hs; simpl.
  - repeat constructor.
  - inversion Hs as [|b' l' Hs' Hall]; subst.
    destruct (leb a b) eqn:Hab.
    + apply leb_key in Hab. constructor; [exact Hs|].
      constructor; [exact Hab|].
      eapply Forall_impl; [exact Hall|].
      intros c Hc. unfold key_le in *. lia.
    + assert (Hba : (key b <= key a)%Z).
      { destruct (Z.le_gt_cases (key a) (key b)) as [Hle|Hgt]; [|lia].
        apply leb_key in Hle. congruence. }
      constructor; [apply IH; exact Hs'|].
      rewrite (Forall_forall (key_le key b)). intros c Hc.
      apply list_elem_of_In in Hc.
      apply (Permutation_in _ (sort_insert_perm a l)) in Hc.
      destruct Hc as [<-|Hc]; [exact Hba|].
      rewrite Forall_forall in Hall. apply Hall. apply list_elem_of_In. exact Hc.
Qed.

Lemma Array_sort_sorted (l : list A) : StronglySorted (key_le key) (Array_sort leb l).
Proof.
  induction l as [|a l IH]; simpl.
  - constructor.
  - apply sort_insert_sorted. exact IH.
Qed.

Lemma sort_insert_stable (k : Z) (a : A) (l : list A) :
  with_key key k (sort_insert leb a l) = with_key key k (a :: l).
Proof.
  unfold with_key. induction l as [|b l IH]; simpl.
  - reflexivity.
  - destruct (leb a b) eqn:Hab.
    + reflexivity.
    + assert (Hlt : (key b < key a)%Z).
      { destruct (Z.le_gt_cases (key a) (key b)) as [Hle|Hgt]; [|lia].
        apply leb_key in Hle. congruence. }
      simpl in IH. simpl. rewrite IH.
      destruct (Z.eqb_spec (key b) k) as [Hb|Hb];
        destruct (Z.eqb_spec (key a) k) as [Ha|Ha]; try reflexivity; lia.
Qed.

Lemma Array_sort_stable (k : Z) (l : list A) :
  with_key key k (Array_sort leb l) = with_key key k l.
Proof.
  induction l as [|a l IH]; simpl.
  - reflexivity.
  - rewrite sort_insert_stable. unfold with_key in *. simpl. rewrite IH. reflexivity.
Qed.

(** Sortedness, read by positions. *)
Lemma StronglySorted_lookup (l : list A) (i j : nat) (a b : A) :
  StronglySorted (key_le key) l -> i < j -> l !! i = Some a -> l !! j = Some b ->
  (key a <= key b)%Z.
Proof.
  intros Hs. revert i j. induction Hs as [|c l Hs IH Hall]; intros i j Hij Ha Hb.
  - discriminate.
  - destruct j as [|j]; [lia|]. simpl in Hb. destruct i as [|i].
    + simpl in Ha. injection Ha as <-.
      rewrite Forall_forall in Hall. apply Hall.
      apply list_elem_of_lookup. exists j. exact Hb.
    + simpl in Ha. apply (IH i j); [lia | exact Ha | exact Hb].
Qed.

End SortByKey.

(** ** Preprocessing *)

Lemma removeAllNulls_In (data : list loc) (h : heap) (l : loc) :
  In l (removeAllNulls data h) <-> In l data /\ keeps (deref h l) = true.
Proof. unfold removeAllNulls. apply filter_In. Qed.

(** ** Writes that touch nothing but [status] *)

Lemma status_only_refl (h : heap) : status_only h h.
Proof. split; [reflexivity | intros l; apply same_fields_refl]. Qed.

Lemma status_only_trans (h1 h2 h3 : heap) :
  status_only h1 h2 -> status_only h2 h3 -> status_only h1 h3.
Proof.
  intros [Hl1 Hf1] [Hl2 Hf2]. split; [congruence|].
  intros l. eapply same_fields_trans; [apply Hf1 | apply Hf2].
Qed.

Lemma status_only_set_status (l : loc) (s : DataStatus) (h : heap) :
  status_only h (set_status l s h).
Proof. split; [apply length_set_status | intros l'; apply same_fields_set_status]. Qed.

Lemma status_only_value (h h' : heap) (l : loc) :
  status_only h h' -> value_of h' l = value_of h l.
Proof.
  intros [_ Hf]. unfold value_of. destruct (Hf l) as (_ & _ & Hv).
  rewrite Hv. reflexivity.
Qed.

Create HintDb store.
#[local] Hint Resolve status_only_refl status_only_set_status : store.

Lemma status_only_mark_range (data : list loc) (a b : nat) (s : DataStatus) (h : heap) :
  status_only h (mark_range data a b s h).
Proof.
  unfold mark_range. apply for_loop_invariant; [auto with store|].
  intros i h' _ Hh'. eapply status_only_trans; [exact Hh' | auto with store].
Qed.

Lemma status_only_reset_status (arr : list loc) (h : heap) :
  status_only h (reset_status arr h).
Proof.
  unfold reset_status. apply forEach_invariant; [auto with store|].
  intros l h' _ Hh'. eapply status_only_trans; [exact Hh' | auto with store].
Qed.

Lemma status_only_run8_body (data : list loc) (avg : Q) (i : nat) (h : heap)
    (st : Z * heap) :
  status_only h (snd st) -> status_only h (snd (run8_body data avg i st)).
Proof.
  destruct st as [m h']. simpl. intros Hh'. unfold run8_body.
  match goal with |- context [if ?c then _ else _] => destruct c end;
    match goal with |- context [if ?c then _ else _] => destruct c end; simpl;
    try exact Hh';
    (eapply status_only_trans; [exact Hh' | apply status_only_mark_range]).
Qed.

Lemma status_only_run8_loop (data : list loc) (avg : Q) (h : heap) (b : nat) (m : Z) :
  status_only h (snd (for_loop 7 b (run8_body data avg) (m, h))).
Proof.
  apply for_loop_invariant with (P := fun st => status_only h (snd st)).
  - apply status_only_refl.
  - intros i st _. apply status_only_run8_body.
Qed.

Lemma status_only_checkRunOfEight (data : list loc) (avg : Q) (h : heap) :
  status_only h (checkRunOfEight data avg h).
Proof.
  unfold checkRunOfEight. destruct (length data <? 8).
  - apply status_only_refl.
  - apply status_only_run8_loop.
Qed.

Lemma status_only_four_body (data : list loc) (lq uq : Q) (i : nat) (h : heap)
    (st : Z * Z * heap) :
  status_only h (snd st) -> status_only h (snd (four_body data lq uq i st)).
Proof.
  destruct st as [c h']. simpl. intros Hh'. unfold four_body. simpl.
  match goal with |- context [if ?c then _ else _] => destruct c end;
    try exact Hh';
    (eapply status_only_trans; [exact Hh' | apply status_only_mark_range]).
Qed.

Lemma status_only_four_loop (data : list loc) (lq uq : Q) (h : heap) (b : nat)
    (c : Z * Z) :
  status_only h (snd (for_loop 3 b (four_body data lq uq) (c, h))).
Proof.
  apply for_loop_invariant with (P := fun st => status_only h (snd st)).
  - apply status_only_refl.
  - intros i st _. apply status_only_four_body.
Qed.

Lemma status_only_checkFourNearLimit (data : list loc) (lq uq : Q) (h : heap) :
  status_only h (checkFourNearLimit data lq uq h).
Proof.
  unfold checkFourNearLimit. destruct (length data <? 4).
  - apply status_only_refl.
  - apply status_only_four_loop.
Qed.

Lemma status_only_checkOutsideLimit (data : list loc) (lo hi : Q) (h : heap) :
  status_only h (checkOutsideLimit data lo hi h).
Proof.
  unfold checkOutsideLimit. apply forEach_invariant; [auto with store|].
  intros l h' _ Hh'.
  destruct (Qltb (value_of h' l) lo); [|destruct (Qgtb (value_of h' l) hi)];
    try exact Hh';
    (eapply status_only_trans; [exact Hh' | auto with store]).
Qed.

(** ** Allocation *)

Lemma extends_refl (h : heap) : extends h h.
Proof. exists []. rewrite app_nil_r. reflexivity. Qed.

Lemma extends_old (h h' : heap) (l : loc) :
  extends h h' -> l < length h -> deref h' l = deref h l.
Proof. intros [ext ->] Hl. apply deref_app_old. exact Hl. Qed.

Lemma extends_length (h h' : heap) : extends h h' -> length h <= length h'.
Proof. intros [ext ->]. rewrite length_app. lia. Qed.

Lemma getMovements_extends (xdata : list loc) (h : heap) :
  extends h (snd (getMovements xdata h)).
Proof.
  rewrite getMovements_unfold.
  apply for_loop_invariant with (P := fun st => extends h (snd st)).
  - apply extends_refl.
  - intros i [movements h1] _ [ext Hext]. simpl in Hext. subst h1.
    unfold movements_body, alloc. simpl.
    exists (ext ++ [movement_of (h ++ ext) xdata i]). symmetry; apply app_assoc.
Qed.

Lemma getMovements_fresh (xdata : list loc) (h : heap) (l : loc) :
  In l (fst (getMovements xdata h)) -> length h <= l.
Proof.
  rewrite getMovements_unfold.
  enough (Hinv : extends h (snd (for_loop 1 (length xdata) (movements_body xdata) ([], h)))
                 /\ (In l (fst (for_loop 1 (length xdata) (movements_body xdata) ([], h)))
                     -> length h <= l)) by apply Hinv.
  apply for_loop_invariant with
    (P := fun st => extends h (snd st) /\
                    (In l (fst st) -> length h <= l)).
  - split; [apply extends_refl | intros []].
  - intros i [movements h1] _ [Hext Hin]. simpl in Hext, Hin.
    unfold movements_body, alloc. simpl. split.
    + destruct Hext as [ext ->].
      exists (ext ++ [movement_of (h ++ ext) xdata i]). symmetry; apply app_assoc.
    + intros Hl. apply in_app_or in Hl. destruct Hl as [Hl|[<-|[]]].
      * apply Hin, Hl.
      * apply extends_length, Hext.
Qed.

Lemma frame_trans (h1 h2 h3 : heap) : frame h1 h2 -> frame h2 h3 -> frame h1 h3.
Proof.
  intros [Hl1 Hf1] [Hl2 Hf2]. split; [lia|].
  intros l Hl. eapply same_fields_trans; [apply Hf1, Hl | apply Hf2; lia].
Qed.

Lemma frame_status_only (h h' : heap) : status_only h h' -> frame h h'.
Proof. intros [Hl Hf]. split; [lia | intros l _; apply Hf]. Qed.

Lemma frame_extends (h h' : heap) : extends h h' -> frame h h'.
Proof.
  intros Hext. split; [apply extends_length, Hext|].
  intros l Hl. rewrite (extends_old h h' l Hext Hl). apply same_fields_refl.
Qed.

(** ** Which status a pass can leave *)

Lemma status_of_set_status_cases (a l : loc) (s : DataStatus) (h : heap) :
  status_of (set_status a s h) l = s \/
  status_of (set_status a s h) l = status_of h l.
Proof.
  destruct (decide (a = l)) as [->|Hne].
  - destruct (Nat.lt_ge_cases l (length h)) as [Hlt|Hge].
    + left. apply status_of_set_status_eq. exact Hlt.
    + right. rewrite deref_set_status_out by exact Hge. reflexivity.
  - right. apply status_of_set_status_ne. exact Hne.
Qed.

Lemma writes_only_refl (s : DataStatus) (h : heap) : writes_only s h h.
Proof. intros l. right. reflexivity. Qed.

Lemma writes_only_trans (s : DataStatus) (h1 h2 h3 : heap) :
  writes_only s h1 h2 -> writes_only s h2 h3 -> writes_only s h1 h3.
Proof.
  intros H12 H23 l. destruct (H23 l) as [H|H]; [left; exact H|].
  rewrite H. apply H12.
Qed.

Lemma writes_only_set_status (a : loc) (s : DataStatus) (h : heap) :
  writes_only s h (set_status a s h).
Proof. intros l. apply status_of_set_status_cases. Qed.

Lemma writes_only_mark_range (data : list loc) (a b : nat) (s : DataStatus) (h : heap) :
  writes_only s h (mark_range data a b s h).
Proof.
  unfold mark_range. apply for_loop_invariant; [apply writes_only_refl|].
  intros i h' _ Hh'. eapply writes_only_trans; [exact Hh' | apply writes_only_set_status].
Qed.

Lemma writes_only_checkRunOfEight (data : list loc) (avg : Q) (h : heap) :
  writes_only RUN_OF_EIGHT_EXCEPTION h (checkRunOfEight data avg h).
Proof.
  unfold checkRunOfEight. destruct (length data <? 8); [apply writes_only_refl|].
  apply for_loop_invariant with
    (P := fun st => writes_only RUN_OF_EIGHT_EXCEPTION h (snd st)).
  - apply writes_only_refl.
  - intros i [m h'] _ Hh'. simpl in Hh'. unfold run8_body.
    repeat match goal with |- context [if ?c then _ else _] => destruct c end;
      simpl; try exact Hh';
      (eapply writes_only_trans; [exact Hh' | apply writes_only_mark_range]).
Qed.

Lemma writes_only_checkFourNearLimit (data : list loc) (lq uq : Q) (h : heap) :
  writes_only FOUR_NEAR_LIMIT_EXCEPTION h (checkFourNearLimit data lq uq h).
Proof.
  unfold checkFourNearLimit. destruct (length data <? 4); [apply writes_only_refl|].
  apply for_loop_invariant with
    (P := fun st => writes_only FOUR_NEAR_LIMIT_EXCEPTION h (snd st)).
  - apply writes_only_refl.
  - intros i [c h'] _ Hh'. simpl in Hh'. unfold four_body. simpl.
    match goal with |- context [if ?c then _ else _] => destruct c end;
      try exact Hh';
      (eapply writes_only_trans; [exact Hh' | apply writes_only_mark_range]).
Qed.

(** ** Resetting *)

Lemma reset_status_other (arr : list loc) (h : heap) (l : loc) :
  ~ In l arr -> deref (reset_status arr h) l = deref h l.
Proof.
  intros Hl. unfold reset_status.
  apply forEach_invariant with (P := fun h' => deref h' l = deref h l).
  - reflexivity.
  - intros a h' Ha Hh'. rewrite deref_set_status_ne; [exact Hh'|].
    intros ->. contradiction.
Qed.

Lemma reset_status_In (arr : list loc) (h : heap) (l : loc) :
  In l arr -> l < length h -> status_of (reset_status arr h) l = NORMAL.
Proof.
  unfold reset_status, forEach. revert h.
  induction arr as [|a arr IH]; intros h Hin Hl; [destruct Hin|].
  simpl. destruct (in_dec Nat.eq_dec l arr) as [Hin'|Hout].
  - apply IH; [exact Hin' | rewrite length_set_status; exact Hl].
  - destruct Hin as [->|Hin]; [|contradiction].
    pose proof (reset_status_other arr (set_status l NORMAL h) l Hout) as Hd.
    unfold reset_status, forEach in Hd. unfold status_of. rewrite Hd.
    apply status_of_set_status_eq. exact Hl.
Qed.

(** ** Rule C: outside limit *)

Lemma checkOutsideLimit_fold (data : list loc) (lo hi : Q) (h : heap) :
  checkOutsideLimit data lo hi h = forEach data (outside_step lo hi) h.
Proof.
  unfold checkOutsideLimit, forEach. revert h.
  induction data as [|a data IH]; intros h; [reflexivity|].
  simpl. rewrite <- IH. f_equal. unfold outside_step, outside.
  destruct (Qltb (value_of h a) lo); [reflexivity|].
  destruct (Qgtb (value_of h a) hi); reflexivity.
Qed.

Lemma outside_spec (lo hi v : Q) :
  outside lo hi v = true <-> (v < lo)%Q \/ (hi < v)%Q.
Proof.
  unfold outside, Qgtb, Qltb.
  destruct (Qlt_le_dec v lo) as [H1|H1], (Qlt_le_dec hi v) as [H2|H2]; simpl;
    split; intros H; try reflexivity; try discriminate;
    try (left; assumption); try (right; assumption); destruct H; lra.
Qed.

Lemma outside_false (lo hi v : Q) :
  outside lo hi v = false <-> (lo <= v)%Q /\ (v <= hi)%Q.
Proof.
  unfold outside, Qgtb, Qltb.
  destruct (Qlt_le_dec v lo) as [H1|H1], (Qlt_le_dec hi v) as [H2|H2]; simpl;
    split; intros H; try reflexivity; try discriminate;
    try (split; assumption); destruct H; lra.
Qed.

(** A point within the limits keeps its status; so does a point that the
    array does not hold. *)
Lemma checkOutsideLimit_keeps (data : list loc) (lo hi : Q) (h : heap) (l : loc) :
  ~ In l data \/ outside lo hi (value_of h l) = false ->
  status_of (checkOutsideLimit data lo hi h) l = status_of h l.
Proof.
  intros Hl. rewrite checkOutsideLimit_fold.
  enough (Hinv : status_only h (forEach data (outside_step lo hi) h) /\
                 status_of (forEach data (outside_step lo hi) h) l = status_of h l)
    by apply Hinv.
  apply forEach_invariant with
    (P := fun h' => status_only h h' /\ status_of h' l = status_of h l).
  - split; [apply status_only_refl | reflexivity].
  - intros a h' Ha [Hso Hst]. unfold outside_step.
    destruct (outside lo hi (value_of h' a)) eqn:Hout; [|split; assumption].
    split; [eapply status_only_trans; [exact Hso | apply status_only_set_status]|].
    rewrite status_of_set_status_ne; [exact Hst|].
    intros ->. rewrite (status_only_value h h' l Hso) in Hout.
    destruct Hl as [Hl|Hl]; [contradiction | congruence].
Qed.

Lemma checkOutsideLimit_sticky (data : list loc) (lo hi : Q) (h : heap) (l : loc) :
  status_of h l = NPL_EXCEPTION ->
  status_of (checkOutsideLimit data lo hi h) l = NPL_EXCEPTION.
Proof.
  intros Hst. rewrite checkOutsideLimit_fold.
  apply forEach_invariant with (P := fun h' => status_of h' l = NPL_EXCEPTION).
  - exact Hst.
  - intros a h' _ Hh'. unfold outside_step.
    destruct (outside lo hi (value_of h' a)); [|exact Hh'].
    destruct (status_of_set_status_cases a l NPL_EXCEPTION h') as [H|H]; congruence.
Qed.

(** A point of the array beyond a limit ends with [NPL_EXCEPTION]. *)
Lemma checkOutsideLimit_flags (data : list loc) (lo hi : Q) (h : heap) (l : loc) :
  In l data -> l < length h -> outside lo hi (value_of h l) = true ->
  status_of (checkOutsideLimit data lo hi h) l = NPL_EXCEPTION.
Proof.
  revert h. induction data as [|a data IH]; intros h Hin Hl Hout; [destruct Hin|].
  rewrite checkOutsideLimit_fold. unfold forEach. simpl.
  change (fold_left (fun s a0 => outside_step lo hi a0 s) data (outside_step lo hi a h))
    with (forEach data (outside_step lo hi) (outside_step lo hi a h)).
  rewrite <- checkOutsideLimit_fold.
  destruct Hin as [->|Hin].
  - apply checkOutsideLimit_sticky. unfold outside_step. rewrite Hout.
    apply status_of_set_status_eq. exact Hl.
  - assert (Hso : status_only h (outside_step lo hi a h)).
    { unfold outside_step. destruct (outside lo hi (value_of h a)); auto with store. }
    apply IH; [exact Hin | rewrite (proj1 Hso); exact Hl|].
    rewrite (status_only_value _ _ l Hso). exact Hout.
Qed.

(** ** The rolling mask of Rule A *)

Local Open Scope Z_scope.

Lemma ToInt32_small (z : Z) : - 2 ^ 31 <= z < 2 ^ 31 -> ToInt32 z = z.
Proof. intros Hz. unfold ToInt32. rewrite Z.mod_small; lia. Qed.

Lemma pow2_below_8 (b : Z) : 0 <= b < 8 -> 0 < 2 ^ b <= 128.
Proof.
  intros Hb.
  assert (Hc : b = 0 \/ b = 1 \/ b = 2 \/ b = 3 \/ b = 4 \/ b = 5 \/ b = 6 \/ b = 7)
    by lia.
  repeat (destruct Hc as [->|Hc]; [simpl; lia|]). subst b. simpl. lia.
Qed.

Lemma mod8_range (i : nat) : 0 <= Z.of_nat i mod 8 < 8.
Proof. apply Z.mod_pos_bound. lia. Qed.

Lemma bit_of_eq (i : nat) : bit_of i = 2 ^ (Z.of_nat i mod 8).
Proof.
  pose proof (mod8_range i) as Hb. pose proof (pow2_below_8 _ Hb) as Hp.
  unfold bit_of, js_shl.
  rewrite (ToInt32_small 1) by lia.
  rewrite (Z.mod_small (Z.of_nat i mod 8) 32) by lia.
  rewrite Z.shiftl_1_l. apply ToInt32_small. lia.
Qed.

Lemma mask_ok_bits (m : Z) :
  mask_ok m <-> 0 <= m /\ forall k, 8 <= k -> Z.testbit m k = false.
Proof.
  unfold mask_ok. split.
  - intros [H0 H1]. split; [exact H0|]. intros k Hk.
    destruct (Z.eq_dec m 0) as [->|Hne]; [apply Z.bits_0|].
    apply Z.bits_above_log2; [exact H0|].
    assert (Hl : Z.log2 m < 8) by (apply Z.log2_lt_pow2; lia). lia.
  - intros [H0 Hb]. split; [exact H0|].
    destruct (Z_lt_le_dec m 256) as [Hlt|Hge]; [exact Hlt|].
    assert (Hl : 8 <= Z.log2 m) by (apply Z.log2_le_pow2; lia).
    pose proof (Z.bit_log2 m ltac:(lia)) as Ht.
    rewrite (Hb _ Hl) in Ht. discriminate.
Qed.

(** [aboveOrBelow |= 1 << i % 8] *)
Lemma mask_set (m : Z) (i : nat) :
  mask_ok m ->
  mask_ok (js_or m (bit_of i)) /\
  forall k, 0 <= k ->
    Z.testbit (js_or m (bit_of i)) k
    = Z.testbit m k || (k =? Z.of_nat i mod 8).
Proof.
  intros Hm. pose proof (mod8_range i) as Hb.
  pose proof (pow2_below_8 _ Hb) as Hp.
  assert (Hbits : forall k, 0 <= k ->
            Z.testbit (Z.lor m (2 ^ (Z.of_nat i mod 8))) k
            = Z.testbit m k || (k =? Z.of_nat i mod 8)).
  { intros k Hk. rewrite Z.lor_spec, Z.pow2_bits_eqb by lia.
    rewrite (Z.eqb_sym k). reflexivity. }
  assert (Hok : mask_ok (Z.lor m (2 ^ (Z.of_nat i mod 8)))).
  { apply mask_ok_bits. split.
    - apply Z.lor_nonneg. unfold mask_ok in Hm. lia.
    - intros k Hk. rewrite Hbits by lia.
      apply mask_ok_bits in Hm. rewrite (proj2 Hm k Hk).
      destruct (Z.eqb_spec k (Z.of_nat i mod 8)); [lia | reflexivity]. }
  assert (Heq : js_or m (bit_of i) = Z.lor m (2 ^ (Z.of_nat i mod 8))).
  { unfold js_or. rewrite bit_of_eq.
    unfold mask_ok in Hm, Hok.
    rewrite (ToInt32_small m), (ToInt32_small (2 ^ _)) by lia.
    apply ToInt32_small. lia. }
  rewrite Heq. split; assumption.
Qed.

(** [aboveOrBelow &= ~(1 << i % 8)] *)
Lemma mask_clear (m : Z) (i : nat) :
  mask_ok m ->
  mask_ok (js_and m (js_not (bit_of i))) /\
  forall k, 0 <= k ->
    Z.testbit (js_and m (js_not (bit_of i))) k
    = Z.testbit m k && negb (k =? Z.of_nat i mod 8).
Proof.
  intros Hm. pose proof (mod8_range i) as Hb.
  pose proof (pow2_below_8 _ Hb) as Hp.
  set (p := 2 ^ (Z.of_nat i mod 8)) in *.
  assert (Hbits : forall k, 0 <= k ->
            Z.testbit (Z.land m (Z.lnot p)) k
            = Z.testbit m k && negb (k =? Z.of_nat i mod 8)).
  { intros k Hk. rewrite Z.land_spec, Z.lnot_spec by lia.
    unfold p. rewrite Z.pow2_bits_eqb by lia.
    rewrite (Z.eqb_sym k). reflexivity. }
  assert (Hok : mask_ok (Z.land m (Z.lnot p))).
  { apply mask_ok_bits. split.
    - apply Z.land_nonneg. left. unfold mask_ok in Hm. lia.
    - intros k Hk. rewrite Hbits by lia.
      apply mask_ok_bits in Hm. rewrite (proj2 Hm k Hk). reflexivity. }
  assert (Hnot : js_not (bit_of i) = Z.lnot p).
  { unfold js_not. rewrite bit_of_eq. fold p.
    rewrite (ToInt32_small p) by lia.
    apply ToInt32_small. unfold Z.lnot. lia. }
  assert (Heq : js_and m (js_not (bit_of i)) = Z.land m (Z.lnot p)).
  { unfold js_and. rewrite Hnot.
    unfold mask_ok in Hm, Hok.
    rewrite (ToInt32_small m) by lia.
    rewrite (ToInt32_small (Z.lnot p)) by (unfold Z.lnot; lia).
    apply ToInt32_small. lia. }
  rewrite Heq. split; assumption.
Qed.

(** All eight bits set, or none. *)
Lemma mask_full (m : Z) :
  mask_ok m -> (m = 255 <-> forall b, 0 <= b < 8 -> Z.testbit m b = true).
Proof.
  intros Hm. split.
  - intros -> b Hb.
    assert (Hc : b = 0 \/ b = 1 \/ b = 2 \/ b = 3 \/ b = 4 \/ b = 5 \/ b = 6 \/ b = 7)
      by lia.
    repeat (destruct Hc as [->|Hc]; [reflexivity|]). subst b. reflexivity.
  - intros Hall. apply Z.bits_inj'. intros k Hk.
    destruct (Z_lt_le_dec k 8) as [Hlt|Hge].
    + rewrite Hall by lia.
      assert (Hc : k = 0 \/ k = 1 \/ k = 2 \/ k = 3 \/ k = 4 \/ k = 5 \/ k = 6 \/ k = 7)
        by lia.
      repeat (destruct Hc as [->|Hc]; [reflexivity|]). subst k. reflexivity.
    + apply mask_ok_bits in Hm. rewrite (proj2 Hm k Hge).
      symmetry. apply (proj2 (proj1 (mask_ok_bits 255) ltac:(unfold mask_ok; lia))).
      exact Hge.
Qed.

Lemma mask_empty (m : Z) :
  mask_ok m -> (m = 0 <-> forall b, 0 <= b < 8 -> Z.testbit m b = false).
Proof.
  intros Hm. split.
  - intros -> b _. apply Z.bits_0.
  - intros Hnone. apply Z.bits_inj'. intros k Hk. rewrite Z.bits_0.
    destruct (Z_lt_le_dec k 8) as [Hlt|Hge].
    + apply Hnone. lia.
    + apply mask_ok_bits in Hm. apply (proj2 Hm k Hge).
Qed.

Local Close Scope Z_scope.

(** ** Rule A: run of eight *)

Lemma run8_prime_unfold (data : list loc) (avg : Q) (h : heap) :
  run8_prime data avg h = for_loop 0 7 (prime_body data avg h) 0%Z.
Proof. reflexivity. Qed.

(** After [j] steps of the first loop, bit [k] is set exactly for the points
    [k < j] above the mean: a bit that is never set stays clear. *)
Lemma run8_prime_loop (data : list loc) (avg : Q) (h : heap) (j : nat) :
  j <= 7 ->
  mask_ok (for_loop 0 j (prime_body data avg h) 0%Z) /\
  forall k : nat,
    Z.testbit (for_loop 0 j (prime_body data avg h) 0%Z) (Z.of_nat k)
    = (k <? j) && above data avg h k.
Proof.
  induction j as [|j IH]; intros Hj.
  - rewrite for_loop_ge by lia. split; [unfold mask_ok; lia|].
    intros k. rewrite Z.bits_0. reflexivity.
  - destruct (IH ltac:(lia)) as [Hok Hbits]. rewrite for_loop_S by lia.
    set (m := for_loop 0 j (prime_body data avg h) 0%Z) in *.
    assert (Hmod : (Z.of_nat j mod 8 = Z.of_nat j)%Z) by (apply Z.mod_small; lia).
    unfold prime_body at 1. unfold prime_body at 1.
    destruct (above data avg h j) eqn:Hab.
    + destruct (mask_set m j Hok) as [Hok' Hbits']. split; [exact Hok'|].
      intros k. rewrite Hbits' by lia. rewrite Hbits, Hmod.
      destruct (Nat.ltb_spec k j), (Nat.ltb_spec k (S j)),
        (Z.eqb_spec (Z.of_nat k) (Z.of_nat j)); simpl; try lia; try reflexivity.
      * rewrite orb_false_r. reflexivity.
      * assert (k = j) by lia. subst k. rewrite Hab. reflexivity.
    + split; [exact Hok|]. intros k. rewrite Hbits.
      destruct (Nat.ltb_spec k j), (Nat.ltb_spec k (S j)); simpl; try lia;
        try reflexivity.
      assert (k = j) by lia. subst k. rewrite Hab. reflexivity.
Qed.

Lemma run8_state_6 (data : list loc) (avg : Q) (h : heap) :
  run8_state data avg h 6 = (run8_prime data avg h, h).
Proof. unfold run8_state. apply for_loop_ge. lia. Qed.

Lemma run8_state_S (data : list loc) (avg : Q) (h : heap) (i : nat) :
  6 <= i ->
  run8_state data avg h (S i) = run8_body data avg (S i) (run8_state data avg h i).
Proof.
  intros Hi. unfold run8_state.
  replace (S i + 1) with (S (i + 1)) by lia.
  rewrite for_loop_S by lia.
  replace (i + 1) with (S i) by lia. reflexivity.
Qed.

Lemma run8_body_eq (data : list loc) (avg : Q) (i : nat) (m : Z) (h : heap) :
  run8_body data avg i (m, h)
  = (next_mask data avg h i m,
     if (next_mask data avg h i m =? 0)%Z || (next_mask data avg h i m =? 255)%Z
     then mark_range data (i - 7) i RUN_OF_EIGHT_EXCEPTION h
     else h).
Proof.
  unfold run8_body, next_mask, above.
  destruct (Qgtb (value_of h (at_index data i)) avg);
    match goal with |- context [if ?c then _ else _] => destruct c end;
    reflexivity.
Qed.

Lemma above_status_only (data : list loc) (avg : Q) (h h' : heap) (k : nat) :
  status_only h h' -> above data avg h' k = above data avg h k.
Proof. intros Hso. unfold above. rewrite (status_only_value h h' _ Hso). reflexivity. Qed.

(** The mask after index [i] holds, at bit [k mod 8], whether point [k] of
    the last eight is above the mean. *)
Lemma run8_state_mask (data : list loc) (avg : Q) (h : heap) (i : nat) :
  6 <= i ->
  mask_ok (fst (run8_state data avg h i)) /\
  status_only h (snd (run8_state data avg h i)) /\
  forall k, i - 7 <= k <= i ->
    Z.testbit (fst (run8_state data avg h i)) (Z.of_nat k mod 8)
    = above data avg h k.
Proof.
  intros Hi. induction i as [|i IH]; [lia|].
  destruct (Nat.eq_dec i 5) as [->|Hne].
  - rewrite run8_state_6. simpl fst. simpl snd.
    rewrite run8_prime_unfold.
    destruct (run8_prime_loop data avg h 7 ltac:(lia)) as [Hok Hbits].
    split; [exact Hok|]. split; [apply status_only_refl|].
    intros k Hk. rewrite Z.mod_small by lia. rewrite Hbits.
    destruct (Nat.ltb_spec k 7); [reflexivity | lia].
  - destruct (IH ltac:(lia)) as (Hok & Hso & Hbits).
    rewrite run8_state_S by lia.
    destruct (run8_state data avg h i) as [m hi].
    rewrite run8_body_eq. cbn [fst snd] in *.
    assert (Hmask : mask_ok (next_mask data avg hi (S i) m) /\
              forall k, S i - 7 <= k <= S i ->
                Z.testbit (next_mask data avg hi (S i) m) (Z.of_nat k mod 8)
                = above data avg h k).
    { unfold next_mask. rewrite (above_status_only data avg h hi (S i) Hso).
      destruct (above data avg h (S i)) eqn:Hab.
      - destruct (mask_set m (S i) Hok) as [Hok' Hbits']. split; [exact Hok'|].
        intros k Hk. rewrite Hbits' by (apply Z.mod_pos_bound; lia).
        destruct (Nat.eq_dec k (S i)) as [->|Hk'].
        + rewrite Z.eqb_refl, orb_true_r, Hab. reflexivity.
        + rewrite Hbits by lia.
          destruct (Z.eqb_spec (Z.of_nat k mod 8) (Z.of_nat (S i) mod 8)) as [He|He].
          * exfalso. revert He. Z.div_mod_to_equations. lia.
          * apply orb_false_r.
      - destruct (mask_clear m (S i) Hok) as [Hok' Hbits']. split; [exact Hok'|].
        intros k Hk. rewrite Hbits' by (apply Z.mod_pos_bound; lia).
        destruct (Nat.eq_dec k (S i)) as [->|Hk'].
        + rewrite Z.eqb_refl, andb_false_r, Hab. reflexivity.
        + rewrite Hbits by lia.
          destruct (Z.eqb_spec (Z.of_nat k mod 8) (Z.of_nat (S i) mod 8)) as [He|He].
          * exfalso. revert He. Z.div_mod_to_equations. lia.
          * apply andb_true_r. }
    destruct Hmask as [Hok' Hbits']. split; [exact Hok'|]. split; [|exact Hbits'].
    match goal with |- context [if ?c then _ else _] => destruct c end;
      [|exact Hso].
    eapply status_only_trans; [exact Hso | apply status_only_mark_range].
Qed.

(** Eight consecutive points are seen through the eight bits. *)
Lemma window_bits (f : nat -> bool) (m : Z) (i : nat) :
  7 <= i -> mask_ok m ->
  (forall k, i - 7 <= k <= i -> Z.testbit m (Z.of_nat k mod 8) = f k) ->
  (m = 255%Z <-> forall k, i - 7 <= k <= i -> f k = true) /\
  (m = 0%Z <-> forall k, i - 7 <= k <= i -> f k = false).
Proof.
  intros Hi Hok Hbits.
  assert (Hcover : forall b, (0 <= b < 8)%Z ->
            exists k, i - 7 <= k <= i /\ (Z.of_nat k mod 8 = b)%Z).
  { intros b Hb.
    exists (Z.to_nat (Z.of_nat i - (Z.of_nat i - b) mod 8)).
    assert (Hr : (0 <= (Z.of_nat i - b) mod 8 < 8)%Z) by (apply Z.mod_pos_bound; lia).
    split; [lia|]. rewrite Z2Nat.id by lia.
    Z.div_mod_to_equations. lia. }
  split.
  - rewrite (mask_full m Hok). split.
    + intros Hall k Hk. rewrite <- Hbits by exact Hk.
      apply Hall. apply Z.mod_pos_bound. lia.
    + intros Hall b Hb. destruct (Hcover b Hb) as (k & Hk & <-).
      rewrite Hbits by exact Hk. apply Hall, Hk.
  - rewrite (mask_empty m Hok). split.
    + intros Hnone k Hk. rewrite <- Hbits by exact Hk.
      apply Hnone. apply Z.mod_pos_bound. lia.
    + intros Hnone b Hb. destruct (Hcover b Hb) as (k & Hk & <-).
      rewrite Hbits by exact Hk. apply Hnone, Hk.
Qed.

Lemma run8_state_step (data : list loc) (avg : Q) (h : heap) (i : nat) :
  6 <= i ->
  let m' := fst (run8_state data avg h (S i)) in
  snd (run8_state data avg h (S i))
  = if (m' =? 0)%Z || (m' =? 255)%Z
    then mark_range data (S i - 7) (S i) RUN_OF_EIGHT_EXCEPTION
           (snd (run8_state data avg h i))
    else snd (run8_state data avg h i).
Proof.
  intros Hi. simpl. rewrite run8_state_S by exact Hi.
  destruct (run8_state data avg h i) as [m hi]. rewrite run8_body_eq. reflexivity.
Qed.

Lemma checkRunOfEight_state (data : list loc) (avg : Q) (h : heap) :
  8 <= length data ->
  checkRunOfEight data avg h = snd (run8_state data avg h (length data - 1)).
Proof.
  intros Hn. unfold checkRunOfEight, run8_state.
  destruct (Nat.ltb_spec (length data) 8) as [Hlt|_]; [lia|].
  replace (length data - 1 + 1) with (length data) by lia. reflexivity.
Qed.

(** *** Marking a range *)

Lemma mark_range_loop_in (data : list loc) (a c : nat) (s : DataStatus) (h : heap)
    (j : nat) :
  a <= j < c -> at_index data j < length h ->
  status_of (for_loop a c (fun j h => set_status (at_index data j) s h) h)
            (at_index data j) = s.
Proof.
  intros Hj Hl. induction c as [|c IH]; [lia|].
  rewrite for_loop_S by lia.
  set (h' := for_loop a c (fun j h => set_status (at_index data j) s h) h) in *.
  assert (Hlen : length h' = length h).
  { unfold h'. apply for_loop_invariant with (P := fun x => length x = length h).
    - reflexivity.
    - intros i x _ Hx. rewrite length_set_status. exact Hx. }
  destruct (Nat.eq_dec j c) as [->|Hne].
  - apply status_of_set_status_eq. rewrite Hlen. exact Hl.
  - destruct (status_of_set_status_cases (at_index data c) (at_index data j) s h')
      as [H|H]; [exact H|]. rewrite H. apply IH. lia.
Qed.

Lemma mark_range_in (data : list loc) (a b : nat) (s : DataStatus) (h : heap) (j : nat) :
  a <= j <= b -> at_index data j < length h ->
  status_of (mark_range data a b s h) (at_index data j) = s.
Proof. intros Hj Hl. unfold mark_range. apply mark_range_loop_in; [lia | exact Hl]. Qed.

Lemma mark_range_out (data : list loc) (a b : nat) (s : DataStatus) (h : heap) (l : loc) :
  (forall j, a <= j <= b -> at_index data j <> l) ->
  deref (mark_range data a b s h) l = deref h l.
Proof.
  intros Hout. unfold mark_range.
  apply for_loop_invariant with (P := fun h' => deref h' l = deref h l).
  - reflexivity.
  - intros i h' Hi Hh'. rewrite deref_set_status_ne; [exact Hh'|].
    apply Hout. lia.
Qed.

(** Whether a reference occurs between two positions of an array. *)
Lemma occurs_between_dec (data : list loc) (a b : nat) (l : loc) :
  (exists j, a <= j <= b /\ at_index data j = l) \/
  (forall j, a <= j <= b -> at_index data j <> l).
Proof.
  induction b as [|b IH].
  - destruct (Nat.eq_dec (at_index data 0) l) as [He|Hne].
    + destruct (Nat.eq_dec a 0) as [->|Ha].
      * left. exists 0. split; [lia | exact He].
      * right. intros j Hj. lia.
    + right. intros j Hj. replace j with 0 by lia. exact Hne.
  - destruct IH as [(j & Hj & He)|Hnone].
    + left. exists j. split; [lia | exact He].
    + destruct (Nat.eq_dec (at_index data (S b)) l) as [He|Hne].
      * destruct (Nat.le_gt_cases a (S b)) as [Hle|Hgt].
        -- left. exists (S b). split; [lia | exact He].
        -- right. intros j Hj. lia.
      * right. intros j Hj. destruct (Nat.eq_dec j (S b)) as [->|Hjb];
          [exact Hne | apply Hnone; lia].
Qed.

(** *** The declarative reading *)

Lemma run8_test_uniform (data : list loc) (avg : Q) (h : heap) (i : nat) :
  7 <= i ->
  let m := fst (run8_state data avg h i) in
  (m =? 0)%Z || (m =? 255)%Z = true <-> uniform data avg h (i - 7).
Proof.
  intros Hi m.
  destruct (run8_state_mask data avg h i ltac:(lia)) as (Hok & _ & Hbits).
  destruct (window_bits (above data avg h) m i Hi Hok Hbits) as [Hfull Hnone].
  rewrite orb_true_iff, !Z.eqb_eq, Hfull, Hnone. unfold uniform.
  split; (intros [H|H]; [right|left]; intros k Hk; apply H; lia).
Qed.

Lemma run8_state_status (data : list loc) (avg : Q) (h : heap) (i : nat) :
  valid_refs h data -> 6 <= i < length data ->
  forall l,
    status_of (snd (run8_state data avg h i)) l = RUN_OF_EIGHT_EXCEPTION
    <-> status_of h l = RUN_OF_EIGHT_EXCEPTION \/ in_window_upto data avg h i l.
Proof.
  intros Hv Hi. induction i as [|i IH]; [lia|].
  destruct (Nat.eq_dec i 5) as [->|Hne].
  { intros l. rewrite run8_state_6. simpl snd. split; [intros H; left; exact H|].
    intros [H|(j & s & _ & _ & Hs & _)]; [exact H | lia]. }
  specialize (IH ltac:(lia)). intros l.
  rewrite run8_state_step by lia.
  pose proof (run8_test_uniform data avg h (S i) ltac:(lia)) as Htest.
  simpl in Htest.
  destruct (run8_state_mask data avg h i ltac:(lia)) as (_ & Hso & _).
  set (hi := snd (run8_state data avg h i)) in *.
  destruct ((fst (run8_state data avg h (S i)) =? 0)%Z
            || (fst (run8_state data avg h (S i)) =? 255)%Z) eqn:Hm.
  - assert (Hu : uniform data avg h (S i - 7)) by (apply Htest; reflexivity).
    split.
    + intros Hst.
      destruct (occurs_between_dec data (S i - 7) (S i) l) as [(j & Hj & He)|Hout].
      * right. exists j, (S i - 7). repeat split; try lia; assumption.
      * unfold status_of in Hst. rewrite mark_range_out in Hst by exact Hout.
        apply IH in Hst. destruct Hst as [H|(j & s & He & Hj & Hs & Hu')];
          [left; exact H|].
        right. exists j, s. repeat split; try lia; assumption.
    + intros Hrhs.
      assert (Hcase : status_of hi l = RUN_OF_EIGHT_EXCEPTION \/
                      exists j, S i - 7 <= j <= S i /\ at_index data j = l).
      { destruct Hrhs as [H|(j & s & He & Hj & Hs & Hu')].
        - left. apply IH. left. exact H.
        - destruct (Nat.eq_dec (s + 7) (S i)) as [Hend|Hend].
          + right. exists j. split; [lia | exact He].
          + left. apply IH. right. exists j, s. repeat split; try lia; assumption. }
      destruct Hcase as [Hprev|(j & Hj & <-)].
      * destruct (writes_only_mark_range data (S i - 7) (S i)
                    RUN_OF_EIGHT_EXCEPTION hi l) as [H|H]; [exact H|].
        rewrite H. exact Hprev.
      * apply mark_range_in; [exact Hj|].
        rewrite (proj1 Hso). apply valid_refs_at; [exact Hv | lia].
  - assert (Hu : ~ uniform data avg h (S i - 7)).
    { intros Hu. apply Htest in Hu. congruence. }
    rewrite IH. split.
    + intros [H|(j & s & He & Hj & Hs & Hu')]; [left; exact H|].
      right. exists j, s. repeat split; try lia; assumption.
    + intros [H|(j & s & He & Hj & Hs & Hu')]; [left; exact H|].
      destruct (Nat.eq_dec (s + 7) (S i)) as [Hend|Hend].
      * exfalso. apply Hu. replace (S i - 7) with s by lia. exact Hu'.
      * right. exists j, s. repeat split; try lia; assumption.
Qed.

(** C1: [checkRunOfEight] does nothing to a series shorter than 8.
    Otherwise the first loop sets bit [k] of the mask for the points
    [k = 0..6] above the mean and clears nothing; from index 7 on, the mask
    after index [i] stays within eight bits and holds at bit [k mod 8] whether
    point [k] of [i-7..i] is strictly above the mean, so that it is all ones
    (255) exactly when the eight are above and zero exactly when none is; and
    when it is 0 or 255 the points [i-7..i] are given [RUN_OF_EIGHT_EXCEPTION],
    the store being left as it was otherwise. *)
Theorem checkRunOfEight_spec (data : list loc) (avg : Q) (h : heap) :
  valid_refs h data ->
  (length data < 8 -> checkRunOfEight data avg h = h) /\
  (8 <= length data ->
   checkRunOfEight data avg h = snd (run8_state data avg h (length data - 1)) /\
   (forall k : nat,
      Z.testbit (run8_prime data avg h) (Z.of_nat k)
      = (k <? 7) && above data avg h k) /\
   (forall i, 7 <= i < length data ->
      let m := fst (run8_state data avg h i) in
      let before := snd (run8_state data avg h (i - 1)) in
      let after := snd (run8_state data avg h i) in
      (0 <= m < 256)%Z /\
      (forall k, i - 7 <= k <= i ->
         Z.testbit m (Z.of_nat k mod 8) = above data avg h k) /\
      (m = 255%Z <-> forall k, i - 7 <= k <= i -> above data avg h k = true) /\
      (m = 0%Z <-> forall k, i - 7 <= k <= i -> above data avg h k = false) /\
      (m = 0%Z \/ m = 255%Z ->
       after = mark_range data (i - 7) i RUN_OF_EIGHT_EXCEPTION before /\
       forall j, i - 7 <= j <= i ->
         status_of after (at_index data j) = RUN_OF_EIGHT_EXCEPTION) /\
      (m <> 0%Z /\ m <> 255%Z -> after = before))).
Proof.
  intros Hv. split.
  { intros Hn. unfold checkRunOfEight.
    destruct (Nat.ltb_spec (length data) 8); [reflexivity | lia]. }
  intros Hn. split; [apply checkRunOfEight_state; exact Hn|].
  split.
  { intros k. rewrite run8_prime_unfold.
    apply (run8_prime_loop data avg h 7). lia. }
  intros i Hi m before after.
  destruct (run8_state_mask data avg h i ltac:(lia)) as (Hok & _ & Hbits).
  destruct (window_bits (above data avg h) m i ltac:(lia) Hok Hbits) as [Hfull Hnone].
  fold m in Hbits.
  assert (Hstep : after
            = if (m =? 0)%Z || (m =? 255)%Z
              then mark_range data (i - 7) i RUN_OF_EIGHT_EXCEPTION before
              else before).
  { subst after before m. destruct i as [|i]; [lia|].
    replace (S i - 1) with i by lia. apply run8_state_step. lia. }
  split; [exact Hok|]. split; [exact Hbits|].
  split; [exact Hfull|]. split; [exact Hnone|]. split.
  - intros Hm.
    assert (Hb : (m =? 0)%Z || (m =? 255)%Z = true).
    { destruct Hm as [->| ->]; reflexivity. }
    rewrite Hb in Hstep. split; [exact Hstep|].
    intros j Hj. rewrite Hstep. apply mark_range_in; [exact Hj|].
    destruct (run8_state_mask data avg h (i - 1) ltac:(lia)) as (_ & Hso & _).
    fold before in Hso. rewrite (proj1 Hso).
    apply valid_refs_at; [exact Hv | lia].
  - intros [H0 H255].
    apply Z.eqb_neq in H0, H255. rewrite H0, H255 in Hstep. exact Hstep.
Qed.

Lemma checkRunOfEight_status (data : list loc) (avg : Q) (h : heap) (l : loc) :
  8 <= length data -> valid_refs h data ->
  status_of (checkRunOfEight data avg h) l = RUN_OF_EIGHT_EXCEPTION
  <-> status_of h l = RUN_OF_EIGHT_EXCEPTION \/
      exists j s, at_index data j = l /\ s <= j < s + 8 /\ run_window data avg h s.
Proof.
  intros Hn Hv. rewrite checkRunOfEight_state by exact Hn.
  rewrite (run8_state_status data avg h (length data - 1) Hv) by lia.
  unfold in_window_upto, run_window.
  split; (intros [H|(j & s & He & Hj & Hs)]; [left; exact H|]);
    right; exists j, s.
  - destruct Hs as [Hs Hu]. repeat split; try lia; assumption.
  - destruct Hs as [Hs Hu]. repeat split; try lia; assumption.
Qed.

(** C10: on a series of at least 8 points, the mask algorithm and the
    declarative rule agree: an object ends with [RUN_OF_EIGHT_EXCEPTION]
    exactly when it had it already or sits at an index of a window of eight
    consecutive points all above the mean or all not above it, and any other
    object keeps its status.  For an array without repeated references and
    points not flagged beforehand this reads index by index.  In a uniform
    run of eight or more every point is marked, the ninth included. *)
Theorem run_of_eight_declarative (data : list loc) (avg : Q) (h : heap) :
  8 <= length data -> valid_refs h data ->
  let h' := checkRunOfEight data avg h in
  (forall l,
     status_of h' l = RUN_OF_EIGHT_EXCEPTION
     <-> status_of h l = RUN_OF_EIGHT_EXCEPTION \/
         exists j s, at_index data j = l /\ s <= j < s + 8 /\
                     run_window data avg h s) /\
  (forall l, status_of h' l <> RUN_OF_EIGHT_EXCEPTION ->
             status_of h' l = status_of h l) /\
  (NoDup data ->
   forall j, j < length data ->
     status_of h (at_index data j) <> RUN_OF_EIGHT_EXCEPTION ->
     (status_of h' (at_index data j) = RUN_OF_EIGHT_EXCEPTION
      <-> exists s, s <= j < s + 8 /\ run_window data avg h s)) /\
  (forall s e, s + 8 <= e -> e <= length data ->
     (forall k, s <= k < e -> above data avg h k = true) \/
     (forall k, s <= k < e -> above data avg h k = false) ->
     forall j, s <= j < e ->
       status_of h' (at_index data j) = RUN_OF_EIGHT_EXCEPTION).
Proof.
  intros Hn Hv h'. subst h'.
  split; [intros l; apply checkRunOfEight_status; assumption|].
  split.
  { intros l Hl.
    destruct (writes_only_checkRunOfEight data avg h l) as [H|H];
      [contradiction | exact H]. }
  split.
  { intros Hnd j Hj Hst. rewrite checkRunOfEight_status by assumption. split.
    - intros [H|(j' & s & He & Hj' & Hw)]; [contradiction|].
      assert (j' = j).
      { destruct Hw as [Hs _].
        apply (NoDup_lookup data j' j (at_index data j) Hnd).
        - rewrite <- He. unfold at_index. apply list_lookup_lookup_total_lt. lia.
        - unfold at_index. apply list_lookup_lookup_total_lt. exact Hj. }
      subst j'. exists s. split; assumption.
    - intros (s & Hs & Hw). right. exists j, s.
      split; [reflexivity|]. split; [exact Hs | exact Hw]. }
  intros s e Hse He Hall j Hj.
  apply checkRunOfEight_status; [exact Hn | exact Hv|]. right.
  exists j, (Nat.min j (e - 8)). split; [reflexivity|]. split; [lia|].
  split; [lia|].
  destruct Hall as [Hall|Hall]; [left|right]; intros k Hk; apply Hall; lia.
Qed.

(** ** Rule B: four near limit *)

(** With the markers in order the upper counter takes every point strictly
    above the upper marker. *)
Lemma near_upper_ordered (data : list loc) (lq uq : Q) (h : heap) (k : nat) :
  (lq <= uq)%Q ->
  near_upper data lq uq h k = Qgtb (value_of h (at_index data k)) uq.
Proof.
  intros Hord. unfold near_upper, Qgtb, Qltb.
  destruct (Qlt_le_dec (value_of h (at_index data k)) lq) as [H1|H1],
    (Qlt_le_dec uq (value_of h (at_index data k))) as [H2|H2];
    try reflexivity. lra.
Qed.

Lemma near_status_only (data : list loc) (lq uq : Q) (h h' : heap) (k : nat) :
  status_only h h' ->
  near_lower data lq h' k = near_lower data lq h k /\
  near_upper data lq uq h' k = near_upper data lq uq h k.
Proof.
  intros Hso. unfold near_lower, near_upper.
  rewrite (status_only_value h h' _ Hso). split; reflexivity.
Qed.

Lemma count_between_empty (f : nat -> bool) (a : nat) : count_between f a a = 0%Z.
Proof. unfold count_between. rewrite Nat.sub_diag. reflexivity. Qed.

Lemma count_between_right (f : nat -> bool) (a b : nat) :
  a <= b ->
  count_between f a (S b) = (count_between f a b + indicator (f b))%Z.
Proof.
  intros Hab. unfold count_between.
  replace (S b - a) with (S (b - a)) by lia.
  rewrite seq_S, List.filter_app, length_app.
  replace (a + (b - a)) with b by lia. simpl.
  destruct (f b); simpl; lia.
Qed.

Lemma count_between_left (f : nat -> bool) (a b : nat) :
  a < b ->
  count_between f a b = (indicator (f a) + count_between f (S a) b)%Z.
Proof.
  intros Hab. unfold count_between.
  replace (b - a) with (S (b - S a)) by lia. simpl.
  destruct (f a); simpl; lia.
Qed.

Lemma quartile_count_eq (data : list loc) (lq uq : Q) (h : heap) (delta : Z)
    (k : nat) (c : Z * Z) :
  quartile_count lq uq delta (value_of h (at_index data k)) c
  = ((fst c + delta * indicator (near_lower data lq h k))%Z,
     (snd c + delta * indicator (near_upper data lq uq h k))%Z).
Proof.
  destruct c as [b a]. unfold quartile_count, near_lower, near_upper. simpl.
  destruct (Qltb (value_of h (at_index data k)) lq); simpl.
  - f_equal; lia.
  - destruct (Qgtb (value_of h (at_index data k)) uq); simpl; f_equal; lia.
Qed.

Lemma four_prime_loop (data : list loc) (lq uq : Q) (h : heap) (j : nat) :
  for_loop 0 j
    (fun i c => quartile_count lq uq 1 (value_of h (at_index data i)) c)
    (0%Z, 0%Z)
  = window_counts data lq uq h 0 j.
Proof.
  induction j as [|j IH].
  - rewrite for_loop_ge by lia. unfold window_counts.
    rewrite !count_between_empty. reflexivity.
  - rewrite for_loop_S by lia. rewrite IH, quartile_count_eq.
    unfold window_counts. simpl fst. simpl snd.
    rewrite !count_between_right by lia. f_equal; lia.
Qed.

Lemma four_prime_counts (data : list loc) (lq uq : Q) (h : heap) :
  four_prime data lq uq h = window_counts data lq uq h 0 3.
Proof. apply four_prime_loop. Qed.

Lemma four_state_2 (data : list loc) (lq uq : Q) (h : heap) :
  four_state data lq uq h 2 = (four_prime data lq uq h, h).
Proof. unfold four_state. apply for_loop_ge. lia. Qed.

Lemma four_state_S (data : list loc) (lq uq : Q) (h : heap) (i : nat) :
  2 <= i ->
  four_state data lq uq h (S i)
  = four_body data lq uq (S i) (four_state data lq uq h i).
Proof.
  intros Hi. unfold four_state.
  replace (S i + 1) with (S (i + 1)) by lia.
  rewrite for_loop_S by lia.
  replace (i + 1) with (S i) by lia. reflexivity.
Qed.

Lemma window_counts_status_only (data : list loc) (lq uq : Q) (h h' : heap) (a b : nat) :
  status_only h h' ->
  window_counts data lq uq h' a b = window_counts data lq uq h a b.
Proof.
  intros Hso. unfold window_counts, count_between. f_equal; f_equal; f_equal;
    apply List.filter_ext; intros k; unfold near_lower, near_upper;
    rewrite (status_only_value h h' _ Hso); reflexivity.
Qed.

(** The state after index [i]: the counters cover the three points
    [i-2..i], the departing point having been taken out. *)
Lemma four_state_counts (data : list loc) (lq uq : Q) (h : heap) (i : nat) :
  2 <= i ->
  status_only h (snd (four_state data lq uq h i)) /\
  fst (four_state data lq uq h i) = window_counts data lq uq h (i - 2) (i + 1) /\
  (3 <= i ->
   four_added data lq uq i (four_state data lq uq h (i - 1))
   = window_counts data lq uq h (i - 3) (i + 1)).
Proof.
  intros Hi. induction i as [|i IH]; [lia|].
  destruct (Nat.eq_dec i 1) as [->|Hne].
  - rewrite four_state_2. simpl fst. simpl snd.
    split; [apply status_only_refl|]. split; [apply four_prime_counts | lia].
  - destruct (IH ltac:(lia)) as (Hso & Hc & _).
    replace (S i - 1) with i by lia.
    assert (Hadd : four_added data lq uq (S i) (four_state data lq uq h i)
                   = window_counts data lq uq h (S i - 3) (S i + 1)).
    { unfold four_added. destruct (four_state data lq uq h i) as [c hi].
      simpl fst in *. simpl snd in *.
      rewrite quartile_count_eq, Hc. unfold window_counts. simpl fst. simpl snd.
      replace (S i + 1) with (S (i + 1)) by lia.
      replace (S i - 3) with (i - 2) by lia.
      rewrite !count_between_right by lia.
      replace (i + 1) with (S i) by lia.
      unfold near_lower, near_upper.
      rewrite !(status_only_value h hi _ Hso). f_equal; lia. }
    rewrite four_state_S by lia. unfold four_body. rewrite Hadd.
    set (hi := snd (four_state data lq uq h i)) in *.
    set (h' := if (3 <=? fst (window_counts data lq uq h (S i - 3) (S i + 1)))%Z
                  || (3 <=? snd (window_counts data lq uq h (S i - 3) (S i + 1)))%Z
               then mark_range data (S i - 3) (S i) FOUR_NEAR_LIMIT_EXCEPTION hi
               else hi).
    assert (Hso' : status_only h h').
    { unfold h'. match goal with |- context [if ?c then _ else _] => destruct c end;
        [|exact Hso].
      eapply status_only_trans; [exact Hso | apply status_only_mark_range]. }
    cbn [fst snd]. split; [exact Hso'|]. split; [|intros _; reflexivity].
    rewrite quartile_count_eq. unfold window_counts. cbn [fst snd].
    rewrite (count_between_left (near_lower data lq h) (S i - 3)) by lia.
    rewrite (count_between_left (near_upper data lq uq h) (S i - 3)) by lia.
    replace (S (S i - 3)) with (S i - 2) by lia.
    destruct (near_status_only data lq uq h h' (S i - 3) Hso') as [-> ->].
    f_equal; lia.
Qed.

Lemma four_state_step (data : list loc) (lq uq : Q) (h : heap) (i : nat) :
  2 <= i ->
  let tested := four_added data lq uq (S i) (four_state data lq uq h i) in
  snd (four_state data lq uq h (S i))
  = if (3 <=? fst tested)%Z || (3 <=? snd tested)%Z
    then mark_range data (S i - 3) (S i) FOUR_NEAR_LIMIT_EXCEPTION
           (snd (four_state data lq uq h i))
    else snd (four_state data lq uq h i).
Proof. intros Hi. simpl. rewrite four_state_S by exact Hi. reflexivity. Qed.

Lemma checkFourNearLimit_state (data : list loc) (lq uq : Q) (h : heap) :
  4 <= length data ->
  checkFourNearLimit data lq uq h = snd (four_state data lq uq h (length data - 1)).
Proof.
  intros Hn. unfold checkFourNearLimit, four_state.
  destruct (Nat.ltb_spec (length data) 4) as [Hlt|_]; [lia|].
  replace (length data - 1 + 1) with (length data) by lia. reflexivity.
Qed.

(** C2: [checkFourNearLimit] does nothing to a series shorter than 4.
    Otherwise its two counters count the points strictly below the lower
    marker and (the markers being in order) strictly above the upper one:
    after the indices 0..2 they cover these three points, nothing having
    been subtracted; at index [i >= 3] the incoming point is added first, so
    that the test sees the four points [i-3..i]; if a counter is then at
    least 3 the points [i-3..i] are given [FOUR_NEAR_LIMIT_EXCEPTION]; only
    afterwards is the point [i-3] taken out, which leaves the counters over
    [i-2..i]. *)
Theorem checkFourNearLimit_spec (data : list loc) (lq uq : Q) (h : heap) :
  valid_refs h data ->
  (length data < 4 -> checkFourNearLimit data lq uq h = h) /\
  (forall k, (lq <= uq)%Q ->
     near_upper data lq uq h k = Qgtb (value_of h (at_index data k)) uq) /\
  (4 <= length data ->
   checkFourNearLimit data lq uq h
   = snd (four_state data lq uq h (length data - 1)) /\
   four_prime data lq uq h = window_counts data lq uq h 0 3 /\
   (forall i, 3 <= i < length data ->
      let before := four_state data lq uq h (i - 1) in
      let tested := four_added data lq uq i before in
      let after := four_state data lq uq h i in
      tested = window_counts data lq uq h (i - 3) (i + 1) /\
      ((3 <= fst tested)%Z \/ (3 <= snd tested)%Z ->
       snd after
       = mark_range data (i - 3) i FOUR_NEAR_LIMIT_EXCEPTION (snd before) /\
       forall j, i - 3 <= j <= i ->
         status_of (snd after) (at_index data j) = FOUR_NEAR_LIMIT_EXCEPTION) /\
      ((fst tested < 3)%Z /\ (snd tested < 3)%Z -> snd after = snd before) /\
      fst after = window_counts data lq uq h (i - 2) (i + 1))).
Proof.
  intros Hv. split.
  { intros Hn. unfold checkFourNearLimit.
    destruct (Nat.ltb_spec (length data) 4); [reflexivity | lia]. }
  split; [intros k; apply near_upper_ordered|].
  intros Hn. split; [apply checkFourNearLimit_state; exact Hn|].
  split; [apply four_prime_counts|].
  intros i Hi before tested after.
  destruct (four_state_counts data lq uq h i ltac:(lia)) as (_ & Hafter & Htested).
  specialize (Htested ltac:(lia)). fold before in Htested. fold tested in Htested.
  fold after in Hafter.
  assert (Hstep : snd after
            = if (3 <=? fst tested)%Z || (3 <=? snd tested)%Z
              then mark_range data (i - 3) i FOUR_NEAR_LIMIT_EXCEPTION (snd before)
              else snd before).
  { subst after tested before. destruct i as [|i]; [lia|].
    replace (S i - 1) with i by lia. apply four_state_step. lia. }
  split; [exact Htested|]. split; [|split; [|exact Hafter]].
  - intros Hm.
    assert (Hb : (3 <=? fst tested)%Z || (3 <=? snd tested)%Z = true).
    { apply orb_true_iff. rewrite !Z.leb_le. exact Hm. }
    rewrite Hb in Hstep. split; [exact Hstep|].
    intros j Hj. rewrite Hstep. apply mark_range_in; [exact Hj|].
    destruct (four_state_counts data lq uq h (i - 1) ltac:(lia)) as (Hso & _).
    fold before in Hso. rewrite (proj1 Hso).
    apply valid_refs_at; [exact Hv | lia].
  - intros [Hlo Hup].
    assert (Hb : (3 <=? fst tested)%Z || (3 <=? snd tested)%Z = false).
    { apply orb_false_iff. rewrite !Z.leb_gt. split; assumption. }
    rewrite Hb in Hstep. exact Hstep.
Qed.

(** ** The aggregator *)

Lemma status_only_values_pass (tableData : list loc) (lim : Limits) (h : heap) :
  status_only h (values_pass tableData lim h).
Proof.
  unfold values_pass.
  eapply status_only_trans; [apply status_only_reset_status|].
  eapply status_only_trans; [apply status_only_checkRunOfEight|].
  eapply status_only_trans; [apply status_only_checkFourNearLimit|].
  apply status_only_checkOutsideLimit.
Qed.

Lemma status_only_movements_pass (movements : list loc) (lim : Limits) (h : heap) :
  status_only h (movements_pass movements lim h).
Proof.
  unfold movements_pass.
  eapply status_only_trans; [apply status_only_reset_status|].
  apply status_only_checkOutsideLimit.
Qed.

(** After the three rules a point of the array is flagged [NPL_EXCEPTION]
    exactly when its value is beyond a limit. *)
Lemma values_pass_status (tableData : list loc) (lim : Limits) (h : heap) (l : loc) :
  In l tableData -> l < length h ->
  (outside (LNPL lim) (UNPL lim) (value_of h l) = true ->
   status_of (values_pass tableData lim h) l = NPL_EXCEPTION) /\
  (outside (LNPL lim) (UNPL lim) (value_of h l) = false ->
   status_of (values_pass tableData lim h) l <> NPL_EXCEPTION).
Proof.
  intros Hin Hl. unfold values_pass.
  set (h2 := reset_status tableData h).
  set (h3 := checkRunOfEight tableData (avgX lim) h2).
  set (h4 := checkFourNearLimit tableData (lowerQuartile lim) (upperQuartile lim) h3).
  assert (H2 : status_only h h2) by apply status_only_reset_status.
  assert (H3 : status_only h2 h3) by apply status_only_checkRunOfEight.
  assert (H4 : status_only h3 h4) by apply status_only_checkFourNearLimit.
  assert (Hso : status_only h h4).
  { eapply status_only_trans; [exact H2|].
    eapply status_only_trans; [exact H3 | exact H4]. }
  split; intros Hout.
  - apply checkOutsideLimit_flags; [exact Hin | rewrite (proj1 Hso); exact Hl|].
    rewrite (status_only_value _ _ l Hso). exact Hout.
  - rewrite checkOutsideLimit_keeps
      by (right; rewrite (status_only_value _ _ l Hso); exact Hout).
    assert (Hn : status_of h2 l = NORMAL) by (apply reset_status_In; assumption).
    destruct (writes_only_checkFourNearLimit tableData (lowerQuartile lim)
                (upperQuartile lim) h3 l) as [E4|E4]; fold h4 in E4;
      [rewrite E4; discriminate|].
    destruct (writes_only_checkRunOfEight tableData (avgX lim) h2 l) as [E3|E3];
      fold h3 in E3; rewrite E4, E3; [discriminate|].
    rewrite Hn. discriminate.
Qed.

(** The pass over the movements leaves the older objects as they were. *)
Lemma movements_pass_old (movements : list loc) (lim : Limits) (h : heap) (l : loc) :
  ~ In l movements -> deref (movements_pass movements lim h) l = deref h l.
Proof.
  intros Hl. unfold movements_pass.
  rewrite <- (reset_status_other movements h l Hl).
  set (h1 := reset_status movements h).
  pose proof (checkOutsideLimit_keeps movements 0 (URL lim) h1 l (or_introl Hl)) as Hst.
  destruct (status_only_checkOutsideLimit movements 0 (URL lim) h1) as [_ Hf].
  destruct (Hf l) as (Ho & Hx & Hv). unfold status_of in Hst.
  destruct (deref (checkOutsideLimit movements 0 (URL lim) h1) l),
    (deref h1 l). simpl in *. congruence.
Qed.

Section EngineProofs.

Variable fromDateStr : string -> Z.

Lemma date_leb_key (h : heap) (a b : loc) :
  (date_of fromDateStr h a - date_of fromDateStr h b <=? 0)%Z = true
  <-> (date_of fromDateStr h a <= date_of fromDateStr h b)%Z.
Proof. rewrite Z.leb_le. lia. Qed.

Lemma sortDataValues_perm (dv : list loc) (h : heap) :
  Permutation (sortDataValues fromDateStr dv h) dv.
Proof. apply Array_sort_perm. Qed.

Lemma sortDataValues_In (dv : list loc) (h : heap) (l : loc) :
  In l (sortDataValues fromDateStr dv h) <-> In l dv.
Proof.
  split; apply Permutation_in; [|symmetry]; apply sortDataValues_perm.
Qed.

Lemma tableData_In (data : list loc) (h : heap) (l : loc) :
  In l (tableData_of fromDateStr data h) <-> In l data /\ keeps (deref h l) = true.
Proof. unfold tableData_of. rewrite sortDataValues_In. apply removeAllNulls_In. Qed.

Lemma tableData_valid (data : list loc) (h : heap) :
  valid_refs h data -> valid_refs h (tableData_of fromDateStr data h).
Proof.
  unfold valid_refs. rewrite !Forall_forall. intros Hv l Hl.
  apply list_elem_of_In, tableData_In in Hl. apply Hv, list_elem_of_In, Hl.
Qed.

Lemma computeXmrStats_empty (data : list loc) (h : heap) :
  tableData_of fromDateStr data h = [] ->
  computeXmrStats fromDateStr data h = (empty_stats, h).
Proof.
  intros He. unfold computeXmrStats. fold (tableData_of fromDateStr data h). rewrite He.
  reflexivity.
Qed.

Lemma computeXmrStats_nonempty (data : list loc) (h : heap) :
  tableData_of fromDateStr data h <> [] ->
  let tableData := tableData_of fromDateStr data h in
  let lim := fst (calculateLimits tableData h) in
  let h5 := values_pass tableData lim (snd (calculateLimits tableData h)) in
  let movements := fst (getMovements tableData h5) in
  snd (computeXmrStats fromDateStr data h)
  = movements_pass movements lim (snd (getMovements tableData h5)) /\
  lineValues (fst (computeXmrStats fromDateStr data h))
  = [mkLineValue (fst (findExtremesX fromDateStr tableData h))
                 (snd (findExtremesX fromDateStr tableData h)) lim] /\
  xdataPerRange (fst (computeXmrStats fromDateStr data h)) = [tableData] /\
  movementsPerRange (fst (computeXmrStats fromDateStr data h)) = [movements].
Proof.
  intros Hne tableData lim h5 movements.
  unfold computeXmrStats. fold (tableData_of fromDateStr data h). fold tableData.
  destruct (findExtremesX fromDateStr tableData h) as [xmin xmax].
  destruct (Nat.eqb_spec (length tableData) 0) as [Hz|Hz].
  { apply length_zero_iff_nil in Hz. exact (False_ind _ (Hne Hz)). }
  subst lim h5 movements.
  destruct (calculateLimits tableData h) as [lim h1]. simpl fst. simpl snd.
  fold (values_pass tableData lim h1).
  destruct (getMovements tableData (values_pass tableData lim h1)) as [movements h6].
  simpl fst. simpl snd. fold (movements_pass movements lim h6).
  split; [reflexivity|].
  match goal with
  | |- context [forEach movements ?f (forEach ?arr ?g ?s0)] =>
      assert (Hl : same_lists s0 (forEach movements f (forEach arr g s0)))
  end.
  { apply forEach_invariant.
    - apply forEach_invariant; [repeat split|].
      intros a s' _ (H1 & H2 & H3).
      repeat match goal with |- context [if ?c then _ else _] => destruct c end;
        repeat split; assumption.
    - intros a s' _ (H1 & H2 & H3).
      match goal with |- context [if ?c then _ else _] => destruct c end;
        repeat split; assumption. }
  destruct Hl as (H1 & H2 & H3). rewrite H1, H2, H3. repeat split.
Qed.

Lemma calculateLimits_extends (xdata : list loc) (h : heap) :
  extends h (snd (calculateLimits xdata h)).
Proof. rewrite calculateLimits_heap. apply getMovements_extends. Qed.

(** The status and the value of an object of the caller at the end of
    [computeXmrStats], read off the pass over the values. *)
Lemma computeXmrStats_old (data : list loc) (h : heap) (l : loc) :
  tableData_of fromDateStr data h <> [] -> l < length h ->
  let tableData := tableData_of fromDateStr data h in
  let h1 := snd (calculateLimits tableData h) in
  let lim := fst (calculateLimits tableData h) in
  deref (snd (computeXmrStats fromDateStr data h)) l
  = deref (values_pass tableData lim h1) l /\
  deref h1 l = deref h l /\ l < length h1.
Proof.
  intros Hne Hl tableData h1 lim.
  destruct (computeXmrStats_nonempty data h Hne) as (Hh & _).
  fold tableData h1 lim in Hh. rewrite Hh. clear Hh.
  pose proof (calculateLimits_extends tableData h) as Hext. fold h1 in Hext.
  assert (Hl1 : l < length h1) by (apply extends_length in Hext; lia).
  set (h5 := values_pass tableData lim h1).
  assert (Hl5 : l < length h5).
  { unfold h5. rewrite (proj1 (status_only_values_pass tableData lim h1)). exact Hl1. }
  split; [|split; [apply extends_old; assumption | exact Hl1]].
  rewrite movements_pass_old.
  - apply extends_old; [apply getMovements_extends | exact Hl5].
  - intros Hin. apply getMovements_fresh in Hin. lia.
Qed.

(** C8: when no row survives the cleaning, [computeXmrStats] returns the
    three lists empty and the bounds at their sentinels, with no line of
    limits, and writes nothing. *)
Theorem computeXmrStats_empty_series (data : list loc) (h : heap) :
  removeAllNulls data h = [] ->
  let stats := fst (computeXmrStats fromDateStr data h) in
  lineValues stats = [] /\ xdataPerRange stats = [] /\ movementsPerRange stats = [] /\
  xchartMin stats = PosInfinity /\ xchartMax stats = NegInfinity /\
  mrchartMax stats = NegInfinity /\
  snd (computeXmrStats fromDateStr data h) = h.
Proof.
  intros He stats. subst stats.
  rewrite computeXmrStats_empty by (unfold tableData_of; rewrite He; reflexivity).
  repeat split.
Qed.

(** C9: [computeXmrStats] leaves [order], [x] and [value] of every object
    the caller holds; it writes [status] only.  The rows of the result are
    objects of the caller's array, not copies, so these writes are seen
    through the caller's array. *)
Theorem computeXmrStats_frame (data : list loc) (h : heap) :
  let stats := fst (computeXmrStats fromDateStr data h) in
  let h' := snd (computeXmrStats fromDateStr data h) in
  (forall l, l < length h ->
     order (deref h' l) = order (deref h l) /\
     x (deref h' l) = x (deref h l) /\
     value (deref h' l) = value (deref h l)) /\
  (forall tableData p,
     In tableData (xdataPerRange stats) -> In p tableData -> In p data).
Proof.
  intros stats h'. subst stats h'.
  destruct (tableData_of fromDateStr data h) as [|a td] eqn:Htd.
  - rewrite computeXmrStats_empty by exact Htd. split; [repeat split|].
    intros tableData p [].
  - assert (Hne : tableData_of fromDateStr data h <> []) by (rewrite Htd; discriminate).
    split.
    + intros l Hl.
      destruct (computeXmrStats_old data h l Hne Hl) as (Hd & Hd1 & _).
      rewrite Hd, <- Hd1.
      destruct (status_only_values_pass (tableData_of fromDateStr data h)
                  (fst (calculateLimits (tableData_of fromDateStr data h) h))
                  (snd (calculateLimits (tableData_of fromDateStr data h) h)))
        as [_ Hf].
      destruct (Hf l) as (Ho & Hx & Hv). repeat split; congruence.
    + intros tableData p Hin Hp.
      destruct (computeXmrStats_nonempty data h Hne) as (_ & _ & Hx & _).
      rewrite Hx in Hin. destruct Hin as [<-|[]].
      apply tableData_In in Hp. apply Hp.
Qed.


End EngineProofs.

(** ** Examples *)

Lemma computeXmrStats_empty_series_witness :
  removeAllNulls unusable_refs unusable_rows = [] /\
  lineValues (fst (computeXmrStats iso_date_number unusable_refs unusable_rows)) = [].
Proof.
  assert (He : removeAllNulls unusable_refs unusable_rows = []) by reflexivity.
  split; [exact He|].
  exact (proj1 (computeXmrStats_empty_series iso_date_number unusable_refs
                  unusable_rows He)).
Defined.

Lemma computeXmrStats_frame_witness :
  0 < length mixed_rows /\
  value (deref (snd (computeXmrStats iso_date_number mixed_refs mixed_rows)) 0)
  = value (deref mixed_rows 0).
Proof.
  assert (Hl : 0 < length mixed_rows) by (simpl; lia).
  split; [exact Hl|].
  exact (proj2 (proj2 (proj1 (computeXmrStats_frame iso_date_number mixed_refs
                                mixed_rows) 0 Hl))).
Defined.


Lemma nine_refs_valid : valid_refs nine_rows nine_refs.
Proof.
  unfold valid_refs. apply Forall_forall. intros l Hl.
  apply list_elem_of_In, in_seq in Hl. simpl. lia.
Qed.

Lemma checkRunOfEight_spec_witness :
  valid_refs nine_rows nine_refs /\ 8 <= length nine_refs /\
  fst (run8_state nine_refs 10 nine_rows 8) = 0%Z /\
  forall j, 8 - 7 <= j <= 8 ->
    status_of (snd (run8_state nine_refs 10 nine_rows 8)) (at_index nine_refs j)
    = RUN_OF_EIGHT_EXCEPTION.
Proof.
  assert (Hn : 8 <= length nine_refs) by (simpl; lia).
  assert (Hi : 7 <= 8 < length nine_refs) by (simpl; lia).
  assert (Hm : fst (run8_state nine_refs 10 nine_rows 8) = 0%Z)
    by (vm_compute; reflexivity).
  split; [exact nine_refs_valid|]. split; [exact Hn|]. split; [exact Hm|].
  destruct (checkRunOfEight_spec nine_refs 10 nine_rows nine_refs_valid)
    as [_ Hlong].
  destruct (Hlong Hn) as (_ & _ & Hloop).
  destruct (Hloop 8 Hi) as (_ & _ & _ & _ & Hmark & _).
  exact (proj2 (Hmark (or_introl Hm))).
Defined.

Lemma run_of_eight_declarative_witness :
  8 <= length nine_refs /\ valid_refs nine_rows nine_refs /\
  forall j, 0 <= j < 9 ->
    status_of (checkRunOfEight nine_refs 10 nine_rows) (at_index nine_refs j)
    = RUN_OF_EIGHT_EXCEPTION.
Proof.
  assert (Hn : 8 <= length nine_refs) by (simpl; lia).
  split; [exact Hn|]. split; [exact nine_refs_valid|].
  destruct (run_of_eight_declarative nine_refs 10 nine_rows Hn nine_refs_valid)
    as (_ & _ & _ & Hrun).
  apply (Hrun 0 9); [lia | simpl; lia|].
  right. intros k Hk.
  assert (Hc : k = 0 \/ k = 1 \/ k = 2 \/ k = 3 \/ k = 4 \/ k = 5 \/ k = 6
               \/ k = 7 \/ k = 8) by lia.
  repeat (destruct Hc as [->|Hc]; [vm_compute; reflexivity|]).
  subst k. vm_compute. reflexivity.
Defined.

Lemma five_refs_valid : valid_refs five_rows five_refs.
Proof.
  unfold valid_refs. apply Forall_forall. intros l Hl.
  apply list_elem_of_In, in_seq in Hl. simpl. lia.
Qed.

Lemma checkFourNearLimit_spec_witness :
  valid_refs five_rows five_refs /\ 4 <= length five_refs /\
  four_added five_refs 3 8 3 (four_state five_refs 3 8 five_rows 2) = (0%Z, 3%Z) /\
  forall j, 3 - 3 <= j <= 3 ->
    status_of (snd (four_state five_refs 3 8 five_rows 3)) (at_index five_refs j)
    = FOUR_NEAR_LIMIT_EXCEPTION.
Proof.
  assert (Hn : 4 <= length five_refs) by (simpl; lia).
  assert (Hi : 3 <= 3 < length five_refs) by (simpl; lia).
  assert (Ht : four_added five_refs 3 8 3 (four_state five_refs 3 8 five_rows 2)
               = (0%Z, 3%Z)) by (vm_compute; reflexivity).
  split; [exact five_refs_valid|]. split; [exact Hn|]. split; [exact Ht|].
  destruct (checkFourNearLimit_spec five_refs 3 8 five_rows five_refs_valid)
    as (_ & _ & Hlong).
  destruct (Hlong Hn) as (_ & _ & Hloop).
  destruct (Hloop 3 Hi) as (_ & Hmark & _).
  apply Hmark. right. change (3 - 1) with 2. rewrite Ht. simpl. lia.
Defined.

(** The nine constant days, end to end: the limits collapse on [10], no point
    is above the mean, and the nine points end flagged as a run. *)
Example nine_constant_days :
  map (status_of (snd (computeXmrStats iso_date_number nine_refs nine_rows))) nine_refs
  = repeat RUN_OF_EIGHT_EXCEPTION 9.
Proof. vm_compute. reflexivity. Qed.

(** The sixteen days, end to end: the first eight points lie below the lower
    limit and the last one above the upper limit; the seven in between, part
    of a run of eight, lie above the upper quarter marker and end with the
    flag of the rule that ran later. *)
Example sixteen_days_statuses :
  map (fun l => status_code (status_of (snd sixteen_result) l)) sixteen_refs
  = [3; 3; 3; 3; 3; 3; 3; 3; 2; 2; 2; 2; 2; 2; 2; 3]%Z.
Proof. vm_compute. reflexivity. Qed.

(** * Further properties *)

(** ** Objects outside the array *)

Lemma at_index_In (data : list loc) (j : nat) :
  j < length data -> In (at_index data j) data.
Proof.
  intros Hj. apply list_elem_of_In. unfold at_index.
  apply list_elem_of_lookup_total_2. exact Hj.
Qed.

Lemma mark_range_other (data : list loc) (a b : nat) (s : DataStatus) (h : heap) (l : loc) :
  b < length data -> ~ In l data -> deref (mark_range data a b s h) l = deref h l.
Proof.
  intros Hb Hl. apply mark_range_out. intros j Hj He. apply Hl.
  rewrite <- He. apply at_index_In. lia.
Qed.

Lemma checkRunOfEight_other (data : list loc) (avg : Q) (h : heap) (l : loc) :
  ~ In l data -> deref (checkRunOfEight data avg h) l = deref h l.
Proof.
  intros Hl. unfold checkRunOfEight. destruct (length data <? 8); [reflexivity|].
  apply for_loop_invariant with (P := fun st => deref (snd st) l = deref h l).
  - reflexivity.
  - intros i [m h'] Hi Hh'. rewrite run8_body_eq. cbn [snd] in *.
    match goal with |- context [if ?c then _ else _] => destruct c end;
      [|exact Hh'].
    rewrite mark_range_other by (try exact Hl; lia). exact Hh'.
Qed.

Lemma checkFourNearLimit_other (data : list loc) (lq uq : Q) (h : heap) (l : loc) :
  ~ In l data -> deref (checkFourNearLimit data lq uq h) l = deref h l.
Proof.
  intros Hl. unfold checkFourNearLimit. destruct (length data <? 4); [reflexivity|].
  apply for_loop_invariant with (P := fun st => deref (snd st) l = deref h l).
  - reflexivity.
  - intros i [c h'] Hi Hh'. unfold four_body. cbn [snd] in *.
    match goal with |- context [if ?c then _ else _] => destruct c end;
      [|exact Hh'].
    rewrite mark_range_other by (try exact Hl; lia). exact Hh'.
Qed.

Lemma checkOutsideLimit_other (data : list loc) (lo hi : Q) (h : heap) (l : loc) :
  ~ In l data -> deref (checkOutsideLimit data lo hi h) l = deref h l.
Proof.
  intros Hl. rewrite checkOutsideLimit_fold.
  apply forEach_invariant with (P := fun h' => deref h' l = deref h l).
  - reflexivity.
  - intros a h' Ha Hh'. unfold outside_step.
    destruct (outside lo hi (value_of h' a)); [|exact Hh'].
    rewrite deref_set_status_ne; [exact Hh'|]. intros ->. contradiction.
Qed.

(** X1: none of the three rules, nor the reset, touches an object that the
    array it is given does not hold. *)
Theorem rules_leave_other_objects (data : list loc) (avg lo hi : Q) (h : heap) (l : loc) :
  ~ In l data ->
  deref (reset_status data h) l = deref h l /\
  deref (checkRunOfEight data avg h) l = deref h l /\
  deref (checkFourNearLimit data lo hi h) l = deref h l /\
  deref (checkOutsideLimit data lo hi h) l = deref h l.
Proof.
  intros Hl. split; [apply reset_status_other, Hl|].
  split; [apply checkRunOfEight_other, Hl|].
  split; [apply checkFourNearLimit_other, Hl | apply checkOutsideLimit_other, Hl].
Qed.

(** ** Copies *)

Lemma DataValue_eta (d : DataValue) :
  mkDataValue (order d) (x d) (value d) (status d) = d.
Proof. destruct d. reflexivity. Qed.

Lemma deepClone_loop (src : list loc) (h ext : heap) (out : list loc) :
  valid_refs h src ->
  fold_left
    (fun (st : list loc * heap) el =>
       let '(out, h1) := st in
       let d := deref h1 el in
       let '(l, h2) := alloc (mkDataValue (order d) (x d) (value d) (status d)) h1 in
       (out ++ [l], h2))
    src (out, h ++ ext)
  = (out ++ seq (length h + length ext) (length src),
     h ++ ext ++ map (deref h) src).
Proof.
  revert ext out. induction src as [|el src IH]; intros ext out Hv.
  - simpl. rewrite !app_nil_r. reflexivity.
  - apply Forall_cons in Hv. destruct Hv as [Hel Hv].
    cbn [fold_left]. unfold alloc at 2.
    rewrite DataValue_eta, deref_app_old by exact Hel.
    rewrite <- (app_assoc h ext). rewrite IH by exact Hv.
    rewrite length_app. cbn [length map seq].
    rewrite <- !app_assoc. cbn [app].
    replace (length h + length (ext ++ [deref h el]))
      with (S (length h + length ext)) by (rewrite length_app; cbn [length]; lia).
    reflexivity.
Qed.

Lemma deepClone_eq (src : list loc) (h : heap) :
  valid_refs h src ->
  deepClone src h = (seq (length h) (length src), h ++ map (deref h) src).
Proof.
  intros Hv. unfold deepClone, forEach.
  pose proof (deepClone_loop src h [] [] Hv) as H.
  rewrite app_nil_r in H. cbn [app length] in H.
  rewrite Nat.add_0_r in H. exact H.
Qed.

(** X2: [deepClone] returns as many references as it is given, all of them
    new and distinct; the object at position [i] of the copy has the four
    fields of the object at position [i] of the source, [status] included;
    nothing that existed is written. *)
Theorem deepClone_spec (src : list loc) (h : heap) :
  valid_refs h src ->
  let copy := fst (deepClone src h) in
  let h' := snd (deepClone src h) in
  length copy = length src /\
  NoDup copy /\
  (forall i, i < length src ->
     length h <= at_index copy i /\
     deref h' (at_index copy i) = deref h (at_index src i)) /\
  (forall l, l < length h -> deref h' l = deref h l) /\
  valid_refs h' copy.
Proof.
  intros Hv copy h'. subst copy h'. rewrite deepClone_eq by exact Hv.
  cbn [fst snd]. split; [apply length_seq|].
  split; [apply NoDup_ListNoDup, seq_NoDup|].
  split; [|split].
  - intros i Hi. unfold at_index. rewrite lookup_total_seq_lt by exact Hi.
    split; [lia|]. unfold deref. rewrite lookup_total_app_r by lia.
    replace (length h + i - length h) with i by lia.
    rewrite (list_lookup_total_fmap (fun l => h !!! l)) by exact Hi. reflexivity.
  - intros l Hl. apply deref_app_old. exact Hl.
  - unfold valid_refs. apply Forall_forall. intros l Hl.
    apply list_elem_of_In, in_seq in Hl. rewrite length_app, length_map. lia.
Qed.

(** ** Rule B, read declaratively *)

Lemma four_test_hot (data : list loc) (lq uq : Q) (h : heap) (i : nat) :
  3 <= i ->
  let tested := four_added data lq uq i (four_state data lq uq h (i - 1)) in
  (3 <=? fst tested)%Z || (3 <=? snd tested)%Z = true <-> hot data lq uq h (i - 3).
Proof.
  intros Hi tested. subst tested.
  destruct (four_state_counts data lq uq h i ltac:(lia)) as (_ & _ & Ht).
  rewrite (Ht Hi). unfold window_counts, hot. cbn [fst snd].
  replace (i - 3 + 4) with (i + 1) by lia.
  rewrite orb_true_iff, !Z.leb_le. reflexivity.
Qed.

Lemma four_state_status (data : list loc) (lq uq : Q) (h : heap) (i : nat) :
  valid_refs h data -> 2 <= i < length data ->
  forall l,
    status_of (snd (four_state data lq uq h i)) l = FOUR_NEAR_LIMIT_EXCEPTION
    <-> status_of h l = FOUR_NEAR_LIMIT_EXCEPTION \/
        exists j s, at_index data j = l /\ s <= j < s + 4 /\ s + 3 <= i /\
                    hot data lq uq h s.
Proof.
  intros Hv Hi. induction i as [|i IH]; [lia|].
  destruct (Nat.eq_dec i 1) as [->|Hne].
  { intros l. rewrite four_state_2. simpl snd. split; [intros H; left; exact H|].
    intros [H|(j & s & _ & _ & Hs & _)]; [exact H | lia]. }
  specialize (IH ltac:(lia)). intros l.
  rewrite four_state_step by lia.
  pose proof (four_test_hot data lq uq h (S i) ltac:(lia)) as Htest.
  replace (S i - 1) with i in Htest by lia. cbv zeta in Htest.
  destruct (four_state_counts data lq uq h i ltac:(lia)) as (Hso & _).
  set (hi := snd (four_state data lq uq h i)) in *.
  set (tested := four_added data lq uq (S i) (four_state data lq uq h i)) in *.
  cbv zeta.
  destruct ((3 <=? fst tested)%Z || (3 <=? snd tested)%Z) eqn:Hm.
  - assert (Hu : hot data lq uq h (S i - 3)) by (apply Htest; reflexivity).
    split.
    + intros Hst.
      destruct (occurs_between_dec data (S i - 3) (S i) l) as [(j & Hj & He)|Hout].
      * right. exists j, (S i - 3). repeat split; try lia; assumption.
      * unfold status_of in Hst. rewrite mark_range_out in Hst by exact Hout.
        apply IH in Hst. destruct Hst as [H|(j & s & He & Hj & Hs & Hu')];
          [left; exact H|].
        right. exists j, s. repeat split; try lia; assumption.
    + intros Hrhs.
      assert (Hcase : status_of hi l = FOUR_NEAR_LIMIT_EXCEPTION \/
                      exists j, S i - 3 <= j <= S i /\ at_index data j = l).
      { destruct Hrhs as [H|(j & s & He & Hj & Hs & Hu')].
        - left. apply IH. left. exact H.
        - destruct (Nat.eq_dec (s + 3) (S i)) as [Hend|Hend].
          + right. exists j. split; [lia | exact He].
          + left. apply IH. right. exists j, s. repeat split; try lia; assumption. }
      destruct Hcase as [Hprev|(j & Hj & <-)].
      * destruct (writes_only_mark_range data (S i - 3) (S i)
                    FOUR_NEAR_LIMIT_EXCEPTION hi l) as [H|H]; [exact H|].
        rewrite H. exact Hprev.
      * apply mark_range_in; [exact Hj|].
        rewrite (proj1 Hso). apply valid_refs_at; [exact Hv | lia].
  - assert (Hu : ~ hot data lq uq h (S i - 3)).
    { intros Hu. apply Htest in Hu. congruence. }
    rewrite IH. split.
    + intros [H|(j & s & He & Hj & Hs & Hu')]; [left; exact H|].
      right. exists j, s. repeat split; try lia; assumption.
    + intros [H|(j & s & He & Hj & Hs & Hu')]; [left; exact H|].
      destruct (Nat.eq_dec (s + 3) (S i)) as [Hend|Hend].
      * exfalso. apply Hu. replace (S i - 3) with s by lia. exact Hu'.
      * right. exists j, s. repeat split; try lia; assumption.
Qed.

Lemma checkFourNearLimit_status (data : list loc) (lq uq : Q) (h : heap) (l : loc) :
  valid_refs h data ->
  status_of (checkFourNearLimit data lq uq h) l = FOUR_NEAR_LIMIT_EXCEPTION
  <-> status_of h l = FOUR_NEAR_LIMIT_EXCEPTION \/ in_near_window data lq uq h l.
Proof.
  intros Hv. unfold in_near_window, near_window.
  destruct (Nat.lt_ge_cases (length data) 4) as [Hshort|Hn].
  - unfold checkFourNearLimit.
    destruct (Nat.ltb_spec (length data) 4) as [_|Hge]; [|lia].
    split; [intros H; left; exact H|].
    intros [H|(j & s & _ & _ & Hs & _)]; [exact H | lia].
  - rewrite checkFourNearLimit_state by exact Hn.
    rewrite (four_state_status data lq uq h (length data - 1) Hv) by lia.
    split; (intros [H|(j & s & He & Hj & Hs)]; [left; exact H|]);
      right; exists j, s.
    + destruct Hs as [Hs Hu]. repeat split; try lia; assumption.
    + destruct Hs as [Hs Hu]. repeat split; try lia; assumption.
Qed.

Lemma checkRunOfEight_status_any (data : list loc) (avg : Q) (h : heap) (l : loc) :
  valid_refs h data ->
  status_of (checkRunOfEight data avg h) l = RUN_OF_EIGHT_EXCEPTION
  <-> status_of h l = RUN_OF_EIGHT_EXCEPTION \/ in_run_window data avg h l.
Proof.
  intros Hv. unfold in_run_window.
  destruct (Nat.lt_ge_cases (length data) 8) as [Hshort|Hn].
  - unfold checkRunOfEight.
    destruct (Nat.ltb_spec (length data) 8) as [_|Hge]; [|lia].
    split; [intros H; left; exact H|].
    intros [H|(j & s & _ & _ & Hs & _)]; [exact H | unfold run_window in Hs; lia].
  - apply checkRunOfEight_status; assumption.
Qed.

(** X3: Rule B read declaratively.  After [checkFourNearLimit] an object
    has [FOUR_NEAR_LIMIT_EXCEPTION] exactly when it had it already or sits at
    an index of a window of four consecutive points of which at least three
    are strictly below the lower marker, or at least three count as above
    the upper one; every other object keeps its status.  In particular the
    fourth point of such a window is flagged even when it is itself not near
    a limit. *)
Theorem four_near_limit_declarative (data : list loc) (lq uq : Q) (h : heap) :
  valid_refs h data ->
  let h' := checkFourNearLimit data lq uq h in
  (forall l,
     status_of h' l = FOUR_NEAR_LIMIT_EXCEPTION
     <-> status_of h l = FOUR_NEAR_LIMIT_EXCEPTION \/
         exists j s, at_index data j = l /\ s <= j < s + 4 /\
                     near_window data lq uq h s) /\
  (forall l, status_of h' l <> FOUR_NEAR_LIMIT_EXCEPTION ->
             status_of h' l = status_of h l).
Proof.
  intros Hv h'. subst h'. split.
  - intros l. apply checkFourNearLimit_status. exact Hv.
  - intros l Hl.
    destruct (writes_only_checkFourNearLimit data lq uq h l) as [H|H];
      [contradiction | exact H].
Qed.

(** ** The flags depend on the values only *)

Lemma agree_on_status_only (data : list loc) (h h' : heap) :
  status_only h h' -> agree_on data h h'.
Proof. intros Hso l _. apply status_only_value. exact Hso. Qed.

Lemma agree_on_sym (data : list loc) (h h' : heap) :
  agree_on data h h' -> agree_on data h' h.
Proof. intros H l Hl. symmetry. apply H, Hl. Qed.

Lemma agree_on_trans (data : list loc) (h1 h2 h3 : heap) :
  agree_on data h1 h2 -> agree_on data h2 h3 -> agree_on data h1 h3.
Proof. intros H12 H23 l Hl. rewrite (H23 l Hl). apply H12, Hl. Qed.

Lemma above_agree (data : list loc) (avg : Q) (h h' : heap) (k : nat) :
  agree_on data h h' -> k < length data ->
  above data avg h' k = above data avg h k.
Proof.
  intros Ha Hk. unfold above. rewrite (Ha _ (at_index_In data k Hk)). reflexivity.
Qed.

Lemma run_window_agree (data : list loc) (avg : Q) (h h' : heap) (s : nat) :
  agree_on data h h' -> run_window data avg h s -> run_window data avg h' s.
Proof.
  intros Ha [Hs Hu]. split; [exact Hs|].
  destruct Hu as [Hu|Hu]; [left|right]; intros k Hk;
    rewrite (above_agree data avg h h' k Ha) by lia; apply Hu, Hk.
Qed.

Lemma count_between_ext (f g : nat -> bool) (a b : nat) :
  (forall k, a <= k < b -> f k = g k) -> count_between f a b = count_between g a b.
Proof.
  intros Hfg. unfold count_between. f_equal. f_equal.
  apply List.filter_ext_in. intros k Hk. apply in_seq in Hk. apply Hfg. lia.
Qed.

Lemma near_window_agree (data : list loc) (lq uq : Q) (h h' : heap) (s : nat) :
  agree_on data h h' -> near_window data lq uq h s -> near_window data lq uq h' s.
Proof.
  intros Ha [Hs Hhot]. split; [exact Hs|]. unfold hot in *.
  rewrite (count_between_ext (near_lower data lq h') (near_lower data lq h)).
  - rewrite (count_between_ext (near_upper data lq uq h') (near_upper data lq uq h));
      [exact Hhot|].
    intros k Hk. unfold near_upper.
    rewrite (Ha _ (at_index_In data k ltac:(lia))). reflexivity.
  - intros k Hk. unfold near_lower.
    rewrite (Ha _ (at_index_In data k ltac:(lia))). reflexivity.
Qed.

Lemma in_run_window_agree (data : list loc) (avg : Q) (h h' : heap) (l : loc) :
  agree_on data h h' -> in_run_window data avg h l <-> in_run_window data avg h' l.
Proof.
  intros Ha. unfold in_run_window.
  split; intros (j & s & He & Hj & Hw); exists j, s;
    (split; [exact He|]); (split; [exact Hj|]).
  - apply (run_window_agree data avg h h' s Ha Hw).
  - apply (run_window_agree data avg h' h s (agree_on_sym _ _ _ Ha) Hw).
Qed.

Lemma in_near_window_agree (data : list loc) (lq uq : Q) (h h' : heap) (l : loc) :
  agree_on data h h' ->
  in_near_window data lq uq h l <-> in_near_window data lq uq h' l.
Proof.
  intros Ha. unfold in_near_window.
  split; intros (j & s & He & Hj & Hw); exists j, s;
    (split; [exact He|]); (split; [exact Hj|]).
  - apply (near_window_agree data lq uq h h' s Ha Hw).
  - apply (near_window_agree data lq uq h' h s (agree_on_sym _ _ _ Ha) Hw).
Qed.

(** ** The status that remains after the three rules *)

Lemma values_pass_classify (tableData : list loc) (lim : Limits) (h : heap) (l : loc) :
  valid_refs h tableData -> In l tableData ->
  let s := status_of (values_pass tableData lim h) l in
  let near := in_near_window tableData (lowerQuartile lim) (upperQuartile lim) h l in
  let run := in_run_window tableData (avgX lim) h l in
  (outside (LNPL lim) (UNPL lim) (value_of h l) = true -> s = NPL_EXCEPTION) /\
  (outside (LNPL lim) (UNPL lim) (value_of h l) = false ->
   (near -> s = FOUR_NEAR_LIMIT_EXCEPTION) /\
   (~ near -> run -> s = RUN_OF_EIGHT_EXCEPTION) /\
   (~ near -> ~ run -> s = NORMAL)).
Proof.
  intros Hv Hin s near run. subst s near run.
  assert (Hl : l < length h).
  { unfold valid_refs in Hv. rewrite Forall_forall in Hv.
    apply Hv, list_elem_of_In, Hin. }
  split; [apply (values_pass_status tableData lim h l Hin Hl)|].
  intros Hout. unfold values_pass.
  set (h2 := reset_status tableData h).
  set (h3 := checkRunOfEight tableData (avgX lim) h2).
  set (h4 := checkFourNearLimit tableData (lowerQuartile lim) (upperQuartile lim) h3).
  assert (H2 : status_only h h2) by apply status_only_reset_status.
  assert (H3 : status_only h2 h3) by apply status_only_checkRunOfEight.
  assert (H4 : status_only h3 h4) by apply status_only_checkFourNearLimit.
  assert (H13 : status_only h h3) by (eapply status_only_trans; eassumption).
  assert (H14 : status_only h h4) by (eapply status_only_trans; eassumption).
  assert (Hv2 : valid_refs h2 tableData).
  { unfold valid_refs in *. rewrite (proj1 H2). exact Hv. }
  assert (Hv3 : valid_refs h3 tableData).
  { unfold valid_refs in *. rewrite (proj1 H13). exact Hv. }
  rewrite checkOutsideLimit_keeps
    by (right; rewrite (status_only_value _ _ l H14); exact Hout).
  assert (Hn : status_of h2 l = NORMAL) by (apply reset_status_In; assumption).
  pose proof (checkRunOfEight_status_any tableData (avgX lim) h2 l Hv2) as HA.
  fold h3 in HA.
  rewrite <- (in_run_window_agree tableData (avgX lim) h h2 l
                (agree_on_status_only _ _ _ H2)) in HA.
  pose proof (checkFourNearLimit_status tableData (lowerQuartile lim)
                (upperQuartile lim) h3 l Hv3) as HB.
  fold h4 in HB.
  rewrite <- (in_near_window_agree tableData (lowerQuartile lim) (upperQuartile lim)
                h h3 l (agree_on_status_only _ _ _ H13)) in HB.
  assert (H3cases : status_of h3 l = RUN_OF_EIGHT_EXCEPTION \/ status_of h3 l = NORMAL).
  { destruct (writes_only_checkRunOfEight tableData (avgX lim) h2 l) as [E|E];
      fold h3 in E; [left; exact E | right; congruence]. }
  split; [|split].
  - intros Hnear. apply HB. right. exact Hnear.
  - intros Hnear Hrun.
    destruct (writes_only_checkFourNearLimit tableData (lowerQuartile lim)
                (upperQuartile lim) h3 l) as [E|E]; fold h4 in E.
    + exfalso. apply HB in E. destruct E as [E|E]; [|contradiction].
      destruct H3cases; congruence.
    + rewrite E. apply HA. right. exact Hrun.
  - intros Hnear Hrun.
    destruct (writes_only_checkFourNearLimit tableData (lowerQuartile lim)
                (upperQuartile lim) h3 l) as [E|E]; fold h4 in E.
    + exfalso. apply HB in E. destruct E as [E|E]; [|contradiction].
      destruct H3cases; congruence.
    + rewrite E. destruct H3cases as [E3|E3]; [|exact E3].
      exfalso. apply HA in E3. destruct E3 as [E3|E3]; [congruence | contradiction].
Qed.

Lemma values_pass_other (tableData : list loc) (lim : Limits) (h : heap) (l : loc) :
  ~ In l tableData -> deref (values_pass tableData lim h) l = deref h l.
Proof.
  intros Hl. unfold values_pass.
  rewrite checkOutsideLimit_other, checkFourNearLimit_other,
    checkRunOfEight_other, reset_status_other by exact Hl.
  reflexivity.
Qed.

Section EngineFurther.

Variable fromDateStr : string -> Z.

Lemma computeXmrStats_other (data : list loc) (h : heap) (l : loc) :
  l < length h -> ~ In l data ->
  deref (snd (computeXmrStats fromDateStr data h)) l = deref h l.
Proof.
  intros Hl Hout.
  destruct (tableData_of fromDateStr data h) as [|a td] eqn:Htd.
  - rewrite computeXmrStats_empty by exact Htd. reflexivity.
  - assert (Hne : tableData_of fromDateStr data h <> []) by (rewrite Htd; discriminate).
    destruct (computeXmrStats_old fromDateStr data h l Hne Hl) as (Hd & Hd1 & _).
    rewrite Hd, <- Hd1. apply values_pass_other.
    intros Hin. apply tableData_In in Hin. apply Hout, Hin.
Qed.

(** X4: a series that is cloned with [deepClone] before [computeXmrStats]
    runs on the copy is left as it was, status included. *)
Theorem deepClone_protects_original (src : list loc) (h : heap) :
  valid_refs h src ->
  let copy := fst (deepClone src h) in
  let h1 := snd (deepClone src h) in
  forall l, l < length h ->
    deref (snd (computeXmrStats fromDateStr copy h1)) l = deref h l.
Proof.
  intros Hv copy h1 l Hl. subst copy h1.
  rewrite deepClone_eq by exact Hv. cbn [fst snd].
  rewrite computeXmrStats_other.
  - apply deref_app_old. exact Hl.
  - rewrite length_app. lia.
  - intros Hin. apply in_seq in Hin. lia.
Qed.

(** What the result keeps of the pass over the values, for a row of the
    sorted series. *)
Lemma computeXmrStats_row (data : list loc) (h : heap) (l : loc) :
  valid_refs h data -> In l (tableData_of fromDateStr data h) ->
  let tableData := tableData_of fromDateStr data h in
  let lim := fst (calculateLimits tableData h) in
  let h1 := snd (calculateLimits tableData h) in
  let h' := snd (computeXmrStats fromDateStr data h) in
  deref h' l = deref (values_pass tableData lim h1) l /\
  valid_refs h1 tableData /\
  agree_on tableData h1 h' /\
  agree_on tableData h h1.
Proof.
  intros Hv Hin tableData lim h1 h'.
  assert (Hne : tableData_of fromDateStr data h <> []).
  { intros He. rewrite He in Hin. destruct Hin. }
  assert (Hvt : valid_refs h tableData) by (apply tableData_valid, Hv).
  assert (Hold : forall p, In p tableData ->
            deref h' p = deref (values_pass tableData lim h1) p /\
            deref h1 p = deref h p /\ p < length h1).
  { intros p Hp. apply (computeXmrStats_old fromDateStr data h p Hne).
    unfold valid_refs in Hvt. rewrite Forall_forall in Hvt.
    apply Hvt, list_elem_of_In, Hp. }
  split; [apply Hold, Hin|]. split; [|split].
  - unfold valid_refs. apply Forall_forall. intros p Hp.
    apply list_elem_of_In in Hp. apply Hold, Hp.
  - intros p Hp. destruct (Hold p Hp) as (Hd & _ & _).
    unfold value_of. rewrite Hd.
    destruct (status_only_values_pass tableData lim h1) as [_ Hf].
    destruct (Hf p) as (_ & _ & Hval). rewrite Hval. reflexivity.
  - intros p Hp. destruct (Hold p Hp) as (_ & Hd1 & _).
    unfold value_of. rewrite Hd1. reflexivity.
Qed.

(** X5: the status a value point ends with is the one of the last rule
    that flags it: outside a natural limit it is [NPL_EXCEPTION]; otherwise,
    sitting in a window of four with three points near a limit, it is
    [FOUR_NEAR_LIMIT_EXCEPTION]; otherwise, sitting in a uniform window of
    eight, it is [RUN_OF_EIGHT_EXCEPTION]; otherwise it is [NORMAL],
    whatever status the point came with. *)
Theorem final_status_by_overwrite (data : list loc) (h : heap) :
  valid_refs h data ->
  let stats := fst (computeXmrStats fromDateStr data h) in
  let h' := snd (computeXmrStats fromDateStr data h) in
  forall lv tableData l,
    In lv (lineValues stats) -> In tableData (xdataPerRange stats) ->
    In l tableData ->
    let lim := lineLimits lv in
    let out := (value_of h' l < LNPL lim)%Q \/ (UNPL lim < value_of h' l)%Q in
    let near :=
      in_near_window tableData (lowerQuartile lim) (upperQuartile lim) h' l in
    let run := in_run_window tableData (avgX lim) h' l in
    (out -> status_of h' l = NPL_EXCEPTION) /\
    (~ out -> near -> status_of h' l = FOUR_NEAR_LIMIT_EXCEPTION) /\
    (~ out -> ~ near -> run -> status_of h' l = RUN_OF_EIGHT_EXCEPTION) /\
    (~ out -> ~ near -> ~ run -> status_of h' l = NORMAL).
Proof.
  intros Hv stats h' lv tableData l Hlv Htd Hl lim out near run.
  destruct (tableData_of fromDateStr data h) as [|a0 td0] eqn:Hnil.
  { subst stats. rewrite computeXmrStats_empty in Hlv by exact Hnil. destruct Hlv. }
  assert (Hne : tableData_of fromDateStr data h <> []) by (rewrite Hnil; discriminate).
  clear Hnil a0 td0.
  destruct (computeXmrStats_nonempty fromDateStr data h Hne) as (_ & Hlines & Hx & _).
  subst stats. rewrite Hlines in Hlv. rewrite Hx in Htd.
  destruct Hlv as [<-|[]]. destruct Htd as [<-|[]].
  destruct (computeXmrStats_row data h l Hv Hl) as (Hd & Hv1 & Ha1 & _).
  set (td := tableData_of fromDateStr data h) in *.
  set (lim0 := fst (calculateLimits td h)) in *.
  set (h1 := snd (calculateLimits td h)) in *.
  fold h' in Hd, Ha1.
  assert (Hst : status_of h' l = status_of (values_pass td lim0 h1) l).
  { unfold status_of. rewrite Hd. reflexivity. }
  destruct (values_pass_classify td lim0 h1 l Hv1 Hl) as [Hflag Hrest].
  subst out near run lim. cbn [lineLimits].
  rewrite (Ha1 l Hl), Hst.
  rewrite <- (in_near_window_agree td (lowerQuartile lim0) (upperQuartile lim0)
                h1 h' l Ha1).
  rewrite <- (in_run_window_agree td (avgX lim0) h1 h' l Ha1).
  split.
  - intros Hout. apply Hflag, outside_spec. exact Hout.
  - assert (Hin : ~ ((value_of h1 l < LNPL lim0)%Q \/ (UNPL lim0 < value_of h1 l)%Q) ->
                  outside (LNPL lim0) (UNPL lim0) (value_of h1 l) = false).
    { intros Hno. destruct (outside (LNPL lim0) (UNPL lim0) (value_of h1 l)) eqn:Ho;
        [|reflexivity].
      exfalso. apply Hno, outside_spec. exact Ho. }
    split; [|split]; intros Hno; apply (Hrest (Hin Hno)).
Qed.

End EngineFurther.

(** ** Extremes of the dates *)

Lemma Math_min_dates (a b : Z) :
  Math_min (Finite (inject_Z a)) (Finite (inject_Z b)) = Finite (inject_Z (Z.min a b)).
Proof.
  unfold Math_min, xltb, Qltb.
  destruct (Qlt_le_dec (inject_Z b) (inject_Z a)) as [H|H].
  - rewrite <- Zlt_Qlt in H. rewrite Z.min_r by lia. reflexivity.
  - rewrite <- Zle_Qle in H. rewrite Z.min_l by lia. reflexivity.
Qed.

Lemma Math_max_dates (a b : Z) :
  Math_max (Finite (inject_Z a)) (Finite (inject_Z b)) = Finite (inject_Z (Z.max a b)).
Proof.
  unfold Math_max, xltb, Qltb.
  destruct (Qlt_le_dec (inject_Z a) (inject_Z b)) as [H|H].
  - rewrite <- Zlt_Qlt in H. rewrite Z.max_r by lia. reflexivity.
  - rewrite <- Zle_Qle in H. rewrite Z.max_l by lia. reflexivity.
Qed.

Lemma fold_min_spec (l : list Z) (a : Z) :
  (fold_left Z.min l a <= a)%Z /\
  (forall z, In z l -> (fold_left Z.min l a <= z)%Z) /\
  (fold_left Z.min l a = a \/ In (fold_left Z.min l a) l).
Proof.
  revert a. induction l as [|b l IH]; intros a; simpl.
  - split; [lia|]. split; [intros z []|left; reflexivity].
  - destruct (IH (Z.min a b)) as (H1 & H2 & H3). split; [lia|]. split.
    + intros z [<-|Hz]; [lia | apply H2, Hz].
    + destruct H3 as [H3|H3]; [|right; right; exact H3].
      rewrite H3. destruct (Z.min_spec a b) as [[_ ->]|[_ ->]];
        [left; reflexivity | right; left; reflexivity].
Qed.

Lemma fold_max_spec (l : list Z) (a : Z) :
  (a <= fold_left Z.max l a)%Z /\
  (forall z, In z l -> (z <= fold_left Z.max l a)%Z) /\
  (fold_left Z.max l a = a \/ In (fold_left Z.max l a) l).
Proof.
  revert a. induction l as [|b l IH]; intros a; simpl.
  - split; [lia|]. split; [intros z []|left; reflexivity].
  - destruct (IH (Z.max a b)) as (H1 & H2 & H3). split; [lia|]. split.
    + intros z [<-|Hz]; [lia | apply H2, Hz].
    + destruct H3 as [H3|H3]; [|right; right; exact H3].
      rewrite H3. destruct (Z.max_spec a b) as [[_ ->]|[_ ->]];
        [right; left; reflexivity | left; reflexivity].
Qed.

Section Extremes.

Variable fromDateStr : string -> Z.

Lemma findExtremesX_loop (arr : list loc) (h : heap) (a b : Z) :
  forEach arr
    (fun el (mm : xnum * xnum) =>
       let d := Finite (inject_Z (date_of fromDateStr h el)) in
       (Math_min (fst mm) d, Math_max (snd mm) d))
    (Finite (inject_Z a), Finite (inject_Z b))
  = (Finite (inject_Z (fold_left Z.min (map (date_of fromDateStr h) arr) a)),
     Finite (inject_Z (fold_left Z.max (map (date_of fromDateStr h) arr) b))).
Proof.
  unfold forEach. revert a b. induction arr as [|el arr IH]; intros a b.
  - reflexivity.
  - cbn [fold_left map fst snd]. rewrite Math_min_dates, Math_max_dates. apply IH.
Qed.

Lemma findExtremesX_cons (el : loc) (arr : list loc) (h : heap) :
  findExtremesX fromDateStr (el :: arr) h
  = (Finite (inject_Z (fold_left Z.min (map (date_of fromDateStr h) arr)
                         (date_of fromDateStr h el))),
     Finite (inject_Z (fold_left Z.max (map (date_of fromDateStr h) arr)
                         (date_of fromDateStr h el)))).
Proof.
  unfold findExtremesX, forEach. cbn [fold_left fst snd].
  change (Math_min PosInfinity (Finite (inject_Z (date_of fromDateStr h el))))
    with (Finite (inject_Z (date_of fromDateStr h el))).
  change (Math_max NegInfinity (Finite (inject_Z (date_of fromDateStr h el))))
    with (Finite (inject_Z (date_of fromDateStr h el))).
  apply findExtremesX_loop.
Qed.

Lemma findExtremesX_attained (arr : list loc) (h : heap) :
  (arr = [] -> findExtremesX fromDateStr arr h = (PosInfinity, NegInfinity)) /\
  (arr <> [] ->
   exists lo hi,
     In lo arr /\ In hi arr /\
     findExtremesX fromDateStr arr h
     = (Finite (inject_Z (date_of fromDateStr h lo)),
        Finite (inject_Z (date_of fromDateStr h hi))) /\
     forall l, In l arr ->
       (date_of fromDateStr h lo <= date_of fromDateStr h l
        <= date_of fromDateStr h hi)%Z).
Proof.
  split; [intros ->; reflexivity|].
  intros Hne. destruct arr as [|el arr]; [contradiction|].
  rewrite findExtremesX_cons.
  destruct (fold_min_spec (map (date_of fromDateStr h) arr) (date_of fromDateStr h el))
    as (Hm1 & Hm2 & Hm3).
  destruct (fold_max_spec (map (date_of fromDateStr h) arr) (date_of fromDateStr h el))
    as (HM1 & HM2 & HM3).
  assert (Hlo : exists lo, In lo (el :: arr) /\
            fold_left Z.min (map (date_of fromDateStr h) arr) (date_of fromDateStr h el)
            = date_of fromDateStr h lo).
  { destruct Hm3 as [E|E].
    - exists el. split; [left; reflexivity | exact E].
    - apply in_map_iff in E. destruct E as (lo & E & Hin).
      exists lo. split; [right; exact Hin | symmetry; exact E]. }
  assert (Hhi : exists hi, In hi (el :: arr) /\
            fold_left Z.max (map (date_of fromDateStr h) arr) (date_of fromDateStr h el)
            = date_of fromDateStr h hi).
  { destruct HM3 as [E|E].
    - exists el. split; [left; reflexivity | exact E].
    - apply in_map_iff in E. destruct E as (hi & E & Hin).
      exists hi. split; [right; exact Hin | symmetry; exact E]. }
  destruct Hlo as (lo & Hlo & Elo). destruct Hhi as (hi & Hhi & Ehi).
  exists lo, hi. split; [exact Hlo|]. split; [exact Hhi|].
  rewrite <- Elo, <- Ehi. split; [reflexivity|].
  intros l [<-|Hl]; [lia|].
  split; [apply Hm2 | apply HM2]; apply in_map; exact Hl.
Qed.

(** X6: [findExtremesX] returns [Infinity] and [-Infinity] on an empty
    array; otherwise it returns the earliest and the latest instant among
    the dates of the array: both are the date of some element and every date
    lies between them. *)
Theorem findExtremesX_spec (arr : list loc) (h : heap) :
  (arr = [] -> findExtremesX fromDateStr arr h = (PosInfinity, NegInfinity)) /\
  (arr <> [] ->
   exists lo hi,
     In lo arr /\ In hi arr /\
     findExtremesX fromDateStr arr h
     = (Finite (inject_Z (date_of fromDateStr h lo)),
        Finite (inject_Z (date_of fromDateStr h hi))) /\
     forall l, In l arr ->
       (date_of fromDateStr h lo <= date_of fromDateStr h l
        <= date_of fromDateStr h hi)%Z).
Proof. exact (findExtremesX_attained arr h). Qed.

End Extremes.

(** ** The chart bounds *)

Lemma widen_x_step (h : heap) (dv : loc) (s : Stats) (lo0 hi0 : Q) :
  xchartMin s = Finite lo0 -> xchartMax s = Finite hi0 ->
  exists lo1 hi1,
    xchartMin (widen_x h dv s) = Finite lo1 /\
    xchartMax (widen_x h dv s) = Finite hi1 /\
    (lo1 <= lo0)%Q /\ (hi0 <= hi1)%Q /\
    (lo1 <= value_of h dv)%Q /\ (value_of h dv <= hi1)%Q /\
    (lo1 = lo0 \/ lo1 = value_of h dv) /\
    (hi1 = hi0 \/ hi1 = value_of h dv) /\
    mrchartMax (widen_x h dv s) = mrchartMax s /\
    same_lists s (widen_x h dv s).
Proof.
  intros Hlo Hhi. unfold widen_x. rewrite Hhi.
  cbn [xltb]. unfold Qltb.
  destruct (Qlt_le_dec hi0 (value_of h dv)) as [H1|H1];
    cbn [xchartMin set_xchartMax]; rewrite Hlo; cbn [xltb]; unfold Qltb;
    destruct (Qlt_le_dec (value_of h dv) lo0) as [H2|H2];
    cbn [xchartMin xchartMax mrchartMax set_xchartMin set_xchartMax];
    eexists; eexists;
    (split; [first [reflexivity | exact Hlo]|]);
    (split; [first [reflexivity | exact Hhi]|]);
    repeat split; try lra; auto.
Qed.

Lemma widen_x_loop (h : heap) (l : list loc) (s : Stats) (lo0 hi0 : Q) :
  xchartMin s = Finite lo0 -> xchartMax s = Finite hi0 ->
  exists lo hi,
    xchartMin (forEach l (widen_x h) s) = Finite lo /\
    xchartMax (forEach l (widen_x h) s) = Finite hi /\
    (lo <= lo0)%Q /\ (hi0 <= hi)%Q /\
    (forall dv, In dv l -> (lo <= value_of h dv)%Q /\ (value_of h dv <= hi)%Q) /\
    (lo = lo0 \/ exists dv, In dv l /\ lo = value_of h dv) /\
    (hi = hi0 \/ exists dv, In dv l /\ hi = value_of h dv) /\
    mrchartMax (forEach l (widen_x h) s) = mrchartMax s /\
    same_lists s (forEach l (widen_x h) s).
Proof.
  unfold forEach. revert s lo0 hi0.
  induction l as [|dv l IH]; intros s lo0 hi0 Hlo Hhi.
  - exists lo0, hi0. cbn [fold_left]. repeat split; try lra; auto;
      match goal with H : In _ [] |- _ => destruct H end.
  - cbn [fold_left].
    destruct (widen_x_step h dv s lo0 hi0 Hlo Hhi)
      as (lo1 & hi1 & E1 & E2 & L1 & L2 & L3 & L4 & A1 & A2 & M1 & (S1 & S2 & S3)).
    destruct (IH (widen_x h dv s) lo1 hi1 E1 E2)
      as (lo & hi & F1 & F2 & K1 & K2 & K3 & B1 & B2 & M2 & (T1 & T2 & T3)).
    exists lo, hi. split; [exact F1|]. split; [exact F2|].
    split; [lra|]. split; [lra|]. split.
    { intros p [<-|Hp]; [split; lra | apply K3, Hp]. }
    split.
    { destruct B1 as [->|(p & Hp & ->)].
      - destruct A1 as [->| ->]; [left; reflexivity|].
        right. exists dv. split; [left; reflexivity | reflexivity].
      - right. exists p. split; [right; exact Hp | reflexivity]. }
    split.
    { destruct B2 as [->|(p & Hp & ->)].
      - destruct A2 as [->| ->]; [left; reflexivity|].
        right. exists dv. split; [left; reflexivity | reflexivity].
      - right. exists p. split; [right; exact Hp | reflexivity]. }
    split; [congruence|]. repeat split; congruence.
Qed.

Lemma widen_mr_loop (h : heap) (l : list loc) (s : Stats) (top0 : Q) :
  mrchartMax s = Finite top0 ->
  exists top,
    mrchartMax (forEach l (widen_mr h) s) = Finite top /\
    (top0 <= top)%Q /\
    (forall dv, In dv l -> (value_of h dv <= top)%Q) /\
    (top = top0 \/ exists dv, In dv l /\ top = value_of h dv) /\
    xchartMin (forEach l (widen_mr h) s) = xchartMin s /\
    xchartMax (forEach l (widen_mr h) s) = xchartMax s /\
    same_lists s (forEach l (widen_mr h) s).
Proof.
  unfold forEach. revert s top0.
  induction l as [|dv l IH]; intros s top0 Htop.
  - exists top0. cbn [fold_left]. repeat split; try lra; auto.
    intros p [].
  - cbn [fold_left].
    assert (Hstep : exists top1,
              mrchartMax (widen_mr h dv s) = Finite top1 /\
              (top0 <= top1)%Q /\ (value_of h dv <= top1)%Q /\
              (top1 = top0 \/ top1 = value_of h dv) /\
              xchartMin (widen_mr h dv s) = xchartMin s /\
              xchartMax (widen_mr h dv s) = xchartMax s /\
              same_lists s (widen_mr h dv s)).
    { unfold widen_mr. rewrite Htop. cbn [xltb]. unfold Qltb.
      destruct (Qlt_le_dec top0 (value_of h dv)) as [H1|H1];
        cbn [mrchartMax xchartMin xchartMax set_mrchartMax];
        eexists; (split; [first [reflexivity | exact Htop]|]);
        repeat split; try lra; auto. }
    destruct Hstep as (top1 & E1 & L1 & L2 & A1 & N1 & N2 & (S1 & S2 & S3)).
    destruct (IH (widen_mr h dv s) top1 E1)
      as (top & F1 & K1 & K2 & B1 & M1 & M2 & (T1 & T2 & T3)).
    exists top. split; [exact F1|]. split; [lra|]. split.
    { intros p [<-|Hp]; [lra | apply K2, Hp]. }
    split.
    { destruct B1 as [->|(p & Hp & ->)].
      - destruct A1 as [->| ->]; [left; reflexivity|].
        right. exists dv. split; [left; reflexivity | reflexivity].
      - right. exists p. split; [right; exact Hp | reflexivity]. }
    split; [congruence|]. split; [congruence|]. repeat split; congruence.
Qed.

Lemma keeps_same_fields (d d' : DataValue) :
  same_fields d d' -> keeps d' = keeps d.
Proof. intros (_ & Hx & Hv). unfold keeps. rewrite Hx, Hv. reflexivity. Qed.

Lemma removeAllNulls_all_kept (arr : list loc) (h : heap) :
  (forall l, In l arr -> keeps (deref h l) = true) -> removeAllNulls arr h = arr.
Proof.
  intros Hk. unfold removeAllNulls. induction arr as [|a arr IH]; [reflexivity|].
  cbn [List.filter]. rewrite (Hk a (or_introl eq_refl)). f_equal.
  apply IH. intros l Hl. apply Hk. right. exact Hl.
Qed.

(** ** The result of [computeXmrStats] *)

Section EngineResult.

Variable fromDateStr : string -> Z.

Lemma computeXmrStats_stats (data : list loc) (h : heap) :
  tableData_of fromDateStr data h <> [] ->
  let tableData := tableData_of fromDateStr data h in
  let lim := fst (calculateLimits tableData h) in
  let h5 := values_pass tableData lim (snd (calculateLimits tableData h)) in
  let movements := fst (getMovements tableData h5) in
  let h' := snd (computeXmrStats fromDateStr data h) in
  let lv := mkLineValue (fst (findExtremesX fromDateStr tableData h))
                        (snd (findExtremesX fromDateStr tableData h)) lim in
  fst (computeXmrStats fromDateStr data h)
  = forEach movements (widen_mr h')
      (forEach (removeAllNulls tableData h') (widen_x h')
         (limits_stats lv tableData movements)).
Proof.
  intros Hne tableData lim h5 movements h' lv.
  subst h' lv. unfold computeXmrStats.
  fold (tableData_of fromDateStr data h). fold tableData.
  destruct (findExtremesX fromDateStr tableData h) as [xmin xmax].
  destruct (Nat.eqb_spec (length tableData) 0) as [Hz|Hz].
  { apply length_zero_iff_nil in Hz. exact (False_ind _ (Hne Hz)). }
  subst lim h5 movements.
  destruct (calculateLimits tableData h) as [lim h1]. cbn [fst snd].
  fold (values_pass tableData lim h1).
  destruct (getMovements tableData (values_pass tableData lim h1)) as [movements h6].
  reflexivity.
Qed.

Lemma computeXmrStats_same_fields (data : list loc) (h : heap) (l : loc) :
  l < length h ->
  same_fields (deref h l) (deref (snd (computeXmrStats fromDateStr data h)) l).
Proof.
  intros Hl.
  destruct (tableData_of fromDateStr data h) as [|a td] eqn:Htd.
  - rewrite computeXmrStats_empty by exact Htd. apply same_fields_refl.
  - assert (Hne : tableData_of fromDateStr data h <> []) by (rewrite Htd; discriminate).
    destruct (computeXmrStats_old fromDateStr data h l Hne Hl) as (Hd & Hd1 & _).
    rewrite Hd, <- Hd1.
    apply (proj2 (status_only_values_pass _ _ _)).
Qed.

Lemma tableData_kept_after (data : list loc) (h : heap) :
  valid_refs h data ->
  removeAllNulls (tableData_of fromDateStr data h)
    (snd (computeXmrStats fromDateStr data h))
  = tableData_of fromDateStr data h.
Proof.
  intros Hv. apply removeAllNulls_all_kept. intros l Hl.
  apply tableData_In in Hl. destruct Hl as [Hin Hk].
  rewrite (keeps_same_fields (deref h l)); [exact Hk|].
  apply computeXmrStats_same_fields.
  unfold valid_refs in Hv. rewrite Forall_forall in Hv. apply Hv, list_elem_of_In, Hin.
Qed.

Lemma tableData_sorted (data : list loc) (h : heap) :
  StronglySorted (key_le (date_of fromDateStr h)) (tableData_of fromDateStr data h).
Proof. apply Array_sort_sorted. apply date_leb_key. Qed.

(** X8: the shape of the result.  The list of ranges is empty exactly when
    no row survives the cleaning, which is the test the chart makes before it
    draws.  Otherwise the result has one line of limits, one range of values
    and one range of movements; the limits are those of the sorted, cleaned
    series, and the line spans from the date of its first row to the date of
    its last row. *)
Theorem computeXmrStats_shape (data : list loc) (h : heap) :
  let stats := fst (computeXmrStats fromDateStr data h) in
  let tableData := tableData_of fromDateStr data h in
  (xdataPerRange stats = [] <-> removeAllNulls data h = []) /\
  (removeAllNulls data h <> [] ->
   exists lv movements,
     lineValues stats = [lv] /\ xdataPerRange stats = [tableData] /\
     movementsPerRange stats = [movements] /\
     lineLimits lv = fst (calculateLimits tableData h) /\
     xLeft lv = Finite (inject_Z (date_of fromDateStr h (at_index tableData 0))) /\
     xRight lv
     = Finite (inject_Z (date_of fromDateStr h
                           (at_index tableData (length tableData - 1))))).
Proof.
  intros stats tableData.
  assert (Hiff : tableData = [] <-> removeAllNulls data h = []).
  { unfold tableData, tableData_of. split.
    - intros He. apply Permutation_nil.
      rewrite <- He. apply sortDataValues_perm.
    - intros He. rewrite He. reflexivity. }
  split.
  - split.
    + intros Hx. apply Hiff.
      destruct tableData as [|a td] eqn:Htd; [reflexivity|].
      assert (Hne : tableData_of fromDateStr data h <> []).
      { fold tableData. rewrite Htd. discriminate. }
      destruct (computeXmrStats_nonempty fromDateStr data h Hne) as (_ & _ & Hx' & _).
      fold stats in Hx'. rewrite Hx in Hx'. discriminate.
    + intros He. apply Hiff in He. subst stats.
      rewrite computeXmrStats_empty by exact He. reflexivity.
  - intros Hne0.
    assert (Hne : tableData_of fromDateStr data h <> []).
    { intros He. apply Hne0, Hiff. exact He. }
    destruct (computeXmrStats_nonempty fromDateStr data h Hne) as (_ & Hlines & Hx & Hm).
    fold stats tableData in Hlines, Hx, Hm.
    eexists. eexists. split; [exact Hlines|]. split; [exact Hx|].
    split; [exact Hm|]. cbn [lineLimits xLeft xRight]. split; [reflexivity|].
    destruct (findExtremesX_attained fromDateStr tableData h) as [_ Hext].
    destruct (Hext Hne) as (lo & hi & Hlo & Hhi & Heq & Hb).
    rewrite Heq. cbn [fst snd].
    pose proof (tableData_sorted data h) as Hs. fold tableData in Hs.
    assert (Hlen : 0 < length tableData).
    { destruct tableData; [contradiction | simpl; lia]. }
    assert (H0 : tableData !! 0 = Some (at_index tableData 0)).
    { unfold at_index. apply list_lookup_lookup_total_lt. exact Hlen. }
    assert (Hn : tableData !! (length tableData - 1)
                 = Some (at_index tableData (length tableData - 1))).
    { unfold at_index. apply list_lookup_lookup_total_lt. lia. }
    assert (Hfirst : date_of fromDateStr h lo
                     = date_of fromDateStr h (at_index tableData 0)).
    { apply list_elem_of_In, list_elem_of_lookup in Hlo. destruct Hlo as [j Hj].
      assert (Hle : (date_of fromDateStr h lo
                     <= date_of fromDateStr h (at_index tableData 0))%Z).
      { apply Hb. apply at_index_In. exact Hlen. }
      destruct j as [|j].
      - rewrite H0 in Hj. injection Hj as <-. reflexivity.
      - pose proof (StronglySorted_lookup (date_of fromDateStr h) tableData 0 (S j)
                      _ _ Hs ltac:(lia) H0 Hj) as Hge.
        lia. }
    assert (Hlast : date_of fromDateStr h hi
                    = date_of fromDateStr h (at_index tableData (length tableData - 1))).
    { apply list_elem_of_In, list_elem_of_lookup in Hhi. destruct Hhi as [j Hj].
      assert (Hge : (date_of fromDateStr h (at_index tableData (length tableData - 1))
                     <= date_of fromDateStr h hi)%Z).
      { apply Hb. apply at_index_In. lia. }
      pose proof (lookup_lt_Some _ _ _ Hj) as Hjn.
      destruct (Nat.eq_dec j (length tableData - 1)) as [->|Hjne].
      - rewrite Hn in Hj. injection Hj as <-. reflexivity.
      - pose proof (StronglySorted_lookup (date_of fromDateStr h) tableData j
                      (length tableData - 1) _ _ Hs ltac:(lia) Hj Hn) as Hle.
        lia. }
    rewrite Hfirst, Hlast. split; reflexivity.
Qed.

End EngineResult.

(** ** The movements of the result *)

Lemma movement_value_nonneg (h : heap) (data : list loc) (i : nat) :
  (0 <= ToNumber (value (movement_of h data i)))%Q.
Proof. unfold movement_of. cbn [value ToNumber]. apply round_nonneg, Qabs_nonneg. Qed.

(** Rule C over movements: with the lower limit at [0] only the upper range
    limit can flag. *)
Lemma movements_pass_status (movements : list loc) (lim : Limits) (h : heap) (m : loc) :
  In m movements -> m < length h -> (0 <= value_of h m)%Q ->
  ((URL lim < value_of h m)%Q ->
   status_of (movements_pass movements lim h) m = NPL_EXCEPTION) /\
  ((value_of h m <= URL lim)%Q ->
   status_of (movements_pass movements lim h) m = NORMAL).
Proof.
  intros Hin Hm Hpos. unfold movements_pass.
  set (h1 := reset_status movements h).
  assert (Hso : status_only h h1) by apply status_only_reset_status.
  split; intros Hu.
  - apply checkOutsideLimit_flags; [exact Hin | rewrite (proj1 Hso); exact Hm|].
    rewrite (status_only_value _ _ m Hso). apply outside_spec. right. exact Hu.
  - rewrite checkOutsideLimit_keeps.
    + apply reset_status_In; assumption.
    + right. rewrite (status_only_value _ _ m Hso). apply outside_false.
      split; assumption.
Qed.

Section EngineMovements.

Variable fromDateStr : string -> Z.

Lemma computeXmrStats_movements (data : list loc) (h : heap) :
  valid_refs h data ->
  let stats := fst (computeXmrStats fromDateStr data h) in
  let h' := snd (computeXmrStats fromDateStr data h) in
  forall lv tableData movements,
    In lv (lineValues stats) -> In tableData (xdataPerRange stats) ->
    In movements (movementsPerRange stats) ->
    length movements = length tableData - 1 /\
    forall i, 1 <= i < length tableData ->
      let m := at_index movements (i - 1) in
      let cur := at_index tableData i in
      let prev := at_index tableData (i - 1) in
      order (deref h' m) = order (deref h' cur) /\
      x (deref h' m) = x (deref h' cur) /\
      value (deref h' m)
      = Some (round (Qabs (value_of h' cur - value_of h' prev))) /\
      (0 <= value_of h' m)%Q /\
      ((URL (lineLimits lv) < value_of h' m)%Q ->
       status_of h' m = NPL_EXCEPTION) /\
      ((value_of h' m <= URL (lineLimits lv))%Q -> status_of h' m = NORMAL).
Proof.
  intros Hv stats h' lv tableData movements Hlv Htd Hmv.
  destruct (tableData_of fromDateStr data h) as [|a0 td0] eqn:Hnil.
  { subst stats. rewrite computeXmrStats_empty in Hlv by exact Hnil. destruct Hlv. }
  assert (Hne : tableData_of fromDateStr data h <> []) by (rewrite Hnil; discriminate).
  clear Hnil a0 td0.
  destruct (computeXmrStats_nonempty fromDateStr data h Hne) as (Hh & Hlines & Hx & Hm).
  fold stats in Hlines, Hx, Hm. fold h' in Hh.
  rewrite Hlines in Hlv. rewrite Hx in Htd. rewrite Hm in Hmv.
  destruct Hlv as [<-|[]]. destruct Htd as [<-|[]]. destruct Hmv as [<-|[]].
  cbn [lineLimits].
  set (td := tableData_of fromDateStr data h) in *.
  set (lim := fst (calculateLimits td h)) in *.
  set (h1 := snd (calculateLimits td h)) in *.
  set (h5 := values_pass td lim h1) in *.
  assert (Hvt : valid_refs h td) by (apply tableData_valid, Hv).
  assert (Hv5 : valid_refs h5 td).
  { unfold valid_refs in *. eapply Forall_impl; [exact Hvt|]. intros l Hl. cbv beta in *.
    unfold h5. rewrite (proj1 (status_only_values_pass td lim h1)).
    pose proof (extends_length h h1 (calculateLimits_extends td h)). lia. }
  pose proof (getMovements_eq td h5 Hv5) as Heq.
  set (movs := fst (getMovements td h5)) in *.
  set (h6 := snd (getMovements td h5)) in *.
  assert (Hmovs : movs = seq (length h5) (length td - 1)).
  { unfold movs. rewrite Heq. reflexivity. }
  assert (Hlen6 : length h6 = length h5 + (length td - 1)).
  { unfold h6. rewrite Heq. cbn [snd]. rewrite length_app, length_map, length_seq.
    reflexivity. }
  split; [rewrite Hmovs; apply length_seq|].
  intros i Hi.
  set (m := at_index movs (i - 1)). set (cur := at_index td i).
  set (prev := at_index td (i - 1)).
  destruct (getMovements_new td h5 i Hv5 Hi) as [Hat Hd].
  fold movs h6 in Hat, Hd. fold m in Hat, Hd.
  assert (Hin : In m movs).
  { unfold m. apply at_index_In. rewrite Hmovs, length_seq. lia. }
  assert (Hm6 : m < length h6) by lia.
  assert (Hso : status_only h6 h') by (rewrite Hh; apply status_only_movements_pass).
  assert (Hold : forall p, In p td -> deref h' p = deref h5 p).
  { intros p Hp. rewrite Hh. rewrite movements_pass_old.
    - apply extends_old; [apply getMovements_extends|].
      unfold valid_refs in Hv5. rewrite Forall_forall in Hv5.
      apply Hv5, list_elem_of_In, Hp.
    - intros Hq. rewrite Hmovs in Hq. apply in_seq in Hq.
      unfold valid_refs in Hv5. rewrite Forall_forall in Hv5.
      pose proof (Hv5 p (proj2 (list_elem_of_In _ _) Hp)). cbv beta in *. lia. }
  assert (Hcur : deref h' cur = deref h5 cur) by (apply Hold, at_index_In; lia).
  assert (Hprev : deref h' prev = deref h5 prev) by (apply Hold, at_index_In; lia).
  destruct (proj2 Hso m) as (Ho & Hxx & Hval).
  assert (Hvm : value_of h' m = value_of h6 m).
  { unfold value_of. rewrite Hval. reflexivity. }
  assert (Hpos : (0 <= value_of h6 m)%Q).
  { unfold value_of. rewrite Hd. apply movement_value_nonneg. }
  unfold value_of at 1 2. rewrite Hcur, Hprev, <- Ho, <- Hxx, <- Hval, Hd.
  split; [reflexivity|]. split; [reflexivity|]. split; [reflexivity|].
  rewrite Hvm. split; [exact Hpos|].
  unfold status_of. rewrite Hh. apply movements_pass_status; assumption.
Qed.

End EngineMovements.

(** ** Cleaning and sorting again *)

Lemma sort_insert_ext {A : Type} (leb leb' : A -> A -> bool) (a : A) (l : list A) :
  (forall b, In b l -> leb a b = leb' a b) ->
  sort_insert leb a l = sort_insert leb' a l.
Proof.
  intros He. induction l as [|b l IH]; [reflexivity|].
  cbn [sort_insert]. rewrite (He b (or_introl eq_refl)).
  destruct (leb' a b); [reflexivity|]. f_equal.
  apply IH. intros c Hc. apply He. right. exact Hc.
Qed.

Lemma Array_sort_ext {A : Type} (leb leb' : A -> A -> bool) (l : list A) :
  (forall a b, In a l -> In b l -> leb a b = leb' a b) ->
  Array_sort leb l = Array_sort leb' l.
Proof.
  intros He. induction l as [|a l IH]; [reflexivity|].
  cbn [Array_sort]. rewrite <- IH.
  - apply sort_insert_ext. intros b Hb. apply He; [left; reflexivity|].
    right. apply (Permutation_in _ (Array_sort_perm leb l)). exact Hb.
  - intros x y Hx Hy. apply He; right; assumption.
Qed.

Lemma Array_sort_sorted_id {A : Type} (key : A -> Z) (leb : A -> A -> bool)
    (l : list A) :
  (forall a b, leb a b = true <-> (key a <= key b)%Z) ->
  StronglySorted (key_le key) l -> Array_sort leb l = l.
Proof.
  intros Hleb Hs. induction Hs as [|a l Hs IH Hall]; [reflexivity|].
  cbn [Array_sort]. rewrite IH. destruct l as [|b l]; [reflexivity|].
  cbn [sort_insert].
  assert (Hab : leb a b = true).
  { apply Hleb. rewrite Forall_forall in Hall. apply Hall. left. }
  rewrite Hab. reflexivity.
Qed.

Lemma removeAllNulls_same_fields (data : list loc) (h h' : heap) :
  (forall l, In l data -> same_fields (deref h l) (deref h' l)) ->
  removeAllNulls data h' = removeAllNulls data h.
Proof.
  intros Hf. unfold removeAllNulls. apply List.filter_ext_in.
  intros l Hl. apply keeps_same_fields, Hf, Hl.
Qed.

Section Again.

Variable fromDateStr : string -> Z.

Lemma date_of_same_fields (h h' : heap) (l : loc) :
  same_fields (deref h l) (deref h' l) ->
  date_of fromDateStr h' l = date_of fromDateStr h l.
Proof. intros (_ & Hx & _). unfold date_of. rewrite Hx. reflexivity. Qed.

(** X13: cleaning and sorting are idempotent and blind to [status]: a
    cleaned array is left as it is by the cleaning, a sorted array by the
    sort, and two stores that differ only in the statuses of the rows give
    the same cleaned and sorted array. *)
Theorem preprocessing_again (data : list loc) (h : heap) :
  removeAllNulls (removeAllNulls data h) h = removeAllNulls data h /\
  sortDataValues fromDateStr (sortDataValues fromDateStr data h) h
  = sortDataValues fromDateStr data h /\
  tableData_of fromDateStr (tableData_of fromDateStr data h) h
  = tableData_of fromDateStr data h /\
  (forall h',
     (forall l, In l data -> same_fields (deref h l) (deref h' l)) ->
     tableData_of fromDateStr data h' = tableData_of fromDateStr data h).
Proof.
  assert (Hclean : forall d, removeAllNulls (removeAllNulls d h) h = removeAllNulls d h).
  { intros d. apply removeAllNulls_all_kept. intros l Hl.
    apply removeAllNulls_In in Hl. apply Hl. }
  assert (Hsort : forall d, StronglySorted (key_le (date_of fromDateStr h)) d ->
            sortDataValues fromDateStr d h = d).
  { intros d Hd. unfold sortDataValues.
    apply (Array_sort_sorted_id (date_of fromDateStr h)); [|exact Hd].
    intros a b. apply date_leb_key. }
  split; [apply Hclean|]. split.
  { apply Hsort. apply Array_sort_sorted. intros a b. apply date_leb_key. }
  split.
  { unfold tableData_of at 1.
    rewrite (removeAllNulls_all_kept (tableData_of fromDateStr data h) h).
    - apply Hsort. apply tableData_sorted.
    - intros l Hl. apply tableData_In in Hl. apply Hl. }
  intros h' Hf. unfold tableData_of.
  rewrite (removeAllNulls_same_fields data h h' Hf).
  unfold sortDataValues. apply Array_sort_ext. intros a b Ha Hb.
  apply removeAllNulls_In in Ha, Hb.
  rewrite (date_of_same_fields h h' a) by (apply Hf, Ha).
  rewrite (date_of_same_fields h h' b) by (apply Hf, Hb).
  reflexivity.
Qed.

Lemma final_status_npl_iff (data : list loc) (h : heap) (l : loc) :
  valid_refs h data -> In l (tableData_of fromDateStr data h) ->
  let lim := fst (calculateLimits (tableData_of fromDateStr data h) h) in
  let h' := snd (computeXmrStats fromDateStr data h) in
  status_of h' l = NPL_EXCEPTION
  <-> (value_of h' l < LNPL lim)%Q \/ (UNPL lim < value_of h' l)%Q.
Proof.
  intros Hv Hl lim h'.
  destruct (computeXmrStats_row fromDateStr data h l Hv Hl) as (Hd & Hv1 & Ha1 & _).
  fold lim h' in Hd, Ha1.
  set (td := tableData_of fromDateStr data h) in *.
  set (h1 := snd (calculateLimits td h)) in *.
  assert (Hl1 : l < length h1).
  { unfold valid_refs in Hv1. rewrite Forall_forall in Hv1.
    apply Hv1, list_elem_of_In, Hl. }
  destruct (values_pass_status td lim h1 l Hl Hl1) as [Hflag Hkeep].
  unfold status_of. rewrite Hd, (Ha1 l Hl). fold (status_of (values_pass td lim h1) l).
  rewrite <- outside_spec.
  destruct (outside (LNPL lim) (UNPL lim) (value_of h1 l)) eqn:Ho.
  - split; [reflexivity | intros _; apply Hflag; reflexivity].
  - split; [intros E; exfalso; apply (Hkeep eq_refl), E | discriminate].
Qed.

(** X14: the colours tell the statuses apart, for the points and for their
    labels, and after [computeXmrStats] a value point is drawn red exactly
    when its value is strictly beyond a natural limit. *)
Theorem colours_of_points (data : list loc) (h : heap) :
  valid_refs h data ->
  (forall s s', dataStatusColor s = dataStatusColor s' -> s = s') /\
  (forall s s', dataLabelsStatusColor s = dataLabelsStatusColor s' -> s = s') /\
  let stats := fst (computeXmrStats fromDateStr data h) in
  let h' := snd (computeXmrStats fromDateStr data h) in
  forall lv tableData l,
    In lv (lineValues stats) -> In tableData (xdataPerRange stats) ->
    In l tableData ->
    (dataStatusColor (status_of h' l) = "red"%string
     <-> (value_of h' l < LNPL (lineLimits lv))%Q \/
         (UNPL (lineLimits lv) < value_of h' l)%Q).
Proof.
  intros Hv.
  split; [intros [] []; simpl; intros E; try reflexivity; discriminate|].
  split; [intros [] []; simpl; intros E; try reflexivity; discriminate|].
  intros stats h' lv tableData l Hlv Htd Hl.
  destruct (tableData_of fromDateStr data h) as [|a0 td0] eqn:Hnil.
  { subst stats. rewrite computeXmrStats_empty in Hlv by exact Hnil. destruct Hlv. }
  assert (Hne : tableData_of fromDateStr data h <> []) by (rewrite Hnil; discriminate).
  clear Hnil a0 td0.
  destruct (computeXmrStats_nonempty fromDateStr data h Hne) as (_ & Hlines & Hx & _).
  subst stats. rewrite Hlines in Hlv. rewrite Hx in Htd.
  destruct Hlv as [<-|[]]. destruct Htd as [<-|[]]. cbn [lineLimits].
  pose proof (final_status_npl_iff data h l Hv Hl) as Hiff.
  cbv zeta in Hiff. fold h' in Hiff. rewrite <- Hiff.
  destruct (status_of h' l); simpl; split; intros E; try reflexivity; discriminate.
Qed.

End Again.

(** ** Spaced numbers *)

Lemma strip_spaces_app (a b : string) :
  strip_spaces (a ++ b) = (strip_spaces a ++ strip_spaces b)%string.
Proof.
  induction a as [|c a IH]; [reflexivity|].
  cbn [String.append strip_spaces]. destruct (Ascii.eqb c " "); [exact IH|].
  cbn [String.append]. rewrite IH. reflexivity.
Qed.

Lemma strip_replace_thousands (s : string) (prev : option ascii) :
  strip_spaces (replace_thousands prev s) = strip_spaces s.
Proof.
  revert prev. induction s as [|c s IH]; intros prev.
  - cbn [replace_thousands]. destruct (thousands_match prev EmptyString); reflexivity.
  - cbn [replace_thousands].
    assert (Hrest : strip_spaces (String c (replace_thousands (Some c) s))
                    = strip_spaces (String c s)).
    { cbn [strip_spaces]. rewrite IH. reflexivity. }
    destruct (thousands_match prev (String c s)); [|exact Hrest].
    cbn [strip_spaces] in *. change (Ascii.eqb " " " ") with true. cbv iota.
    exact Hrest.
Qed.

Lemma replace_decimals_four (c1 c2 c3 c4 : ascii) (r : string) :
  replace_decimals (String c1 (String c2 (String c3 (String c4 r))))
  = if is_digit c1 && is_digit c2 && is_digit c3 && is_digit c4
    then String c1 (String c2 (String c3
           (String " " (replace_decimals (String c4 r)))))
    else String c1 (replace_decimals (String c2 (String c3 (String c4 r)))).
Proof. reflexivity. Qed.

Lemma strip_replace_decimals_upto (n : nat) (s : string) :
  String.length s <= n -> strip_spaces (replace_decimals s) = strip_spaces s.
Proof.
  revert s. induction n as [|n IH]; intros s Hn.
  - destruct s; [reflexivity | simpl in Hn; lia].
  - destruct s as [|c1 [|c2 [|c3 [|c4 r]]]]; try reflexivity.
    rewrite replace_decimals_four.
    pose proof (IH (String c4 r)) as IH4.
    pose proof (IH (String c2 (String c3 (String c4 r)))) as IH2.
    cbn [String.length] in Hn, IH4, IH2.
    destruct (is_digit c1 && is_digit c2 && is_digit c3 && is_digit c4).
    + set (t := replace_decimals (String c4 r)) in *.
      cbn [strip_spaces]. change (Ascii.eqb " " " ") with true. cbv iota.
      fold (strip_spaces t). rewrite IH4 by lia. reflexivity.
    + set (t := replace_decimals (String c2 (String c3 (String c4 r)))) in *.
      cbn [strip_spaces]. fold (strip_spaces t). rewrite IH2 by lia. reflexivity.
Qed.

Lemma strip_replace_decimals (s : string) :
  strip_spaces (replace_decimals s) = strip_spaces s.
Proof. exact (strip_replace_decimals_upto (String.length s) s (Nat.le_refl _)). Qed.

Lemma split_dot_nonempty (s : string) : split_dot s <> [].
Proof.
  induction s as [|c s IH]; [discriminate|].
  cbn [split_dot]. destruct (Ascii.eqb c "."); [discriminate|].
  destruct (split_dot s); discriminate.
Qed.

Lemma split_dot_free (s : string) : dot_free s -> split_dot s = [s].
Proof.
  induction s as [|c s IH]; intros Hf; [reflexivity|].
  destruct Hf as [Hc Hf]. cbn [split_dot].
  destruct (Ascii.eqb_spec c ".") as [E|_]; [exact (False_ind _ (Hc E))|].
  rewrite (IH Hf). reflexivity.
Qed.

Lemma split_dot_app (ip dp : string) :
  dot_free ip -> split_dot (ip ++ String "." dp) = ip :: split_dot dp.
Proof.
  induction ip as [|c ip IH]; intros Hf.
  - reflexivity.
  - destruct Hf as [Hc Hf]. cbn [String.append split_dot].
    destruct (Ascii.eqb_spec c ".") as [E|_]; [exact (False_ind _ (Hc E))|].
    rewrite (IH Hf). reflexivity.
Qed.

Section SpacedFacts.

Variable Number_toString : Q -> string.

Lemma numberStringSpaced_whole (num : Q) :
  dot_free (Number_toString num) ->
  numberStringSpaced Number_toString num
  = replace_thousands None (Number_toString num).
Proof.
  intros Hf. unfold numberStringSpaced. rewrite (split_dot_free _ Hf). reflexivity.
Qed.

Lemma numberStringSpaced_fraction (num : Q) (ip dp : string) :
  Number_toString num = (ip ++ "." ++ dp)%string ->
  dot_free ip -> dot_free dp -> dp <> EmptyString ->
  numberStringSpaced Number_toString num
  = (replace_thousands None ip ++ "." ++ replace_decimals dp)%string.
Proof.
  intros Hs Hi Hd Hne. unfold numberStringSpaced. rewrite Hs.
  change ("." ++ dp)%string with (String "." dp).
  rewrite (split_dot_app ip dp Hi), (split_dot_free dp Hd).
  cbn [hd nth_error truthy_string default].
  destruct (String.eqb_spec dp "") as [E|_]; [exact (False_ind _ (Hne E))|].
  reflexivity.
Qed.

(** X18: spacing a number only adds spaces.  When the number is written
    without a dot the result is its digits regrouped; when it is written
    with one dot and something behind it, the two sides are regrouped
    separately and joined by the dot; either way, taking the spaces out of
    the result gives what taking them out of the number as written gives. *)
Theorem numberStringSpaced_only_adds_spaces (num : Q) :
  (dot_free (Number_toString num) ->
   numberStringSpaced Number_toString num
   = replace_thousands None (Number_toString num)) /\
  (forall ip dp,
     Number_toString num = (ip ++ "." ++ dp)%string ->
     dot_free ip -> dot_free dp -> dp <> EmptyString ->
     numberStringSpaced Number_toString num
     = (replace_thousands None ip ++ "." ++ replace_decimals dp)%string) /\
  (dot_free (Number_toString num) \/
   (exists ip dp,
      Number_toString num = (ip ++ "." ++ dp)%string /\
      dot_free ip /\ dot_free dp /\ dp <> EmptyString) ->
   strip_spaces (numberStringSpaced Number_toString num)
   = strip_spaces (Number_toString num)).
Proof.
  split; [exact (numberStringSpaced_whole num)|].
  split; [exact (numberStringSpaced_fraction num)|].
  intros [Hf|(ip & dp & Hs & Hi & Hd & Hne)].
  - rewrite (numberStringSpaced_whole num Hf). apply strip_replace_thousands.
  - rewrite (numberStringSpaced_fraction num ip dp Hs Hi Hd Hne), Hs.
    rewrite !strip_spaces_app, strip_replace_thousands, strip_replace_decimals.
    reflexivity.
Qed.

End SpacedFacts.

Lemma is_digit_word (c : ascii) : is_digit c = true -> is_word c = true.
Proof. intros H. unfold is_word. rewrite H. reflexivity. Qed.

Lemma not_word_not_digit (c : ascii) : is_word c = false -> is_digit c = false.
Proof.
  intros H. destruct (is_digit c) eqn:E; [|reflexivity].
  rewrite (is_digit_word c E) in H. discriminate.
Qed.

Lemma digit_run_app (d1 d2 : string) :
  all_digits d1 -> digit_run (d1 ++ d2) = String.length d1 + digit_run d2.
Proof.
  induction d1 as [|c d1 IH]; intros Hd; [reflexivity|].
  destruct Hd as [Hc Hd]. cbn [String.append digit_run String.length].
  rewrite Hc, (IH Hd). reflexivity.
Qed.

Lemma digit_run_all (d : string) : all_digits d -> digit_run d = String.length d.
Proof.
  induction d as [|c d IH]; intros Hd; [reflexivity|].
  destruct Hd as [Hc Hd]. cbn [digit_run String.length].
  rewrite Hc, (IH Hd). reflexivity.
Qed.

Lemma replace_thousands_eq (prev : option ascii) (s : string) :
  replace_thousands prev s
  = let rest :=
      match s with
      | String c s' => String c (replace_thousands (Some c) s')
      | EmptyString => EmptyString
      end in
    if thousands_match prev s then String " " rest else rest.
Proof. destruct s; reflexivity. Qed.

(** The character before matters only through its class. *)
Lemma replace_thousands_prev (prev prev' : option ascii) (s : string) :
  word_at prev = word_at prev' ->
  replace_thousands prev s = replace_thousands prev' s.
Proof.
  intros H. rewrite (replace_thousands_eq prev), (replace_thousands_eq prev').
  unfold thousands_match. rewrite H. reflexivity.
Qed.

Lemma thousands_match_short (prev : option ascii) (s : string) :
  digit_run s < 3 -> thousands_match prev s = false.
Proof.
  intros H. unfold thousands_match.
  destruct (digit_run s) as [|[|[|n]]]; [| | |lia];
    destruct (Bool.eqb _ _); reflexivity.
Qed.

Lemma replace_thousands_short (s : string) (prev : option ascii) :
  all_digits s -> String.length s < 3 -> replace_thousands prev s = s.
Proof.
  revert prev. induction s as [|c s IH]; intros prev Hd Hn;
    rewrite replace_thousands_eq; cbv zeta;
    rewrite thousands_match_short by (rewrite (digit_run_all _ Hd); exact Hn).
  - reflexivity.
  - destruct Hd as [_ Hd]. cbn [String.length] in Hn.
    rewrite (IH (Some c) Hd) by lia. reflexivity.
Qed.

Lemma thousands_match_start (s : string) :
  all_digits s -> thousands_match None s = false.
Proof.
  intros Hd. unfold thousands_match. destruct s as [|c s]; [reflexivity|].
  destruct Hd as [Hc _]. cbn [first_char word_at].
  rewrite (is_digit_word c Hc). reflexivity.
Qed.

Lemma thousands_match_inside (c : ascii) (s : string) :
  is_digit c = true -> all_digits s -> s <> EmptyString ->
  String.length s mod 3 = 0 ->
  thousands_match (Some c) s = true.
Proof.
  intros Hc Hd Hne Hm. unfold thousands_match.
  rewrite (digit_run_all s Hd), Hm.
  destruct s as [|e s]; [exact (False_ind _ (Hne eq_refl))|].
  destruct Hd as [He _]. cbn [first_char word_at String.length].
  rewrite (is_digit_word c Hc), (is_digit_word e He). reflexivity.
Qed.

Lemma replace_thousands_app (d1 d2 : string) (prev : option ascii) :
  all_digits d1 -> all_digits d2 -> d1 <> EmptyString -> d2 <> EmptyString ->
  String.length d2 mod 3 = 0 ->
  replace_thousands prev (d1 ++ d2)
  = (replace_thousands prev d1 ++ " " ++ replace_thousands None d2)%string.
Proof.
  intros H1 H2 Hne1 Hne2 Hm. revert prev H1 Hne1.
  induction d1 as [|c d1 IH]; intros prev H1 Hne1.
  { exact (False_ind _ (Hne1 eq_refl)). }
  destruct H1 as [Hc H1].
  assert (Hsame : thousands_match prev (String c d1 ++ d2)
                  = thousands_match prev (String c d1)).
  { unfold thousands_match. cbn [String.append first_char digit_run].
    rewrite Hc, (digit_run_app d1 d2 H1), (digit_run_all d1 H1), (digit_run_all d2 H2).
    replace (S (String.length d1 + String.length d2) mod 3)
      with (S (String.length d1) mod 3); [reflexivity|].
    pose proof (Nat.div_mod_eq (String.length d2) 3) as Hdiv. rewrite Hm in Hdiv.
    rewrite Hdiv, Nat.add_0_r.
    change (S (String.length d1 + 3 * (String.length d2 / 3)))
      with (S (String.length d1) + 3 * (String.length d2 / 3)).
    rewrite (Nat.mul_comm 3), Nat.Div0.mod_add. reflexivity. }
  assert (Hrest : replace_thousands (Some c) (d1 ++ d2)
                  = (replace_thousands (Some c) d1 ++ " "
                     ++ replace_thousands None d2)%string).
  { destruct d1 as [|e d1'].
    - cbn [String.append].
      rewrite (replace_thousands_eq (Some c) d2), (replace_thousands_eq None d2).
      cbv zeta.
      rewrite (thousands_match_inside c d2 Hc H2 Hne2 Hm), (thousands_match_start d2 H2).
      rewrite (replace_thousands_eq (Some c) EmptyString). cbv zeta.
      rewrite thousands_match_short by (simpl; lia). reflexivity.
    - apply IH; [exact H1 | discriminate]. }
  rewrite (replace_thousands_eq prev (String c d1 ++ d2)),
          (replace_thousands_eq prev (String c d1)).
  cbv zeta. rewrite Hsame. cbn [String.append]. rewrite Hrest.
  destruct (thousands_match prev (String c d1)); reflexivity.
Qed.

(** X19: how the digits are grouped.  In the whole part, up to three digits
    stay together, a block of digits whose length is a multiple of three is
    split off from the digits before it by one space, and a leading sign or
    other non-word character is passed over; so the groups of three are
    counted from the right.  In the part behind the dot, up to three
    characters stay as they are, and three digits followed by a digit are
    split off from what follows; so the groups are counted from the left. *)
Theorem digits_grouped_by_three :
  (forall d, all_digits d -> String.length d <= 3 -> replace_thousands None d = d) /\
  (forall d1 d2,
     all_digits d1 -> all_digits d2 -> d1 <> EmptyString -> d2 <> EmptyString ->
     String.length d2 mod 3 = 0 ->
     replace_thousands None (d1 ++ d2)
     = (replace_thousands None d1 ++ " " ++ replace_thousands None d2)%string) /\
  (forall c s,
     is_word c = false ->
     replace_thousands None (String c s) = String c (replace_thousands None s)) /\
  (forall d, String.length d <= 3 -> replace_decimals d = d) /\
  (forall d1 c d2,
     all_digits d1 -> String.length d1 = 3 -> is_digit c = true ->
     replace_decimals (d1 ++ String c d2)
     = (d1 ++ " " ++ replace_decimals (String c d2))%string).
Proof.
  split.
  { intros d Hd Hn. destruct d as [|c d]; [reflexivity|].
    rewrite replace_thousands_eq. cbv zeta.
    rewrite (thousands_match_start _ Hd). destruct Hd as [_ Hd].
    cbn [String.length] in Hn.
    rewrite (replace_thousands_short d (Some c) Hd) by lia. reflexivity. }
  split.
  { intros d1 d2 H1 H2 Hne1 Hne2 Hm.
    exact (replace_thousands_app d1 d2 None H1 H2 Hne1 Hne2 Hm). }
  split.
  { intros c s Hc. rewrite replace_thousands_eq. cbv zeta.
    rewrite thousands_match_short
      by (cbn [digit_run]; rewrite (not_word_not_digit c Hc); lia).
    rewrite (replace_thousands_prev (Some c) None s) by (cbn [word_at]; exact Hc).
    reflexivity. }
  split.
  { intros d Hn. destruct d as [|c1 [|c2 [|c3 [|c4 r]]]]; try reflexivity.
    cbn [String.length] in Hn. lia. }
  intros d1 c d2 Hd Hn Hc.
  destruct d1 as [|c1 [|c2 [|c3 [|c4 r]]]]; try discriminate Hn.
  destruct Hd as (H1 & H2 & H3 & _).
  cbn [String.append]. rewrite replace_decimals_four, H1, H2, H3, Hc. reflexivity.
Qed.

(** ** The order of the input *)

(** Two sorted arrangements of the same elements are the same list, when
    no two different elements share a key. *)
Lemma sorted_perm_unique {A : Type} (key : A -> Z) (l1 l2 : list A) :
  StronglySorted (key_le key) l1 -> StronglySorted (key_le key) l2 ->
  Permutation l1 l2 ->
  (forall a b, In a l1 -> In b l1 -> key a = key b -> a = b) ->
  l1 = l2.
Proof.
  revert l2. induction l1 as [|a l1 IH]; intros l2 H1 H2 Hp Hinj.
  - apply Permutation_nil in Hp. subst l2. reflexivity.
  - destruct l2 as [|b l2].
    { apply Permutation_sym, Permutation_nil in Hp. discriminate. }
    apply StronglySorted_inv in H1. destruct H1 as [H1 Ha].
    apply StronglySorted_inv in H2. destruct H2 as [H2 Hb].
    rewrite List.Forall_forall in Ha, Hb.
    assert (Hbin : In b (a :: l1)).
    { apply (Permutation_in b (Permutation_sym Hp)). left. reflexivity. }
    assert (Hain : In a (b :: l2)).
    { apply (Permutation_in a Hp). left. reflexivity. }
    assert (Hab : a = b).
    { apply Hinj; [left; reflexivity | exact Hbin |].
      assert (Hle1 : (key a <= key b)%Z).
      { destruct Hbin as [<-|Hbin]; [lia | exact (Ha b Hbin)]. }
      assert (Hle2 : (key b <= key a)%Z).
      { destruct Hain as [<-|Hain]; [lia | exact (Hb a Hain)]. }
      lia. }
    subst b. f_equal. apply IH; [exact H1 | exact H2 | |].
    + exact (Permutation_cons_inv Hp).
    + intros x y Hx Hy. apply Hinj; right; assumption.
Qed.

Section EngineOrder.

Variable fromDateStr : string -> Z.

(** X20: the order of the input rows does not matter when the usable rows
    have different dates: the same rows in another order give the same
    result and leave the same store. *)
Theorem computeXmrStats_any_order (data data' : list loc) (h : heap) :
  Permutation data data' ->
  (forall a b, In a data -> In b data ->
     keeps (deref h a) = true -> keeps (deref h b) = true ->
     date_of fromDateStr h a = date_of fromDateStr h b -> a = b) ->
  computeXmrStats fromDateStr data' h = computeXmrStats fromDateStr data h.
Proof.
  intros Hp Hinj.
  assert (Htd : tableData_of fromDateStr data' h = tableData_of fromDateStr data h).
  { apply (sorted_perm_unique (date_of fromDateStr h)).
    - apply tableData_sorted.
    - apply tableData_sorted.
    - unfold tableData_of.
      rewrite !sortDataValues_perm. unfold removeAllNulls.
      apply Permutation_sym. revert Hp. generalize data, data'.
      induction 1 as [|x l l' _ IH|x y l|l l' l'' _ IH1 _ IH2]; simpl.
      + constructor.
      + destruct (keeps (deref h x)); [constructor|]; exact IH.
      + destruct (keeps (deref h x)), (keeps (deref h y));
          try apply Permutation_refl. apply perm_swap.
      + exact (Permutation_trans IH1 IH2).
    - intros a b Ha Hb. apply tableData_In in Ha, Hb.
      destruct Ha as [Ha Hka]. destruct Hb as [Hb Hkb].
      apply Permutation_sym in Hp.
      apply Hinj; try assumption;
        [exact (Permutation_in a Hp Ha) | exact (Permutation_in b Hp Hb)]. }
  unfold tableData_of in Htd. unfold computeXmrStats. rewrite Htd. reflexivity.
Qed.

End EngineOrder.

(** ** The statuses the rows come with *)

Lemma valid_refs_In (h : heap) (data : list loc) (l : loc) :
  valid_refs h data -> In l data -> l < length h.
Proof.
  unfold valid_refs. rewrite Forall_forall. intros Hv Hl.
  apply Hv, list_elem_of_In, Hl.
Qed.

Lemma forEach_ext_in {A S : Type} (arr : list A) (f g : A -> S -> S) (s : S) :
  (forall a, In a arr -> forall s, f a s = g a s) ->
  forEach arr f s = forEach arr g s.
Proof.
  unfold forEach. revert s. induction arr as [|a arr IH]; intros s H; simpl.
  - reflexivity.
  - rewrite (H a (or_introl eq_refl)). apply IH.
    intros b Hb. apply H. right. exact Hb.
Qed.

Lemma sum_values_map (h : heap) (arr : list loc) :
  sum_values h arr = fold_left Qplus (map (value_of h) arr) 0%Q.
Proof.
  unfold sum_values. generalize 0%Q.
  induction arr as [|a arr IH]; intros q; simpl; [reflexivity | apply IH].
Qed.

(** The limits are a function of the values of the series. *)
Lemma calculateLimits_values_only (td : list loc) (h h' : heap) :
  valid_refs h td -> valid_refs h' td ->
  map (value_of h) td = map (value_of h') td ->
  fst (calculateLimits td h) = fst (calculateLimits td h').
Proof.
  intros Hv Hv' Hval.
  pose proof (getMovements_values td h Hv) as Hm.
  pose proof (getMovements_values td h' Hv') as Hm'.
  pose proof (valid_refs_values_old td h Hv) as Ho.
  pose proof (valid_refs_values_old td h' Hv') as Ho'.
  unfold calculateLimits.
  destruct (getMovements td h) as [m1 g1]. destruct (getMovements td h') as [m2 g2].
  cbn [fst snd] in *.
  assert (E1 : map (value_of g1) td = map (value_of g2) td) by congruence.
  assert (E2 : map (value_of g1) m1 = map (value_of g2) m2) by congruence.
  assert (E3 : length m1 = length m2).
  { rewrite <- (length_map (value_of g1) m1), E2. apply length_map. }
  rewrite !sum_values_map, E1, E2, E3. reflexivity.
Qed.

(** So is the status that the three rules leave. *)
Lemma values_pass_values_only (td : list loc) (lim : Limits) (h h' : heap) (l : loc) :
  valid_refs h td -> valid_refs h' td -> agree_on td h h' -> In l td ->
  status_of (values_pass td lim h') l = status_of (values_pass td lim h) l.
Proof.
  intros Hv Hv' Hag Hl.
  destruct (values_pass_classify td lim h l Hv Hl) as [Hout Hin].
  destruct (values_pass_classify td lim h' l Hv' Hl) as [Hout' Hin'].
  rewrite (Hag l Hl) in Hout', Hin'.
  pose proof (in_near_window_agree td (lowerQuartile lim) (upperQuartile lim)
                h h' l Hag) as Hnear.
  pose proof (in_run_window_agree td (avgX lim) h h' l Hag) as Hrun.
  destruct (outside (LNPL lim) (UNPL lim) (value_of h l)).
  { rewrite (Hout eq_refl), (Hout' eq_refl). reflexivity. }
  destruct (Hin eq_refl) as (N & R & Z). destruct (Hin' eq_refl) as (N' & R' & Z').
  set (s := status_of (values_pass td lim h) l) in *.
  set (s' := status_of (values_pass td lim h') l) in *.
  assert (Hdec : s' = s \/ s' <> s).
  { destruct s, s'; (left; reflexivity) || (right; discriminate). }
  destruct Hdec as [E|Hne]; [exact E | exfalso].
  assert (Hn : ~ in_near_window td (lowerQuartile lim) (upperQuartile lim) h l).
  { intros Hw. apply Hne. rewrite (N Hw), (N' (proj1 Hnear Hw)). reflexivity. }
  assert (Hn' : ~ in_near_window td (lowerQuartile lim) (upperQuartile lim) h' l).
  { intros Hw. apply Hn, Hnear, Hw. }
  assert (Hr : ~ in_run_window td (avgX lim) h l).
  { intros Hw. apply Hne. rewrite (R Hn Hw), (R' Hn' (proj1 Hrun Hw)). reflexivity. }
  assert (Hr' : ~ in_run_window td (avgX lim) h' l).
  { intros Hw. apply Hr, Hrun, Hw. }
  apply Hne. rewrite (Z Hn Hr), (Z' Hn' Hr'). reflexivity.
Qed.

(** The chart bounds are a function of the limits and of the values. *)
Lemma widen_x_values (h h' : heap) (l l' : list loc) (s s' : Stats) :
  map (value_of h) l = map (value_of h') l' ->
  xchartMin s = xchartMin s' -> xchartMax s = xchartMax s' ->
  xchartMin (forEach l (widen_x h) s) = xchartMin (forEach l' (widen_x h') s') /\
  xchartMax (forEach l (widen_x h) s) = xchartMax (forEach l' (widen_x h') s').
Proof.
  unfold forEach. revert l' s s'.
  induction l as [|a l IH]; intros [|a' l'] s s' Hm Hmin Hmax;
    try discriminate Hm; simpl.
  - split; assumption.
  - simpl in Hm. injection Hm as Ha Hm.
    destruct s as [mn mx mr lvs xs ms]. destruct s' as [mn' mx' mr' lvs' xs' ms'].
    cbn [xchartMin xchartMax] in Hmin, Hmax. subst mn' mx'.
    apply IH; [exact Hm | |]; unfold widen_x, set_xchartMax, set_xchartMin;
      cbn [xchartMin xchartMax mrchartMax lineValues xdataPerRange movementsPerRange];
      rewrite Ha;
      destruct (xltb mx (Finite (value_of h' a')));
      cbn [xchartMin xchartMax mrchartMax lineValues xdataPerRange movementsPerRange];
      destruct (xltb (Finite (value_of h' a')) mn); reflexivity.
Qed.

Lemma widen_mr_values (h h' : heap) (l l' : list loc) (s s' : Stats) :
  map (value_of h) l = map (value_of h') l' ->
  mrchartMax s = mrchartMax s' ->
  mrchartMax (forEach l (widen_mr h) s) = mrchartMax (forEach l' (widen_mr h') s').
Proof.
  unfold forEach. revert l' s s'.
  induction l as [|a l IH]; intros [|a' l'] s s' Hm Hmax;
    try discriminate Hm; simpl.
  - exact Hmax.
  - simpl in Hm. injection Hm as Ha Hm.
    destruct s as [mn mx mr lvs xs ms]. destruct s' as [mn' mx' mr' lvs' xs' ms'].
    cbn [mrchartMax] in Hmax. subst mr'.
    apply IH; [exact Hm|]. unfold widen_mr, set_mrchartMax.
    cbn [xchartMin xchartMax mrchartMax lineValues xdataPerRange movementsPerRange].
    rewrite Ha. destruct (xltb mr (Finite (value_of h' a'))); reflexivity.
Qed.

Section EngineStatus.

Variable fromDateStr : string -> Z.

Lemma tableData_same_fields (data : list loc) (h h' : heap) :
  (forall l, In l data -> same_fields (deref h l) (deref h' l)) ->
  tableData_of fromDateStr data h' = tableData_of fromDateStr data h.
Proof.
  intros Hf. unfold tableData_of.
  rewrite (removeAllNulls_same_fields data h h' Hf).
  unfold sortDataValues. apply Array_sort_ext. intros a b Ha Hb.
  apply removeAllNulls_In in Ha, Hb.
  rewrite (date_of_same_fields fromDateStr h h' a) by (apply Hf, Ha).
  rewrite (date_of_same_fields fromDateStr h h' b) by (apply Hf, Hb).
  reflexivity.
Qed.

Lemma findExtremesX_same_fields (arr : list loc) (h h' : heap) :
  (forall l, In l arr -> same_fields (deref h l) (deref h' l)) ->
  findExtremesX fromDateStr arr h' = findExtremesX fromDateStr arr h.
Proof.
  intros Hf. unfold findExtremesX. apply forEach_ext_in. intros a Ha mm.
  rewrite (date_of_same_fields fromDateStr h h' a) by (apply Hf, Ha).
  reflexivity.
Qed.

Lemma computeXmrStats_status_blind (data : list loc) (h1 h2 : heap) :
  valid_refs h1 data -> valid_refs h2 data ->
  (forall l, In l data -> same_fields (deref h1 l) (deref h2 l)) ->
  let stats1 := fst (computeXmrStats fromDateStr data h1) in
  let stats2 := fst (computeXmrStats fromDateStr data h2) in
  let h1' := snd (computeXmrStats fromDateStr data h1) in
  let h2' := snd (computeXmrStats fromDateStr data h2) in
  lineValues stats2 = lineValues stats1 /\
  xdataPerRange stats2 = xdataPerRange stats1 /\
  xchartMin stats2 = xchartMin stats1 /\
  xchartMax stats2 = xchartMax stats1 /\
  mrchartMax stats2 = mrchartMax stats1 /\
  (forall tableData l, In tableData (xdataPerRange stats1) -> In l tableData ->
     deref h2' l = deref h1' l) /\
  (forall m1 m2,
     In m1 (movementsPerRange stats1) -> In m2 (movementsPerRange stats2) ->
     length m2 = length m1 /\
     forall i, i < length m1 ->
       deref h2' (at_index m2 i) = deref h1' (at_index m1 i)).
Proof.
  intros Hv1 Hv2 Hf stats1 stats2 h1' h2'.
  pose proof (tableData_same_fields data h1 h2 Hf) as Htd.
  destruct (tableData_of fromDateStr data h1) as [|a0 td0] eqn:Hnil.
  { subst stats1 stats2 h1' h2'.
    rewrite (computeXmrStats_empty fromDateStr data h1 Hnil).
    rewrite (computeXmrStats_empty fromDateStr data h2 Htd).
    cbn [fst snd empty_stats lineValues xdataPerRange xchartMin xchartMax
         mrchartMax movementsPerRange].
    repeat (split; [reflexivity|]). split.
    - intros tableData l [].
    - intros m1 m2 []. }
  assert (Hne1 : tableData_of fromDateStr data h1 <> []) by (rewrite Hnil; discriminate).
  assert (Hne2 : tableData_of fromDateStr data h2 <> []) by (rewrite Htd; discriminate).
  rewrite <- Hnil in Htd. clear Hnil a0 td0.
  set (td := tableData_of fromDateStr data h1) in *.
  assert (Hvt1 : valid_refs h1 td) by (apply tableData_valid, Hv1).
  assert (Hvt2 : valid_refs h2 td) by (rewrite <- Htd; apply tableData_valid, Hv2).
  assert (Hft : forall l, In l td -> same_fields (deref h1 l) (deref h2 l)).
  { intros l Hl. apply Hf. apply (tableData_In fromDateStr) in Hl. apply Hl. }
  assert (Hval : forall l, In l td -> value_of h2 l = value_of h1 l).
  { intros l Hl. unfold value_of. rewrite (proj2 (proj2 (Hft l Hl))). reflexivity. }
  assert (Hlim : fst (calculateLimits td h2) = fst (calculateLimits td h1)).
  { apply calculateLimits_values_only; [exact Hvt2 | exact Hvt1 |].
    apply map_ext_in. exact Hval. }
  assert (Hext : findExtremesX fromDateStr td h2 = findExtremesX fromDateStr td h1).
  { apply findExtremesX_same_fields. exact Hft. }
  destruct (computeXmrStats_nonempty fromDateStr data h1 Hne1) as (_ & Hl1 & Hx1 & Hm1).
  destruct (computeXmrStats_nonempty fromDateStr data h2 Hne2) as (_ & Hl2 & Hx2 & Hm2).
  rewrite Htd in Hl2, Hx2, Hm2. fold td in Hl1, Hx1, Hm1.
  fold stats1 in Hl1, Hx1, Hm1. fold stats2 in Hl2, Hx2, Hm2.
  rewrite Hlim, Hext in Hl2. rewrite Hlim in Hm2.
  set (lim := fst (calculateLimits td h1)) in *.
  set (lv := mkLineValue (fst (findExtremesX fromDateStr td h1))
                         (snd (findExtremesX fromDateStr td h1)) lim) in *.
  set (movs1 := fst (getMovements td (values_pass td lim (snd (calculateLimits td h1)))))
    in *.
  set (movs2 := fst (getMovements td (values_pass td lim (snd (calculateLimits td h2)))))
    in *.
  (* the points of the series *)
  assert (Hrows : forall l, In l td -> deref h2' l = deref h1' l).
  { intros l Hl.
    destruct (computeXmrStats_row fromDateStr data h1 l Hv1 Hl) as (Hd1 & Hva & _ & Ha1).
    assert (Hlb : In l (tableData_of fromDateStr data h2)) by (rewrite Htd; exact Hl).
    destruct (computeXmrStats_row fromDateStr data h2 l Hv2 Hlb) as (Hd2 & Hvb & _ & Ha2).
    rewrite Htd in Hd2, Hvb, Ha2. fold td in Hd1, Hva, Ha1.
    fold h1' in Hd1. fold h2' in Hd2. rewrite Hlim in Hd2. fold lim in Hd1, Hd2.
    assert (Hag : agree_on td (snd (calculateLimits td h1)) (snd (calculateLimits td h2))).
    { intros p Hp. rewrite (Ha2 p Hp), (Ha1 p Hp). apply Hval, Hp. }
    pose proof (values_pass_values_only td lim _ _ l Hva Hvb Hag Hl) as Hst.
    unfold status_of in Hst. rewrite <- Hd1, <- Hd2 in Hst.
    pose proof (computeXmrStats_same_fields fromDateStr data h1 l
                  (valid_refs_In h1 td l Hvt1 Hl)) as (O1 & X1 & V1).
    pose proof (computeXmrStats_same_fields fromDateStr data h2 l
                  (valid_refs_In h2 td l Hvt2 Hl)) as (O2 & X2 & V2).
    fold h1' in O1, X1, V1. fold h2' in O2, X2, V2.
    destruct (Hft l Hl) as (O & X & V).
    rewrite <- (DataValue_eta (deref h2' l)), <- (DataValue_eta (deref h1' l)).
    rewrite Hst, <- O1, <- O2, <- X1, <- X2, <- V1, <- V2, O, X, V. reflexivity. }
  assert (Hvals : forall l, In l td -> value_of h2' l = value_of h1' l).
  { intros l Hl. unfold value_of. rewrite (Hrows l Hl). reflexivity. }
  (* the movements *)
  assert (In1 : In lv (lineValues stats1)) by (rewrite Hl1; left; reflexivity).
  assert (In2 : In lv (lineValues stats2)) by (rewrite Hl2; left; reflexivity).
  assert (It1 : In td (xdataPerRange stats1)) by (rewrite Hx1; left; reflexivity).
  assert (It2 : In td (xdataPerRange stats2)) by (rewrite Hx2; left; reflexivity).
  assert (Im1 : In movs1 (movementsPerRange stats1)) by (rewrite Hm1; left; reflexivity).
  assert (Im2 : In movs2 (movementsPerRange stats2)) by (rewrite Hm2; left; reflexivity).
  destruct (computeXmrStats_movements fromDateStr data h1 Hv1 lv td movs1 In1 It1 Im1)
    as [Hlen1 Hmov1].
  destruct (computeXmrStats_movements fromDateStr data h2 Hv2 lv td movs2 In2 It2 Im2)
    as [Hlen2 Hmov2].
  fold h1' in Hmov1. fold h2' in Hmov2.
  assert (Hmovs : forall i, i < length movs1 ->
            deref h2' (at_index movs2 i) = deref h1' (at_index movs1 i)).
  { intros i Hi.
    destruct (Hmov1 (S i) ltac:(lia)) as (O1 & X1 & V1 & _ & S1 & T1).
    destruct (Hmov2 (S i) ltac:(lia)) as (O2 & X2 & V2 & _ & S2 & T2).
    replace (S i - 1) with i in * by lia.
    assert (Hc : In (at_index td (S i)) td) by (apply at_index_In; lia).
    assert (Hp : In (at_index td i) td) by (apply at_index_In; lia).
    rewrite (Hrows _ Hc) in O2, X2. rewrite (Hvals _ Hc), (Hvals _ Hp) in V2.
    assert (Hvm : value_of h2' (at_index movs2 i) = value_of h1' (at_index movs1 i)).
    { unfold value_of. rewrite V1, V2. reflexivity. }
    rewrite Hvm in S2, T2.
    assert (Hs : status_of h2' (at_index movs2 i) = status_of h1' (at_index movs1 i)).
    { destruct (Qlt_le_dec (URL (lineLimits lv)) (value_of h1' (at_index movs1 i)))
        as [Hgt|Hle].
      - rewrite (S1 Hgt), (S2 Hgt). reflexivity.
      - rewrite (T1 Hle), (T2 Hle). reflexivity. }
    unfold status_of in Hs.
    rewrite <- (DataValue_eta (deref h2' (at_index movs2 i))),
            <- (DataValue_eta (deref h1' (at_index movs1 i))).
    rewrite Hs, O1, O2, X1, X2, V1, V2. reflexivity. }
  (* the bounds *)
  pose proof (computeXmrStats_stats fromDateStr data h1 Hne1) as Hs1.
  pose proof (computeXmrStats_stats fromDateStr data h2 Hne2) as Hs2.
  cbv zeta in Hs1, Hs2.
  rewrite (tableData_kept_after fromDateStr data h1 Hv1) in Hs1.
  rewrite (tableData_kept_after fromDateStr data h2 Hv2) in Hs2.
  rewrite Htd, Hlim, Hext in Hs2.
  fold td lim lv movs1 h1' stats1 in Hs1. fold td lim lv movs2 h2' stats2 in Hs2.
  assert (Hmapx : map (value_of h2') td = map (value_of h1') td).
  { apply map_ext_in. exact Hvals. }
  assert (Hmapm : map (value_of h2') movs2 = map (value_of h1') movs1).
  { apply list_eq_same_length with (length movs1).
    - rewrite length_map. reflexivity.
    - rewrite length_map. lia.
    - intros i a b Hi Ha Hb. rewrite list_lookup_fmap in Ha, Hb.
      assert (E2 : movs2 !! i = Some (at_index movs2 i)).
      { unfold at_index. apply list_lookup_lookup_total_lt. lia. }
      assert (E1 : movs1 !! i = Some (at_index movs1 i)).
      { unfold at_index. apply list_lookup_lookup_total_lt. lia. }
      rewrite E2 in Ha. rewrite E1 in Hb. cbn in Ha, Hb.
      injection Ha as <-. injection Hb as <-.
      unfold value_of. rewrite (Hmovs i Hi). reflexivity. }
  destruct (widen_x_values h2' h1' td td (limits_stats lv td movs2)
              (limits_stats lv td movs1) Hmapx eq_refl eq_refl) as [Wmin Wmax].
  destruct (widen_x_loop h1' td (limits_stats lv td movs1) _ _ eq_refl eq_refl)
    as (? & ? & _ & _ & _ & _ & _ & _ & _ & A1 & _).
  destruct (widen_x_loop h2' td (limits_stats lv td movs2) _ _ eq_refl eq_refl)
    as (? & ? & _ & _ & _ & _ & _ & _ & _ & A2 & _).
  pose proof (widen_mr_values h2' h1' movs2 movs1
                (forEach td (widen_x h2') (limits_stats lv td movs2))
                (forEach td (widen_x h1') (limits_stats lv td movs1))
                Hmapm ltac:(rewrite A1, A2; reflexivity)) as Wtop.
  destruct (widen_mr_loop h1' movs1 (forEach td (widen_x h1') (limits_stats lv td movs1))
              (URL lim) ltac:(rewrite A1; reflexivity))
    as (? & _ & _ & _ & _ & B1 & C1 & _).
  destruct (widen_mr_loop h2' movs2 (forEach td (widen_x h2') (limits_stats lv td movs2))
              (URL lim) ltac:(rewrite A2; reflexivity))
    as (? & _ & _ & _ & _ & B2 & C2 & _).
  split; [rewrite Hl1, Hl2; reflexivity|].
  split; [rewrite Hx1, Hx2; reflexivity|].
  split; [rewrite Hs1, Hs2, B1, B2; exact Wmin|].
  split; [rewrite Hs1, Hs2, C1, C2; exact Wmax|].
  split; [rewrite Hs1, Hs2; exact Wtop|].
  split.
  - intros tableData l Ht Hl. rewrite Hx1 in Ht. destruct Ht as [<-|[]].
    apply Hrows, Hl.
  - intros m1 m2 M1 M2. rewrite Hm1 in M1. rewrite Hm2 in M2.
    destruct M1 as [<-|[]]. destruct M2 as [<-|[]].
    split; [lia | exact Hmovs].
Qed.

End EngineStatus.

Section EngineAgain.

Variable fromDateStr : string -> Z.

Lemma computeXmrStats_grows (data : list loc) (h : heap) :
  length h <= length (snd (computeXmrStats fromDateStr data h)).
Proof.
  destruct (tableData_of fromDateStr data h) as [|a td] eqn:Htd.
  - rewrite computeXmrStats_empty by exact Htd. reflexivity.
  - assert (Hne : tableData_of fromDateStr data h <> []) by (rewrite Htd; discriminate).
    destruct (computeXmrStats_nonempty fromDateStr data h Hne) as (Hh & _).
    rewrite Hh.
    rewrite (proj1 (status_only_movements_pass _ _ _)).
    etransitivity; [|apply extends_length, getMovements_extends].
    rewrite (proj1 (status_only_values_pass _ _ _)).
    apply extends_length, calculateLimits_extends.
Qed.

(** X21: the result does not depend on the statuses the rows come with.
    Two stores whose rows have the same [order], [x] and [value] give the
    same line of limits, the same range of values and the same chart
    bounds, leave every point of the series in the same state, status
    included, and produce movements that are equal one by one. *)
Theorem computeXmrStats_ignores_status (data : list loc) (h1 h2 : heap) :
  valid_refs h1 data -> valid_refs h2 data ->
  (forall l, In l data -> same_fields (deref h1 l) (deref h2 l)) ->
  let stats1 := fst (computeXmrStats fromDateStr data h1) in
  let stats2 := fst (computeXmrStats fromDateStr data h2) in
  let h1' := snd (computeXmrStats fromDateStr data h1) in
  let h2' := snd (computeXmrStats fromDateStr data h2) in
  lineValues stats2 = lineValues stats1 /\
  xdataPerRange stats2 = xdataPerRange stats1 /\
  xchartMin stats2 = xchartMin stats1 /\
  xchartMax stats2 = xchartMax stats1 /\
  mrchartMax stats2 = mrchartMax stats1 /\
  (forall tableData l, In tableData (xdataPerRange stats1) -> In l tableData ->
     deref h2' l = deref h1' l) /\
  (forall m1 m2,
     In m1 (movementsPerRange stats1) -> In m2 (movementsPerRange stats2) ->
     length m2 = length m1 /\
     forall i, i < length m1 ->
       deref h2' (at_index m2 i) = deref h1' (at_index m1 i)).
Proof. exact (computeXmrStats_status_blind fromDateStr data h1 h2). Qed.

(** X22: running [computeXmrStats] a second time on the same array changes
    nothing: the second result has the same line of limits, the same range
    of values and the same chart bounds as the first, every point of the
    series keeps the state the first run left it in, and the movements of
    the second run, which are new objects, equal those of the first one by
    one. *)
Theorem computeXmrStats_again (data : list loc) (h : heap) :
  valid_refs h data ->
  let stats1 := fst (computeXmrStats fromDateStr data h) in
  let h1 := snd (computeXmrStats fromDateStr data h) in
  let stats2 := fst (computeXmrStats fromDateStr data h1) in
  let h2 := snd (computeXmrStats fromDateStr data h1) in
  lineValues stats2 = lineValues stats1 /\
  xdataPerRange stats2 = xdataPerRange stats1 /\
  xchartMin stats2 = xchartMin stats1 /\
  xchartMax stats2 = xchartMax stats1 /\
  mrchartMax stats2 = mrchartMax stats1 /\
  (forall tableData l, In tableData (xdataPerRange stats1) -> In l tableData ->
     deref h2 l = deref h1 l) /\
  (forall m1 m2,
     In m1 (movementsPerRange stats1) -> In m2 (movementsPerRange stats2) ->
     length m2 = length m1 /\
     forall i, i < length m1 ->
       deref h2 (at_index m2 i) = deref h1 (at_index m1 i)).
Proof.
  intros Hv.
  assert (Hv' : valid_refs (snd (computeXmrStats fromDateStr data h)) data).
  { unfold valid_refs in *. eapply Forall_impl; [exact Hv|].
    intros l Hl. cbv beta in *. pose proof (computeXmrStats_grows data h). lia. }
  apply (computeXmrStats_status_blind fromDateStr data h
           (snd (computeXmrStats fromDateStr data h)) Hv Hv').
  intros l Hl. apply computeXmrStats_same_fields.
  apply (valid_refs_In h data l Hv Hl).
Qed.

End EngineAgain.

(** ** Examples of the further properties *)

Lemma sixteen_refs_valid : valid_refs sixteen_rows sixteen_refs.
Proof.
  unfold valid_refs. apply Forall_forall. intros l Hl.
  apply list_elem_of_In, in_seq in Hl. simpl. lia.
Qed.

Lemma sixteen_line_In :
  In sixteen_line
     (lineValues (fst (computeXmrStats iso_date_number sixteen_refs sixteen_rows))).
Proof. vm_compute. left. reflexivity. Qed.

Lemma sixteen_refs_In :
  In sixteen_refs
     (xdataPerRange (fst (computeXmrStats iso_date_number sixteen_refs sixteen_rows))).
Proof. vm_compute. left. reflexivity. Qed.

Lemma rules_leave_other_objects_witness :
  ~ In 8 eight_refs /\
  deref (checkRunOfEight eight_refs 5 nine_rows) 8 = deref nine_rows 8.
Proof.
  assert (Hout : ~ In 8 eight_refs).
  { unfold eight_refs. intros Hin. apply in_seq in Hin. lia. }
  split; [exact Hout|].
  exact (proj1 (proj2 (rules_leave_other_objects eight_refs 5 0 0 nine_rows 8 Hout))).
Defined.

Lemma deepClone_spec_witness :
  valid_refs three_rows three_refs /\
  length (fst (deepClone three_refs three_rows)) = length three_refs.
Proof.
  assert (Hv : valid_refs three_rows three_refs) by (repeat constructor).
  split; [exact Hv|].
  exact (proj1 (deepClone_spec three_refs three_rows Hv)).
Defined.

Lemma four_near_limit_declarative_witness :
  valid_refs five_rows five_refs /\
  status_of (checkFourNearLimit five_refs 3 8 five_rows) (at_index five_refs 0)
  = FOUR_NEAR_LIMIT_EXCEPTION.
Proof.
  split; [exact five_refs_valid|].
  apply (proj1 (four_near_limit_declarative five_refs 3 8 five_rows five_refs_valid)).
  right. exists 0, 0. split; [reflexivity|]. split; [lia|].
  split; [simpl; lia|]. right. vm_compute. discriminate.
Defined.

Lemma deepClone_protects_original_witness :
  valid_refs sixteen_rows sixteen_refs /\ 15 < length sixteen_rows /\
  deref (snd (computeXmrStats iso_date_number
                (fst (deepClone sixteen_refs sixteen_rows))
                (snd (deepClone sixteen_refs sixteen_rows)))) 15
  = deref sixteen_rows 15.
Proof.
  assert (Hl : 15 < length sixteen_rows) by (simpl; lia).
  split; [exact sixteen_refs_valid|]. split; [exact Hl|].
  exact (deepClone_protects_original iso_date_number sixteen_refs sixteen_rows
           sixteen_refs_valid 15 Hl).
Defined.

Lemma final_status_by_overwrite_witness :
  valid_refs sixteen_rows sixteen_refs /\
  status_of (snd sixteen_result) 8 = FOUR_NEAR_LIMIT_EXCEPTION.
Proof.
  split; [exact sixteen_refs_valid|].
  assert (Hin : In 8 sixteen_refs) by (unfold sixteen_refs; apply in_seq; lia).
  unfold sixteen_result.
  refine (proj1 (proj2 (final_status_by_overwrite iso_date_number sixteen_refs
                          sixteen_rows sixteen_refs_valid sixteen_line sixteen_refs 8
                          sixteen_line_In sixteen_refs_In Hin)) _ _).
  - intros [H|H]; vm_compute in H; discriminate.
  - exists 8, 8. split; [reflexivity|]. split; [lia|].
    split; [simpl; lia|]. right. vm_compute. discriminate.
Defined.

Lemma findExtremesX_spec_witness :
  usable_refs <> [] /\
  exists lo hi,
    In lo usable_refs /\ In hi usable_refs /\
    findExtremesX iso_date_number usable_refs mixed_rows
    = (Finite (inject_Z (date_of iso_date_number mixed_rows lo)),
       Finite (inject_Z (date_of iso_date_number mixed_rows hi))) /\
    forall l, In l usable_refs ->
      (date_of iso_date_number mixed_rows lo <= date_of iso_date_number mixed_rows l
       <= date_of iso_date_number mixed_rows hi)%Z.
Proof.
  assert (Hne : usable_refs <> []) by discriminate.
  split; [exact Hne|].
  exact (proj2 (findExtremesX_spec iso_date_number usable_refs mixed_rows) Hne).
Defined.

Lemma computeXmrStats_shape_witness :
  removeAllNulls mixed_refs mixed_rows <> [] /\
  xdataPerRange (fst (computeXmrStats iso_date_number mixed_refs mixed_rows))
  = [tableData_of iso_date_number mixed_refs mixed_rows].
Proof.
  assert (Hne : removeAllNulls mixed_refs mixed_rows <> [])
    by (vm_compute; discriminate).
  split; [exact Hne|].
  destruct (proj2 (computeXmrStats_shape iso_date_number mixed_refs mixed_rows) Hne)
    as (lv & movements & _ & Hx & _).
  exact Hx.
Defined.

Lemma preprocessing_again_witness :
  (forall l, In l mixed_refs ->
     same_fields (deref mixed_rows l) (deref mixed_rows_flagged l)) /\
  tableData_of iso_date_number mixed_refs mixed_rows_flagged
  = tableData_of iso_date_number mixed_refs mixed_rows.
Proof.
  assert (Hf : forall l, In l mixed_refs ->
            same_fields (deref mixed_rows l) (deref mixed_rows_flagged l)).
  { intros l Hl. unfold mixed_refs in Hl.
    repeat (destruct Hl as [<-|Hl]; [repeat split|]). destruct Hl. }
  split; [exact Hf|].
  exact (proj2 (proj2 (proj2 (preprocessing_again iso_date_number mixed_refs
                                mixed_rows))) mixed_rows_flagged Hf).
Defined.

Lemma colours_of_points_witness :
  valid_refs sixteen_rows sixteen_refs /\
  dataStatusColor (status_of (snd sixteen_result) 15) = "red"%string.
Proof.
  split; [exact sixteen_refs_valid|].
  assert (Hin : In 15 sixteen_refs) by (unfold sixteen_refs; apply in_seq; lia).
  unfold sixteen_result.
  refine (proj2 (proj2 (proj2 (colours_of_points iso_date_number sixteen_refs
                                 sixteen_rows sixteen_refs_valid))
                   sixteen_line sixteen_refs 15
                   sixteen_line_In sixteen_refs_In Hin) _).
  right. vm_compute. reflexivity.
Defined.

Lemma numberStringSpaced_only_adds_spaces_witness :
  show_hundredths large_amount = ("1234567" ++ "." ++ "25")%string /\
  dot_free "1234567" /\ dot_free "25" /\ "25"%string <> EmptyString /\
  strip_spaces (numberStringSpaced show_hundredths large_amount)
  = strip_spaces (show_hundredths large_amount).
Proof.
  assert (Hs : show_hundredths large_amount = ("1234567" ++ "." ++ "25")%string)
    by (vm_compute; reflexivity).
  assert (Hi : dot_free "1234567") by (simpl; repeat split; discriminate).
  assert (Hd : dot_free "25") by (simpl; repeat split; discriminate).
  assert (Hne : "25"%string <> EmptyString) by discriminate.
  split; [exact Hs|]. split; [exact Hi|]. split; [exact Hd|]. split; [exact Hne|].
  apply (proj2 (proj2 (numberStringSpaced_only_adds_spaces show_hundredths
                         large_amount))).
  right. exists "1234567"%string, "25"%string.
  split; [exact Hs|]. split; [exact Hi|]. split; [exact Hd | exact Hne].
Defined.

Lemma digits_grouped_by_three_witness :
  all_digits "1" /\ all_digits "234" /\
  "1"%string <> EmptyString /\ "234"%string <> EmptyString /\
  String.length "234" mod 3 = 0 /\
  replace_thousands None ("1" ++ "234")
  = (replace_thousands None "1" ++ " " ++ replace_thousands None "234")%string.
Proof.
  assert (H1 : all_digits "1") by (simpl; repeat split).
  assert (H2 : all_digits "234") by (simpl; repeat split).
  assert (Hne1 : "1"%string <> EmptyString) by discriminate.
  assert (Hne2 : "234"%string <> EmptyString) by discriminate.
  assert (Hm : String.length "234" mod 3 = 0) by reflexivity.
  split; [exact H1|]. split; [exact H2|]. split; [exact Hne1|].
  split; [exact Hne2|]. split; [exact Hm|].
  exact (proj1 (proj2 digits_grouped_by_three) "1"%string "234"%string
           H1 H2 Hne1 Hne2 Hm).
Defined.

(** The large amount, a negative number and a long tail of decimals. *)
Example spaced_numbers :
  numberStringSpaced show_hundredths large_amount = "1 234 567.25"%string /\
  numberStringSpaced show_hundredths (- large_amount) = "-1 234 567.25"%string /\
  numberStringSpaced show_hundredths 1000 = "1 000"%string /\
  numberStringSpaced show_hundredths (1 # 2) = "0.5"%string /\
  replace_decimals "1234567" = "123 456 7"%string.
Proof. vm_compute. repeat split. Qed.

Lemma computeXmrStats_any_order_witness :
  Permutation three_refs three_refs_reversed /\
  (forall a b, In a three_refs -> In b three_refs ->
     keeps (deref three_rows a) = true -> keeps (deref three_rows b) = true ->
     date_of iso_date_number three_rows a = date_of iso_date_number three_rows b ->
     a = b) /\
  computeXmrStats iso_date_number three_refs_reversed three_rows
  = computeXmrStats iso_date_number three_refs three_rows.
Proof.
  assert (Hp : Permutation three_refs three_refs_reversed).
  { unfold three_refs, three_refs_reversed.
    apply Permutation_trans with [1; 0; 2]; [apply perm_swap|].
    apply Permutation_trans with [1; 2; 0]; [apply perm_skip, perm_swap|].
    apply perm_swap. }
  assert (Hd : forall a b, In a three_refs -> In b three_refs ->
     keeps (deref three_rows a) = true -> keeps (deref three_rows b) = true ->
     date_of iso_date_number three_rows a = date_of iso_date_number three_rows b ->
     a = b).
  { intros a b Ha Hb _ _ Hab.
    destruct Ha as [<-|[<-|[<-|[]]]]; destruct Hb as [<-|[<-|[<-|[]]]];
      try reflexivity; vm_compute in Hab; discriminate Hab. }
  split; [exact Hp|]. split; [exact Hd|].
  exact (computeXmrStats_any_order iso_date_number three_refs three_refs_reversed
           three_rows Hp Hd).
Defined.

Lemma same_fields_map_with_status (s : DataStatus) (h : heap) (l : loc) :
  l < length h -> same_fields (deref h l) (deref (map (with_status s) h) l).
Proof.
  intros Hl. unfold deref.
  change (map (with_status s) h) with (with_status s <$> h).
  rewrite (list_lookup_total_fmap (with_status s)) by exact Hl.
  destruct (h !!! l). repeat split.
Qed.

Lemma computeXmrStats_ignores_status_witness :
  valid_refs sixteen_rows sixteen_refs /\
  valid_refs sixteen_rows_flagged sixteen_refs /\
  (forall l, In l sixteen_refs ->
     same_fields (deref sixteen_rows l) (deref sixteen_rows_flagged l)) /\
  lineValues (fst (computeXmrStats iso_date_number sixteen_refs sixteen_rows_flagged))
  = lineValues (fst (computeXmrStats iso_date_number sixteen_refs sixteen_rows)).
Proof.
  assert (Hv' : valid_refs sixteen_rows_flagged sixteen_refs).
  { unfold valid_refs. apply Forall_forall. intros l Hl.
    apply list_elem_of_In, in_seq in Hl. simpl. lia. }
  assert (Hf : forall l, In l sixteen_refs ->
            same_fields (deref sixteen_rows l) (deref sixteen_rows_flagged l)).
  { intros l Hl. apply same_fields_map_with_status.
    apply (valid_refs_In _ _ _ sixteen_refs_valid Hl). }
  split; [exact sixteen_refs_valid|]. split; [exact Hv'|]. split; [exact Hf|].
  pose proof (computeXmrStats_ignores_status iso_date_number sixteen_refs
                sixteen_rows sixteen_rows_flagged sixteen_refs_valid Hv' Hf) as H.
  cbv zeta in H. exact (proj1 H).
Defined.

Lemma computeXmrStats_again_witness :
  valid_refs sixteen_rows sixteen_refs /\
  lineValues
    (fst (computeXmrStats iso_date_number sixteen_refs
            (snd (computeXmrStats iso_date_number sixteen_refs sixteen_rows))))
  = lineValues (fst (computeXmrStats iso_date_number sixteen_refs sixteen_rows)).
Proof.
  split; [exact sixteen_refs_valid|].
  pose proof (computeXmrStats_again iso_date_number sixteen_refs sixteen_rows
                sixteen_refs_valid) as H.
  cbv zeta in H. exact (proj1 H).
Defined.

(** * Verification of the binary64 engine *)

(** The statements below are about the engine of the module [Binary64]; the
    names of the functions are those of the module. *)
Section Binary64Facts.

Import Binary64.

(** ** The object store *)

Lemma b64_valid_refs_at h data i :
  valid_refs h data -> i < length data -> at_index data i < length h.
Proof.
  intros Hv Hi. unfold valid_refs in Hv. rewrite Forall_lookup in Hv.
  apply (Hv i). unfold at_index. apply list_lookup_lookup_total_lt. exact Hi.
Qed.

Lemma b64_deref_app_old (h ext : heap) l :
  l < length h -> deref (h ++ ext) l = deref h l.
Proof. intros Hl. unfold deref. apply lookup_total_app_l. exact Hl. Qed.

Lemma b64_length_set_status l s h : length (set_status l s h) = length h.
Proof. unfold set_status. apply length_alter. Qed.

Lemma b64_deref_set_status_ne l l' s h :
  l <> l' -> deref (set_status l s h) l' = deref h l'.
Proof. intros Hne. unfold deref, set_status. apply list_lookup_total_alter_ne. exact Hne. Qed.

Lemma b64_deref_set_status_eq l s h :
  l < length h -> deref (set_status l s h) l = with_status s (deref h l).
Proof. intros Hl. unfold deref, set_status. apply list_lookup_total_alter_eq. exact Hl. Qed.

Lemma b64_deref_set_status_out l s h : length h <= l -> set_status l s h = h.
Proof.
  intros Hl. unfold set_status. apply list_eq. intros i.
  destruct (decide (l = i)) as [->|Hne].
  - rewrite list_lookup_alter_eq.
    rewrite (lookup_ge_None_2 h i) by exact Hl. reflexivity.
  - apply list_lookup_alter_ne. exact Hne.
Qed.

Lemma b64_same_fields_refl d : same_fields d d.
Proof. repeat split. Qed.

Lemma b64_same_fields_trans d1 d2 d3 :
  same_fields d1 d2 -> same_fields d2 d3 -> same_fields d1 d3.
Proof. unfold same_fields. intros (?&?&?) (?&?&?). repeat split; congruence. Qed.

Lemma b64_same_fields_set_status l l' s h :
  same_fields (deref h l') (deref (set_status l s h) l').
Proof.
  destruct (decide (l = l')) as [->|Hne].
  - destruct (Nat.lt_ge_cases l' (length h)) as [Hlt|Hge].
    + rewrite b64_deref_set_status_eq by exact Hlt. repeat split.
    + rewrite b64_deref_set_status_out by exact Hge. apply b64_same_fields_refl.
  - rewrite b64_deref_set_status_ne by exact Hne. apply b64_same_fields_refl.
Qed.

Lemma b64_status_of_set_status_eq l s h :
  l < length h -> status_of (set_status l s h) l = s.
Proof. intros Hl. unfold status_of. rewrite b64_deref_set_status_eq by exact Hl. reflexivity. Qed.

Lemma b64_status_of_set_status_ne l l' s h :
  l <> l' -> status_of (set_status l s h) l' = status_of h l'.
Proof. intros Hne. unfold status_of. rewrite b64_deref_set_status_ne by exact Hne. reflexivity. Qed.

(** ** Movements *)

Lemma b64_getMovements_unfold xdata h :
  getMovements xdata h = for_loop 1 (length xdata) (movements_body xdata) ([], h).
Proof. reflexivity. Qed.

Lemma b64_movement_of_app h ext xdata i :
  valid_refs h xdata -> 1 <= i < length xdata ->
  movement_of (h ++ ext) xdata i = movement_of h xdata i.
Proof.
  intros Hv Hi. unfold movement_of, value_of.
  rewrite !b64_deref_app_old by (apply b64_valid_refs_at; [exact Hv | lia]).
  reflexivity.
Qed.

(** The loop of [getMovements] after index [k]: the new objects sit, in
    order, right after the old store. *)
Lemma b64_getMovements_loop xdata h k :
  valid_refs h xdata -> k < length xdata ->
  for_loop 1 (S k) (movements_body xdata) ([], h)
  = (seq (length h) k, h ++ map (movement_of h xdata) (seq 1 k)).
Proof.
  intros Hv. induction k as [|k IH]; intros Hk.
  - rewrite for_loop_ge by lia. simpl. rewrite app_nil_r. reflexivity.
  - rewrite for_loop_S by lia. rewrite IH by lia.
    rewrite !seq_S, map_app.
    unfold movements_body, alloc.
    rewrite b64_movement_of_app by (try exact Hv; lia).
    rewrite length_app, length_map, length_seq.
    rewrite <- app_assoc. reflexivity.
Qed.

Lemma b64_getMovements_eq xdata h :
  valid_refs h xdata ->
  getMovements xdata h
  = (seq (length h) (length xdata - 1),
     h ++ map (movement_of h xdata) (seq 1 (length xdata - 1))).
Proof.
  intros Hv. rewrite b64_getMovements_unfold.
  destruct xdata as [|a xdata].
  - rewrite for_loop_ge by (simpl; lia). simpl. rewrite app_nil_r. reflexivity.
  - replace (length (a :: xdata)) with (S (length xdata)) by reflexivity.
    replace (S (length xdata) - 1) with (length xdata) by lia.
    apply b64_getMovements_loop; [exact Hv | simpl; lia].
Qed.

Lemma b64_getMovements_old xdata h l :
  valid_refs h xdata -> l < length h ->
  deref (snd (getMovements xdata h)) l = deref h l.
Proof.
  intros Hv Hl. rewrite b64_getMovements_eq by exact Hv. simpl.
  apply b64_deref_app_old. exact Hl.
Qed.

Lemma b64_getMovements_new xdata h i :
  valid_refs h xdata -> 1 <= i < length xdata ->
  at_index (fst (getMovements xdata h)) (i - 1) = length h + (i - 1) /\
  deref (snd (getMovements xdata h)) (at_index (fst (getMovements xdata h)) (i - 1))
  = movement_of h xdata i.
Proof.
  intros Hv Hi. rewrite b64_getMovements_eq by exact Hv. simpl.
  assert (Hat : at_index (seq (length h) (length xdata - 1)) (i - 1) = length h + (i - 1)).
  { unfold at_index. apply lookup_total_seq_lt. lia. }
  split; [exact Hat|]. rewrite Hat. unfold deref.
  rewrite lookup_total_app_r by lia.
  replace (length h + (i - 1) - length h) with (i - 1) by lia.
  rewrite (list_lookup_total_fmap (movement_of h xdata)) by (rewrite length_seq; lia).
  rewrite lookup_total_seq_lt by lia.
  replace (1 + (i - 1)) with i by lia. reflexivity.
Qed.

(** C5, as stated, fails: the movement between [0] and [0.125] carries the
    value [0.13], not the plain absolute difference [0.125]. *)
Lemma getMovements_value_not_plain_difference :
  let movements := fst (getMovements [0; 1] eighth_rows) in
  let h' := snd (getMovements [0; 1] eighth_rows) in
  Math_abs (value_of eighth_rows 1%nat - value_of eighth_rows 0%nat)%num
  = decimal 125 1000 /\
  value_of h' (at_index movements 0) = decimal 13 100 /\
  (value_of h' (at_index movements 0)
   =? Math_abs (value_of eighth_rows 1%nat - value_of eighth_rows 0%nat))%num = false.
Proof. vm_compute. repeat split. Qed.

(** C5, amended: [getMovements] emits [max(n-1, 0)] new objects; movement [i]
    (for [1 <= i <= n-1]) carries the [order] and [x] of the later source
    point [i], the value [round(|v[i] - v[i-1]|)], difference and rounding in
    binary64, and the status [NORMAL] whatever the statuses of the source
    points; the objects already in the store are left as they were. *)
Theorem getMovements_spec (h : heap) (xdata : list loc) :
  valid_refs h xdata ->
  let movements := fst (getMovements xdata h) in
  let h' := snd (getMovements xdata h) in
  Z.of_nat (length movements) = Z.max (Z.of_nat (length xdata) - 1) 0 /\
  (forall i, 1 <= i < length xdata ->
     let m := at_index movements (i - 1) in
     length h <= m /\
     order (deref h' m) = order (deref h (at_index xdata i)) /\
     x (deref h' m) = x (deref h (at_index xdata i)) /\
     value (deref h' m)
     = Number (round (Math_abs (value_of h (at_index xdata i)
                              - value_of h (at_index xdata (i - 1)))%num)) /\
     status (deref h' m) = NORMAL) /\
  (forall l, l < length h -> deref h' l = deref h l).
Proof.
  intros Hv movements h'. subst movements h'. repeat split.
  - rewrite b64_getMovements_eq by exact Hv. simpl. rewrite length_seq. lia.
  - destruct (b64_getMovements_new xdata h i Hv H) as [Hat _]. rewrite Hat. lia.
  - destruct (b64_getMovements_new xdata h i Hv H) as [_ Hd]. rewrite Hd. reflexivity.
  - destruct (b64_getMovements_new xdata h i Hv H) as [_ Hd]. rewrite Hd. reflexivity.
  - destruct (b64_getMovements_new xdata h i Hv H) as [_ Hd]. rewrite Hd. reflexivity.
  - destruct (b64_getMovements_new xdata h i Hv H) as [_ Hd]. rewrite Hd. reflexivity.
  - intros l Hl. apply b64_getMovements_old; assumption.
Qed.

(** The values [2.25] and [2.255]: their difference in binary64 is a little
    below [0.005], and the movement is [0]. *)
Lemma getMovements_spec_witness :
  valid_refs close_rows [0; 1] /\
  value (deref (snd (getMovements [0; 1] close_rows))
               (at_index (fst (getMovements [0; 1] close_rows)) 0))
  = Number zero.
Proof.
  assert (Hv : valid_refs close_rows [0; 1]).
  { repeat constructor. }
  split; [exact Hv|].
  destruct (getMovements_spec close_rows [0; 1] Hv) as (_ & Hi & _).
  destruct (Hi 1) as (_ & _ & _ & Hval & _); [simpl; lia|].
  refine (eq_trans Hval _). vm_compute. reflexivity.
Defined.

(** ** Limits *)

Lemma b64_length_moving_ranges (v : list number) : length (moving_ranges v) = length v - 1.
Proof.
  induction v as [|a [|b v] IH]; simpl in *; try reflexivity.
  rewrite IH. lia.
Qed.

Lemma b64_moving_ranges_lookup (v : list number) (i : nat) :
  i + 1 < length v ->
  moving_ranges v !! i = Some (round (Math_abs (v !!! (i + 1)%nat - v !!! i)%num)).
Proof.
  revert i. induction v as [|a [|b v] IH]; intros i Hi; simpl in Hi; try lia.
  destruct i as [|i].
  - reflexivity.
  - change (moving_ranges (a :: b :: v)) with
      (round (Math_abs (b - a)%num) :: moving_ranges (b :: v)).
    change ((a :: b :: v) !!! (S i + 1)) with ((b :: v) !!! (i + 1)).
    change ((a :: b :: v) !!! S i) with ((b :: v) !!! i).
    change ((round (Math_abs (b - a)%num) :: moving_ranges (b :: v)) !! S i)
      with (moving_ranges (b :: v) !! i).
    apply IH. simpl. lia.
Qed.

(** The movements that [getMovements] stores carry the moving ranges. *)
Lemma b64_getMovements_values (xdata : list loc) (h : heap) :
  valid_refs h xdata ->
  map (value_of (snd (getMovements xdata h))) (fst (getMovements xdata h))
  = moving_ranges (map (value_of h) xdata).
Proof.
  intros Hv. apply list_eq_same_length with (length xdata - 1).
  - rewrite b64_length_moving_ranges, length_map. reflexivity.
  - rewrite length_map, b64_getMovements_eq by exact Hv. simpl. apply length_seq.
  - intros i a b Hi Ha Hb.
    rewrite b64_moving_ranges_lookup in Hb by (rewrite length_map; lia).
    rewrite list_lookup_fmap in Ha.
    destruct (b64_getMovements_new xdata h (i + 1) Hv ltac:(lia)) as [Hat Hd].
    replace (i + 1 - 1) with i in Hat, Hd by lia.
    assert (Hl : fst (getMovements xdata h) !! i
                 = Some (at_index (fst (getMovements xdata h)) i)).
    { unfold at_index. apply list_lookup_lookup_total_lt.
      rewrite b64_getMovements_eq by exact Hv. simpl. rewrite length_seq. lia. }
    rewrite Hl in Ha. simpl in Ha. unfold value_of at 1 in Ha. rewrite Hd in Ha.
    unfold movement_of in Ha. cbn [value ToNumber] in Ha.
    replace (i + 1 - 1) with i in Ha by lia.
    rewrite !(list_lookup_total_fmap (value_of h)) in Hb by lia.
    unfold at_index in Ha. congruence.
Qed.

Lemma b64_valid_refs_values_old (xdata : list loc) (h : heap) :
  valid_refs h xdata ->
  map (value_of (snd (getMovements xdata h))) xdata = map (value_of h) xdata.
Proof.
  intros Hv. apply map_ext_in. intros l Hl. unfold value_of.
  rewrite b64_getMovements_old; [reflexivity | exact Hv |].
  unfold valid_refs in Hv. rewrite Forall_forall in Hv. apply Hv.
  apply list_elem_of_In. exact Hl.
Qed.

Lemma b64_calculateLimits_heap (xdata : list loc) (h : heap) :
  snd (calculateLimits xdata h) = snd (getMovements xdata h).
Proof.
  unfold calculateLimits. destruct (getMovements xdata h) as [movements h1].
  reflexivity.
Qed.

Lemma b64_sum_values_sum (h : heap) (arr : list loc) :
  sum_values h arr = sum (map (value_of h) arr).
Proof.
  unfold sum_values, sum. generalize zero.
  induction arr as [|b arr IH]; intros a; [reflexivity|].
  cbn [fold_left map]. apply IH.
Qed.

Lemma b64_calculateLimits_rounded (xdata : list loc) (h : heap) :
  valid_refs h xdata -> xdata <> [] ->
  rounded_from (fst (calculateLimits xdata h))
               (unrounded_limits (map (value_of h) xdata)).
Proof.
  intros Hv Hne.
  pose proof (b64_getMovements_values xdata h Hv) as Hmov.
  pose proof (b64_valid_refs_values_old xdata h Hv) as Hold.
  unfold calculateLimits.
  destruct (getMovements xdata h) as [movements h1]. simpl in Hmov, Hold.
  set (v := map (value_of h) xdata) in *.
  assert (Hlen : length v = length xdata) by apply length_map.
  assert (Hmean : (sum_values h1 xdata / of_Z (Z.of_nat (length xdata)))%num
                  = arithmetic_mean v).
  { unfold arithmetic_mean. rewrite b64_sum_values_sum, Hold, Hlen. reflexivity. }
  assert (Hmm : (sum_values h1 movements
                 / of_Z (Z.of_nat (Nat.max (length movements) 1)))%num
                = mean_movement v).
  { assert (Hlm : length movements = length xdata - 1).
    { rewrite <- (length_map (value_of h1) movements), Hmov.
      rewrite b64_length_moving_ranges, Hlen. reflexivity. }
    unfold mean_movement. rewrite b64_sum_values_sum, Hmov.
    destruct (Nat.ltb_spec (length v) 2) as [Hlt|Hge].
    - destruct xdata as [|a [|b xdata]]; simpl in Hlt; try lia; [congruence|].
      destruct movements; [vm_compute; reflexivity | simpl in Hlm; lia].
    - unfold arithmetic_mean. rewrite b64_length_moving_ranges, Hlm, Hlen.
      replace (Nat.max (length xdata - 1) 1) with (length xdata - 1) by lia.
      reflexivity. }
  unfold rounded_from, unrounded_limits, USE_MEDIAN_AVG, USE_MEDIAN_MR,
    NPL_SCALING, URL_SCALING.
  cbn [fst avgX avgMovement UNPL LNPL URL lowerQuartile upperQuartile].
  rewrite !Hmean, !Hmm. repeat split; reflexivity.
Qed.



(** ** Integers as numbers *)

Lemma digits2_pos_bounds (p : positive) :
  (2 ^ (Z.pos (digits2_pos p) - 1) <= Z.pos p < 2 ^ Z.pos (digits2_pos p))%Z.
Proof.
  induction p as [p IH|p IH|]; cbn [digits2_pos]; [| |split; reflexivity].
  - rewrite Pos2Z.inj_succ.
    replace (Z.succ (Z.pos (digits2_pos p)) - 1)%Z
      with (Z.succ (Z.pos (digits2_pos p) - 1)) by lia.
    rewrite !Z.pow_succ_r by lia. lia.
  - rewrite Pos2Z.inj_succ.
    replace (Z.succ (Z.pos (digits2_pos p)) - 1)%Z
      with (Z.succ (Z.pos (digits2_pos p) - 1)) by lia.
    rewrite !Z.pow_succ_r by lia. lia.
Qed.

Lemma digits2_pos_le (p : positive) (n : Z) :
  (0 <= n)%Z -> (Z.pos p < 2 ^ n)%Z -> (Z.pos (digits2_pos p) <= n)%Z.
Proof.
  intros Hn Hp. destruct (digits2_pos_bounds p) as [Hlo _].
  destruct (Z.le_gt_cases (Z.pos (digits2_pos p)) n) as [H|H]; [exact H|].
  assert (2 ^ n <= 2 ^ (Z.pos (digits2_pos p) - 1))%Z
    by (apply Z.pow_le_mono_r; lia).
  lia.
Qed.

Lemma iter_xO_digits (p n : positive) :
  Z.pos (digits2_pos (Pos.iter xO p n)) = (Z.pos (digits2_pos p) + Z.pos n)%Z.
Proof.
  induction n as [|n IH] using Pos.peano_ind.
  - cbn [Pos.iter digits2_pos]. lia.
  - rewrite Pos.iter_succ. cbn [digits2_pos]. rewrite Pos2Z.inj_succ, IH. lia.
Qed.

Lemma iter_xO_value (p n : positive) :
  Z.pos (Pos.iter xO p n) = (Z.pos p * 2 ^ Z.pos n)%Z.
Proof.
  induction n as [|n IH] using Pos.peano_ind.
  - cbn [Pos.iter]. lia.
  - rewrite Pos.iter_succ, Pos2Z.inj_xO, IH, Pos2Z.inj_succ, Z.pow_succ_r by lia.
    lia.
Qed.

(** A mantissa of 53 bits at an exponent in range needs no rounding. *)
Lemma binary_round_aux_exact (s : bool) (m : positive) (e : Z) :
  Z.pos (digits2_pos m) = 53%Z -> (-1074 <= e <= 971)%Z ->
  binary_round_aux prec emax s (Z.pos m) e loc_Exact = S754_finite s m e.
Proof.
  intros Hd He.
  unfold binary_round_aux, shr_fexp, fexp, emin, prec, emax.
  cbn [Zdigits2 shr_record_of_loc]. rewrite Hd.
  replace (Z.max (53 + e - 53) (3 - 1024 - 53) - e)%Z with 0%Z by lia.
  cbn [shr shr_m loc_of_shr_record round_nearest_even Zdigits2]. rewrite Hd.
  replace (Z.max (53 + e - 53) (3 - 1024 - 53) - e)%Z with 0%Z by lia.
  cbn [shr shr_m].
  destruct (Z.leb_spec e (1024 - 53)) as [_|H]; [reflexivity | lia].
Qed.

(** The double of an integer below [2^53]: the mantissa is shifted to 53
    bits. *)
Lemma binary_round_small (s : bool) (p : positive) :
  (Z.pos p < 2 ^ 53)%Z ->
  exists m e,
    binary_round prec emax s p 0 = S754_finite s m e /\
    (-52 <= e <= 0)%Z /\ (Z.pos m = Z.pos p * 2 ^ (- e))%Z.
Proof.
  intros Hp.
  pose proof (digits2_pos_le p 53 ltac:(lia) Hp) as Hd.
  unfold binary_round, shl_align, fexp, emin, prec, emax.
  replace (Z.max (Z.pos (digits2_pos p) + 0 - 53) (3 - 1024 - 53) - 0)%Z
    with (Z.pos (digits2_pos p) - 53)%Z by lia.
  replace (Z.max (Z.pos (digits2_pos p) + 0 - 53) (3 - 1024 - 53))%Z
    with (Z.pos (digits2_pos p) - 53)%Z by lia.
  destruct (Z.pos (digits2_pos p) - 53)%Z as [|q|q] eqn:Hq; try lia.
  - exists p, 0%Z. split; [|split; [lia | cbn; lia]].
    apply (binary_round_aux_exact s p 0); lia.
  - exists (Pos.iter xO p q), (Z.neg q). split; [|split].
    + apply (binary_round_aux_exact s (Pos.iter xO p q) (Z.neg q)).
      * rewrite iter_xO_digits. lia.
      * lia.
    + lia.
    + rewrite iter_xO_value. reflexivity.
Qed.

Lemma exact_value_shifted (s : bool) (m : positive) (e : Z) (p : positive) :
  (e <= 0)%Z -> (Z.pos m = Z.pos p * 2 ^ (- e))%Z ->
  (exact_value (S754_finite s m e) == inject_Z (signed s p))%Q.
Proof.
  intros He Hp. unfold exact_value.
  destruct (Z.leb_spec 0 e) as [H0|H0].
  - assert (e = 0%Z) by lia. subst e. cbn in Hp.
    replace (signed s m * 2 ^ 0)%Z with (signed s p); [reflexivity|].
    unfold signed. destruct s; lia.
  - assert (Hpow : (0 < 2 ^ (- e))%Z) by (apply Z.pow_pos_nonneg; lia).
    unfold Qeq. cbn [Qnum Qden inject_Z]. rewrite Z2Pos.id by exact Hpow.
    unfold signed. destruct s; lia.
Qed.

Lemma of_Z_exact (k : Z) :
  (- 2 ^ 53 < k < 2 ^ 53)%Z ->
  finite (of_Z k) /\ (exact_value (of_Z k) == inject_Z k)%Q.
Proof.
  intros Hk. unfold of_Z, binary_normalize.
  destruct k as [|p|p].
  - split; [exact I | reflexivity].
  - destruct (binary_round_small false p ltac:(lia)) as (m & e & -> & He & Hp).
    split; [exact I|]. apply (exact_value_shifted false m e p); [lia | exact Hp].
  - destruct (binary_round_small true p ltac:(lia)) as (m & e & -> & He & Hp).
    split; [exact I|]. apply (exact_value_shifted true m e p); [lia | exact Hp].
Qed.

(** ** [Math.round] *)

Lemma valid_mantissa (s : bool) (m : positive) (e : Z) :
  valid (S754_finite s m e) -> (Z.pos m < 2 ^ 53)%Z.
Proof.
  unfold valid, valid_binary, bounded, canonical_mantissa, fexp, emin, prec, emax.
  intros H. apply andb_prop in H. destruct H as [H _].
  apply Z.eqb_eq in H.
  assert (Hd : (Z.pos (digits2_pos m) <= 53)%Z) by lia.
  destruct (digits2_pos_bounds m) as [_ Hhi].
  assert (2 ^ Z.pos (digits2_pos m) <= 2 ^ 53)%Z by (apply Z.pow_le_mono_r; lia).
  lia.
Qed.

Lemma nearest_integer_floor (q : Q) :
  nearest_integer_half_up q (Qfloor (q + (1 # 2))).
Proof.
  unfold nearest_integer_half_up.
  pose proof (Qfloor_le (q + (1 # 2))) as H1.
  pose proof (Qlt_floor (q + (1 # 2))) as H2.
  rewrite inject_Z_plus in H2. change (inject_Z 1) with 1%Q in H2.
  split; lra.
Qed.

Lemma Qfloor_integer_half (z : Z) : Qfloor (inject_Z z + (1 # 2)) = z.
Proof.
  pose proof (Qfloor_le (inject_Z z + (1 # 2))) as H1.
  pose proof (Qlt_floor (inject_Z z + (1 # 2))) as H2.
  set (k := Qfloor (inject_Z z + (1 # 2))) in *.
  assert (Ha : (inject_Z k < inject_Z (z + 1))%Q).
  { rewrite inject_Z_plus. change (inject_Z 1) with 1%Q. lra. }
  assert (Hb : (inject_Z z < inject_Z (k + 1))%Q) by lra.
  rewrite <- Zlt_Qlt in Ha, Hb. lia.
Qed.

(** On a double, [Math.round] gives the nearest integer, an exact half
    going up, and gives it exactly. *)
Lemma Math_round_nearest (a : number) :
  valid a -> finite a ->
  let k := Qfloor (exact_value a + (1 # 2)) in
  is_integer (Math_round a) k /\ nearest_integer_half_up (exact_value a) k.
Proof.
  intros Hv Hf k. split; [|apply nearest_integer_floor].
  destruct a as [s|s| |s m e]; try contradiction.
  - split; [exact I | reflexivity].
  - pose proof (valid_mantissa s m e Hv) as Hm.
    subst k. unfold Math_round.
    destruct (Z.leb_spec 0 e) as [He|He].
    + split; [exact I|]. unfold exact_value.
      destruct (Z.leb_spec 0 e) as [_|]; [|lia].
      rewrite Qfloor_integer_half. reflexivity.
    + set (q := exact_value (S754_finite s m e)).
      destruct (Z.eqb_spec (Qfloor (q + (1 # 2))) 0) as [Hz|Hz].
      * rewrite Hz. split; [exact I | reflexivity].
      * apply of_Z_exact.
        assert (Hpow : (2 <= 2 ^ (- e))%Z).
        { change 2%Z with (2 ^ 1)%Z at 1. apply Z.pow_le_mono_r; lia. }
        assert (Hq : (- inject_Z (2 ^ 52) < q /\ q < inject_Z (2 ^ 52))%Q).
        { subst q. unfold exact_value.
          destruct (Z.leb_spec 0 e) as [|_]; [lia|].
          unfold Qlt, Qopp, inject_Z. cbn [Qnum Qden].
          rewrite Z2Pos.id by lia. unfold signed. destruct s; split; nia. }
        pose proof (Qfloor_le (q + (1 # 2))) as H1.
        pose proof (Qlt_floor (q + (1 # 2))) as H2.
        set (k := Qfloor (q + (1 # 2))) in *.
        assert (Ha : (inject_Z k < inject_Z (2 ^ 52 + 1))%Q).
        { rewrite inject_Z_plus. change (inject_Z 1) with 1%Q. lra. }
        assert (Hb : (inject_Z (- 2 ^ 52 - 1) < inject_Z (k + 1))%Q).
        { unfold Z.sub. rewrite inject_Z_plus, inject_Z_opp.
          change (inject_Z (- (1))) with (- (1))%Q. lra. }
        rewrite <- Zlt_Qlt in Ha, Hb. lia.
Qed.

(** An exact half goes to the integer above it, whatever its sign. *)
Lemma Math_round_tie (a : number) (j : Z) :
  valid a -> finite a -> (exact_value a == inject_Z j + (1 # 2))%Q ->
  is_integer (Math_round a) (j + 1).
Proof.
  intros Hv Hf Hj.
  destruct (Math_round_nearest a Hv Hf) as [Hi _].
  assert (Hk : Qfloor (exact_value a + (1 # 2)) = (j + 1)%Z).
  { rewrite <- (Qfloor_Z (j + 1)). apply Qfloor_comp.
    rewrite Hj, inject_Z_plus. change (inject_Z 1) with 1%Q. lra. }
  rewrite Hk in Hi. exact Hi.
Qed.

(** ** Rounding *)

(** C7, as stated, fails: [-0.125] is a double, and an exact half at the
    second decimal; its product with [100] is [-12.5], exactly.  Rounding
    away from zero would give [-0.13]; [round] gives [-0.12]. *)
Lemma round_negative_tie_not_away_from_zero :
  (exact_value (- decimal 125 1000)%num == - (1 # 8))%Q /\
  (exact_value (- decimal 125 1000 * of_Z 100)%num == - (25 # 2))%Q /\
  round (- decimal 125 1000)%num = (- decimal 12 100)%num /\
  round (- decimal 125 1000)%num <> (- decimal 13 100)%num.
Proof. vm_compute. repeat split; discriminate. Qed.

(** C7, amended: [round n] is [Math.round(n * 100) / 100] in binary64.  The
    product is the nearest double; [Math.round] takes a double to the
    nearest integer, exactly, an exact half going toward [+Infinity] (away
    from zero for a positive number, toward zero for a negative one); the
    quotient is the nearest double again.  [NaN] and the infinities are
    returned as they are.  Every field of the limits is [round] of its
    unrounded value.  The result need not be the two-decimal number nearest
    to [n] (the double [0.015], just below the decimal, gives [0.02]), and
    rounding a rounded value can change it. *)
Theorem round_spec :
  (forall n, round n = (Math_round (n * of_Z 100) / of_Z 100)%num) /\
  (forall a, valid a -> finite a ->
     exists k, is_integer (Math_round a) k /\
               nearest_integer_half_up (exact_value a) k) /\
  (forall a j, valid a -> finite a ->
     (exact_value a == inject_Z j + (1 # 2))%Q ->
     is_integer (Math_round a) (j + 1)) /\
  (forall a, ~ finite a -> Math_round a = a) /\
  round NaN = NaN /\ round Infinity = Infinity /\
  round (- Infinity)%num = (- Infinity)%num /\
  (forall h xdata, valid_refs h xdata -> xdata <> [] ->
     rounded_from (fst (calculateLimits xdata h))
                  (unrounded_limits (map (value_of h) xdata))) /\
  round (decimal 125 1000) = decimal 13 100 /\
  round (- decimal 125 1000)%num = (- decimal 12 100)%num /\
  round (decimal 15 1000) = decimal 2 100 /\
  round (round (decimal 312764775472251 8)) <> round (decimal 312764775472251 8).
Proof.
  split; [reflexivity|].
  split.
  { intros a Hv Hf. eexists. apply Math_round_nearest; assumption. }
  split; [apply Math_round_tie|].
  split.
  { intros [s|s| |s m e] Hf; try reflexivity; exfalso; apply Hf; exact I. }
  split; [reflexivity|]. split; [reflexivity|]. split; [reflexivity|].
  split.
  { intros h xdata Hv Hne. apply b64_calculateLimits_rounded; assumption. }
  vm_compute. repeat split. discriminate.
Qed.

(** [-12.5], the product of [-0.125] and [100], goes to [-12]. *)
Lemma round_spec_witness :
  valid (- decimal 125 1000 * of_Z 100)%num /\
  finite (- decimal 125 1000 * of_Z 100)%num /\
  (exact_value (- decimal 125 1000 * of_Z 100)%num == inject_Z (-13) + (1 # 2))%Q /\
  is_integer (Math_round (- decimal 125 1000 * of_Z 100)%num) (-13 + 1).
Proof.
  assert (Hv : valid (- decimal 125 1000 * of_Z 100)%num) by (vm_compute; reflexivity).
  assert (Hf : finite (- decimal 125 1000 * of_Z 100)%num) by (vm_compute; exact I).
  assert (Hj : (exact_value (- decimal 125 1000 * of_Z 100)%num
                == inject_Z (-13) + (1 # 2))%Q) by (vm_compute; reflexivity).
  split; [exact Hv|]. split; [exact Hf|]. split; [exact Hj|].
  exact (proj1 (proj2 (proj2 round_spec)) _ (-13)%Z Hv Hf Hj).
Defined.

(** ** A constant series *)

Lemma minus_self (c : number) : finite c -> (c - c)%num = zero.
Proof.
  destruct c as [[]|s| |s m e]; try contradiction; intros _; try reflexivity.
  unfold minus, SFsub. rewrite Z.sub_diag. reflexivity.
Qed.

Lemma minus_zero (a : number) : (a - zero)%num = a.
Proof. destruct a as [[]|[]| |[] m e]; reflexivity. Qed.

Lemma plus_zero (a : number) :
  (a + zero)%num = a \/ (a = (- zero)%num /\ (a + zero)%num = zero).
Proof.
  destruct a as [[]|[]| |[] m e]; try (left; reflexivity).
  right. split; reflexivity.
Qed.

Lemma moving_ranges_constant (c : number) (n : nat) :
  finite c -> moving_ranges (repeat c n) = repeat zero (n - 1).
Proof.
  intros Hc. induction n as [|[|n] IH]; try reflexivity.
  change (repeat c (S (S n))) with (c :: c :: repeat c n).
  change (moving_ranges (c :: c :: repeat c n))
    with (round (Math_abs (c - c)%num) :: moving_ranges (repeat c (S n))).
  rewrite IH, (minus_self c Hc). simpl. rewrite Nat.sub_0_r. reflexivity.
Qed.

Lemma sum_zeros (k : nat) : sum (repeat zero k) = zero.
Proof.
  unfold sum. induction k as [|k IH]; [reflexivity|].
  cbn [repeat fold_left]. exact IH.
Qed.

Lemma of_Z_positive (k : Z) :
  (0 < k < 2 ^ 53)%Z -> exists m e, of_Z k = S754_finite false m e.
Proof.
  intros Hk. destruct k as [|p|p]; try lia.
  destruct (binary_round_small false p ltac:(lia)) as (m & e & H & _).
  exists m, e. exact H.
Qed.

Lemma mean_movement_constant (c : number) (n : nat) :
  finite c -> (Z.of_nat n < 2 ^ 53)%Z -> mean_movement (repeat c n) = zero.
Proof.
  intros Hc Hn. unfold mean_movement. rewrite repeat_length.
  destruct (Nat.ltb_spec n 2) as [Hlt|Hge]; [reflexivity|].
  unfold arithmetic_mean.
  rewrite (moving_ranges_constant c n Hc), sum_zeros, repeat_length.
  destruct (of_Z_positive (Z.of_nat (n - 1)) ltac:(lia)) as (m & e & ->).
  reflexivity.
Qed.

(** X11: on a series whose values are all equal to a finite number, a
    single point included, the mean movement and the upper range limit are
    [0], the lower natural limit is the mean, and so is the upper one, up to
    the sign of a zero.  The mean is [round] of the binary64 mean, which
    need not be [round] of the common value. *)
Theorem constant_series_limits (h : heap) (xdata : list loc) (c : number) :
  valid_refs h xdata -> xdata <> [] -> (Z.of_nat (length xdata) < 2 ^ 53)%Z ->
  finite c -> (forall l, In l xdata -> value_of h l = c) ->
  let lim := fst (calculateLimits xdata h) in
  avgX lim = round (arithmetic_mean (repeat c (length xdata))) /\
  avgMovement lim = zero /\ URL lim = zero /\
  LNPL lim = avgX lim /\
  (UNPL lim = avgX lim \/
   avgX lim = (- zero)%num /\ UNPL lim = zero).
Proof.
  intros Hv Hne Hlen Hc Hall lim.
  destruct (b64_calculateLimits_rounded xdata h Hv Hne)
    as (HA & HM & HU & HL & HR & _ & _).
  fold lim in HA, HM, HU, HL, HR.
  assert (Hvals : map (value_of h) xdata = repeat c (length xdata)).
  { clear - Hall. induction xdata as [|a xdata IH]; [reflexivity|].
    cbn [map length repeat]. rewrite (Hall a (or_introl eq_refl)), IH; [reflexivity|].
    intros l Hl. apply Hall. right. exact Hl. }
  rewrite Hvals in HA, HM, HU, HL, HR. unfold unrounded_limits in *.
  cbn [avgX avgMovement UNPL LNPL URL] in *.
  rewrite (mean_movement_constant c (length xdata) Hc Hlen) in HM, HU, HL, HR.
  change (decimal 266 100 * zero)%num with zero in HU, HL.
  change (decimal 3268 1000 * zero)%num with zero in HR.
  change (round zero) with zero in HM, HR.
  rewrite minus_zero in HL.
  split; [exact HA|]. split; [exact HM|]. split; [exact HR|].
  split; [congruence|].
  destruct (plus_zero (arithmetic_mean (repeat c (length xdata)))) as [E|[E1 E2]].
  - left. rewrite E in HU. congruence.
  - right. rewrite E2 in HU. rewrite E1 in HA. split; [exact HA | exact HU].
Qed.

(** ** Preprocessing *)

Lemma b64_keeps_false (d : DataValue) :
  keeps d = false <->
  x_absent d \/ value d = Undefined \/ value d = Null \/ value d = Number NaN.
Proof.
  unfold keeps, x_absent, truthy_string, truthy_number, loose_eq_zero.
  destruct (x d) as [s|]; simpl.
  - destruct (String.eqb_spec s EmptyString) as [->|Hs]; simpl.
    + split; [intros _; left; right; reflexivity | reflexivity].
    + unfold strict_eq, zero, NaN.
      destruct (value d) as [| |[[]|[]| |[] m e]]; simpl;
        (split;
         [first [discriminate | intros _; tauto]
         |first [reflexivity | intros [[H|H]|[H|[H|H]]]; congruence]]).
  - split; [intros _; left; left; reflexivity | reflexivity].
Qed.

Lemma b64_keeps_number (d : DataValue) (n : number) :
  ~ x_absent d -> value d = Number n -> n <> NaN -> keeps d = true.
Proof.
  intros Hx Hv Hn. destruct (keeps d) eqn:Hk; [reflexivity|].
  apply b64_keeps_false in Hk.
  destruct Hk as [Hk|[Hk|[Hk|Hk]]]; [contradiction | congruence | congruence |].
  rewrite Hv in Hk. injection Hk as ->. contradiction.
Qed.

Lemma b64_removeAllNulls_In (data : list loc) (h : heap) (l : loc) :
  In l (removeAllNulls data h) <-> In l data /\ keeps (deref h l) = true.
Proof. unfold removeAllNulls. apply filter_In. Qed.

(** ** Writes that touch nothing but [status] *)

Lemma b64_status_only_refl (h : heap) : status_only h h.
Proof. split; [reflexivity | intros l; apply b64_same_fields_refl]. Qed.

Lemma b64_status_only_trans (h1 h2 h3 : heap) :
  status_only h1 h2 -> status_only h2 h3 -> status_only h1 h3.
Proof.
  intros [Hl1 Hf1] [Hl2 Hf2]. split; [congruence|].
  intros l. eapply b64_same_fields_trans; [apply Hf1 | apply Hf2].
Qed.

Lemma b64_status_only_set_status (l : loc) (s : DataStatus) (h : heap) :
  status_only h (set_status l s h).
Proof. split; [apply b64_length_set_status | intros l'; apply b64_same_fields_set_status]. Qed.

Lemma b64_status_only_value (h h' : heap) (l : loc) :
  status_only h h' -> value_of h' l = value_of h l.
Proof.
  intros [_ Hf]. unfold value_of. destruct (Hf l) as (_ & _ & Hv).
  rewrite Hv. reflexivity.
Qed.

#[local] Hint Resolve b64_status_only_refl b64_status_only_set_status : store.

Lemma b64_status_only_mark_range (data : list loc) (a b : nat) (s : DataStatus) (h : heap) :
  status_only h (mark_range data a b s h).
Proof.
  unfold mark_range. apply for_loop_invariant; [auto with store|].
  intros i h' _ Hh'. eapply b64_status_only_trans; [exact Hh' | auto with store].
Qed.

Lemma b64_status_only_reset_status (arr : list loc) (h : heap) :
  status_only h (reset_status arr h).
Proof.
  unfold reset_status. apply forEach_invariant; [auto with store|].
  intros l h' _ Hh'. eapply b64_status_only_trans; [exact Hh' | auto with store].
Qed.

Lemma b64_status_only_run8_body (data : list loc) (avg : number) (i : nat) (h : heap)
    (st : Z * heap) :
  status_only h (snd st) -> status_only h (snd (run8_body data avg i st)).
Proof.
  destruct st as [m h']. simpl. intros Hh'. unfold run8_body.
  match goal with |- context [if ?c then _ else _] => destruct c end;
    match goal with |- context [if ?c then _ else _] => destruct c end; simpl;
    try exact Hh';
    (eapply b64_status_only_trans; [exact Hh' | apply b64_status_only_mark_range]).
Qed.

Lemma b64_status_only_run8_loop (data : list loc) (avg : number) (h : heap) (b : nat) (m : Z) :
  status_only h (snd (for_loop 7 b (run8_body data avg) (m, h))).
Proof.
  apply for_loop_invariant with (P := fun st => status_only h (snd st)).
  - apply b64_status_only_refl.
  - intros i st _. apply b64_status_only_run8_body.
Qed.

Lemma b64_status_only_checkRunOfEight (data : list loc) (avg : number) (h : heap) :
  status_only h (checkRunOfEight data avg h).
Proof.
  unfold checkRunOfEight. destruct (length data <? 8).
  - apply b64_status_only_refl.
  - apply b64_status_only_run8_loop.
Qed.

Lemma b64_status_only_four_body (data : list loc) (lq uq : number) (i : nat) (h : heap)
    (st : Z * Z * heap) :
  status_only h (snd st) -> status_only h (snd (four_body data lq uq i st)).
Proof.
  destruct st as [c h']. simpl. intros Hh'. unfold four_body. simpl.
  match goal with |- context [if ?c then _ else _] => destruct c end;
    try exact Hh';
    (eapply b64_status_only_trans; [exact Hh' | apply b64_status_only_mark_range]).
Qed.

Lemma b64_status_only_four_loop (data : list loc) (lq uq : number) (h : heap) (b : nat)
    (c : Z * Z) :
  status_only h (snd (for_loop 3 b (four_body data lq uq) (c, h))).
Proof.
  apply for_loop_invariant with (P := fun st => status_only h (snd st)).
  - apply b64_status_only_refl.
  - intros i st _. apply b64_status_only_four_body.
Qed.

Lemma b64_status_only_checkFourNearLimit (data : list loc) (lq uq : number) (h : heap) :
  status_only h (checkFourNearLimit data lq uq h).
Proof.
  unfold checkFourNearLimit. destruct (length data <? 4).
  - apply b64_status_only_refl.
  - apply b64_status_only_four_loop.
Qed.

Lemma b64_status_only_checkOutsideLimit (data : list loc) (lo hi : number) (h : heap) :
  status_only h (checkOutsideLimit data lo hi h).
Proof.
  unfold checkOutsideLimit. apply forEach_invariant; [auto with store|].
  intros l h' _ Hh'.
  destruct (lt (value_of h' l) lo); [|destruct (gt (value_of h' l) hi)];
    try exact Hh';
    (eapply b64_status_only_trans; [exact Hh' | auto with store]).
Qed.

(** ** Allocation *)

Lemma b64_extends_refl (h : heap) : extends h h.
Proof. exists []. rewrite app_nil_r. reflexivity. Qed.

Lemma b64_extends_old (h h' : heap) (l : loc) :
  extends h h' -> l < length h -> deref h' l = deref h l.
Proof. intros [ext ->] Hl. apply b64_deref_app_old. exact Hl. Qed.

Lemma b64_extends_length (h h' : heap) : extends h h' -> length h <= length h'.
Proof. intros [ext ->]. rewrite length_app. lia. Qed.

Lemma b64_getMovements_extends (xdata : list loc) (h : heap) :
  extends h (snd (getMovements xdata h)).
Proof.
  rewrite b64_getMovements_unfold.
  apply for_loop_invariant with (P := fun st => extends h (snd st)).
  - apply b64_extends_refl.
  - intros i [movements h1] _ [ext Hext]. simpl in Hext. subst h1.
    unfold movements_body, alloc. simpl.
    exists (ext ++ [movement_of (h ++ ext) xdata i]). symmetry; apply app_assoc.
Qed.

Lemma b64_getMovements_fresh (xdata : list loc) (h : heap) (l : loc) :
  In l (fst (getMovements xdata h)) -> length h <= l.
Proof.
  rewrite b64_getMovements_unfold.
  enough (Hinv : extends h (snd (for_loop 1 (length xdata) (movements_body xdata) ([], h)))
                 /\ (In l (fst (for_loop 1 (length xdata) (movements_body xdata) ([], h)))
                     -> length h <= l)) by apply Hinv.
  apply for_loop_invariant with
    (P := fun st => extends h (snd st) /\
                    (In l (fst st) -> length h <= l)).
  - split; [apply b64_extends_refl | intros []].
  - intros i [movements h1] _ [Hext Hin]. simpl in Hext, Hin.
    unfold movements_body, alloc. simpl. split.
    + destruct Hext as [ext ->].
      exists (ext ++ [movement_of (h ++ ext) xdata i]). symmetry; apply app_assoc.
    + intros Hl. apply in_app_or in Hl. destruct Hl as [Hl|[<-|[]]].
      * apply Hin, Hl.
      * apply b64_extends_length, Hext.
Qed.

(** ** Resetting *)

Lemma b64_status_of_set_status_cases (a l : loc) (s : DataStatus) (h : heap) :
  status_of (set_status a s h) l = s \/
  status_of (set_status a s h) l = status_of h l.
Proof.
  destruct (decide (a = l)) as [->|Hne].
  - destruct (Nat.lt_ge_cases l (length h)) as [Hlt|Hge].
    + left. apply b64_status_of_set_status_eq. exact Hlt.
    + right. rewrite b64_deref_set_status_out by exact Hge. reflexivity.
  - right. apply b64_status_of_set_status_ne. exact Hne.
Qed.

Lemma b64_reset_status_other (arr : list loc) (h : heap) (l : loc) :
  ~ In l arr -> deref (reset_status arr h) l = deref h l.
Proof.
  intros Hl. unfold reset_status.
  apply forEach_invariant with (P := fun h' => deref h' l = deref h l).
  - reflexivity.
  - intros a h' Ha Hh'. rewrite b64_deref_set_status_ne; [exact Hh'|].
    intros ->. contradiction.
Qed.

Lemma b64_reset_status_In (arr : list loc) (h : heap) (l : loc) :
  In l arr -> l < length h -> status_of (reset_status arr h) l = NORMAL.
Proof.
  unfold reset_status, forEach. revert h.
  induction arr as [|a arr IH]; intros h Hin Hl; [destruct Hin|].
  simpl. destruct (in_dec Nat.eq_dec l arr) as [Hin'|Hout].
  - apply IH; [exact Hin' | rewrite b64_length_set_status; exact Hl].
  - destruct Hin as [->|Hin]; [|contradiction].
    pose proof (b64_reset_status_other arr (set_status l NORMAL h) l Hout) as Hd.
    unfold reset_status, forEach in Hd. unfold status_of. rewrite Hd.
    apply b64_status_of_set_status_eq. exact Hl.
Qed.

(** ** Rule C: outside limit *)

Lemma b64_checkOutsideLimit_fold (data : list loc) (lo hi : number) (h : heap) :
  checkOutsideLimit data lo hi h = forEach data (outside_step lo hi) h.
Proof.
  unfold checkOutsideLimit, forEach. revert h.
  induction data as [|a data IH]; intros h; [reflexivity|].
  simpl. rewrite <- IH. f_equal. unfold outside_step, outside.
  destruct (lt (value_of h a) lo); [reflexivity|].
  destruct (gt (value_of h a) hi); reflexivity.
Qed.

(** A point within the limits keeps its status; so does a point that the
    array does not hold. *)
Lemma b64_checkOutsideLimit_keeps (data : list loc) (lo hi : number) (h : heap) (l : loc) :
  ~ In l data \/ outside lo hi (value_of h l) = false ->
  status_of (checkOutsideLimit data lo hi h) l = status_of h l.
Proof.
  intros Hl. rewrite b64_checkOutsideLimit_fold.
  enough (Hinv : status_only h (forEach data (outside_step lo hi) h) /\
                 status_of (forEach data (outside_step lo hi) h) l = status_of h l)
    by apply Hinv.
  apply forEach_invariant with
    (P := fun h' => status_only h h' /\ status_of h' l = status_of h l).
  - split; [apply b64_status_only_refl | reflexivity].
  - intros a h' Ha [Hso Hst]. unfold outside_step.
    destruct (outside lo hi (value_of h' a)) eqn:Hout; [|split; assumption].
    split; [eapply b64_status_only_trans; [exact Hso | apply b64_status_only_set_status]|].
    rewrite b64_status_of_set_status_ne; [exact Hst|].
    intros ->. rewrite (b64_status_only_value h h' l Hso) in Hout.
    destruct Hl as [Hl|Hl]; [contradiction | congruence].
Qed.

Lemma b64_checkOutsideLimit_sticky (data : list loc) (lo hi : number) (h : heap) (l : loc) :
  status_of h l = NPL_EXCEPTION ->
  status_of (checkOutsideLimit data lo hi h) l = NPL_EXCEPTION.
Proof.
  intros Hst. rewrite b64_checkOutsideLimit_fold.
  apply forEach_invariant with (P := fun h' => status_of h' l = NPL_EXCEPTION).
  - exact Hst.
  - intros a h' _ Hh'. unfold outside_step.
    destruct (outside lo hi (value_of h' a)); [|exact Hh'].
    destruct (b64_status_of_set_status_cases a l NPL_EXCEPTION h') as [H|H]; congruence.
Qed.

(** A point of the array beyond a limit ends with [NPL_EXCEPTION]. *)
Lemma b64_checkOutsideLimit_flags (data : list loc) (lo hi : number) (h : heap) (l : loc) :
  In l data -> l < length h -> outside lo hi (value_of h l) = true ->
  status_of (checkOutsideLimit data lo hi h) l = NPL_EXCEPTION.
Proof.
  revert h. induction data as [|a data IH]; intros h Hin Hl Hout; [destruct Hin|].
  rewrite b64_checkOutsideLimit_fold. unfold forEach. simpl.
  change (fold_left (fun s a0 => outside_step lo hi a0 s) data (outside_step lo hi a h))
    with (forEach data (outside_step lo hi) (outside_step lo hi a h)).
  rewrite <- b64_checkOutsideLimit_fold.
  destruct Hin as [->|Hin].
  - apply b64_checkOutsideLimit_sticky. unfold outside_step. rewrite Hout.
    apply b64_status_of_set_status_eq. exact Hl.
  - assert (Hso : status_only h (outside_step lo hi a h)).
    { unfold outside_step. destruct (outside lo hi (value_of h a)); auto with store. }
    apply IH; [exact Hin | rewrite (proj1 Hso); exact Hl|].
    rewrite (b64_status_only_value _ _ l Hso). exact Hout.
Qed.

(** ** The passes of the aggregator *)

Lemma b64_status_only_values_pass (tableData : list loc) (lim : Limits) (h : heap) :
  status_only h (values_pass tableData lim h).
Proof.
  unfold values_pass.
  eapply b64_status_only_trans; [apply b64_status_only_reset_status|].
  eapply b64_status_only_trans; [apply b64_status_only_checkRunOfEight|].
  eapply b64_status_only_trans; [apply b64_status_only_checkFourNearLimit|].
  apply b64_status_only_checkOutsideLimit.
Qed.

Lemma b64_status_only_movements_pass (movements : list loc) (lim : Limits) (h : heap) :
  status_only h (movements_pass movements lim h).
Proof.
  unfold movements_pass.
  eapply b64_status_only_trans; [apply b64_status_only_reset_status|].
  apply b64_status_only_checkOutsideLimit.
Qed.

(** The pass over the movements leaves the older objects as they were. *)
Lemma b64_movements_pass_old (movements : list loc) (lim : Limits) (h : heap) (l : loc) :
  ~ In l movements -> deref (movements_pass movements lim h) l = deref h l.
Proof.
  intros Hl. unfold movements_pass.
  rewrite <- (b64_reset_status_other movements h l Hl).
  set (h1 := reset_status movements h).
  pose proof (b64_checkOutsideLimit_keeps movements zero (URL lim) h1 l (or_introl Hl)) as Hst.
  destruct (b64_status_only_checkOutsideLimit movements zero (URL lim) h1) as [_ Hf].
  destruct (Hf l) as (Ho & Hx & Hv). unfold status_of in Hst.
  destruct (deref (checkOutsideLimit movements zero (URL lim) h1) l),
    (deref h1 l). simpl in *. congruence.
Qed.

(** ** Rows that stay kept *)

Lemma b64_keeps_same_fields (d d' : DataValue) :
  same_fields d d' -> keeps d' = keeps d.
Proof. intros (_ & Hx & Hv). unfold keeps. rewrite Hx, Hv. reflexivity. Qed.

Lemma b64_removeAllNulls_all_kept (arr : list loc) (h : heap) :
  (forall l, In l arr -> keeps (deref h l) = true) -> removeAllNulls arr h = arr.
Proof.
  intros Hk. unfold removeAllNulls. induction arr as [|a arr IH]; [reflexivity|].
  cbn [List.filter]. rewrite (Hk a (or_introl eq_refl)). f_equal.
  apply IH. intros l Hl. apply Hk. right. exact Hl.
Qed.

(** ** The order of the numbers *)

(** [<] is a strict order on the numbers, [NaN] being comparable with
    nothing. *)
Lemma number_lt_irrefl (a : number) : (a <? a)%num = false.
Proof.
  unfold lt, SFltb, SFcompare.
  destruct a as [[]|[]| |[] m e]; try reflexivity;
    rewrite Z.compare_refl; change (Pos.compare_cont Eq m m) with (Pos.compare m m);
    rewrite Pos.compare_refl; reflexivity.
Qed.

Lemma number_lt_trans (a b c : number) :
  (a <? b)%num = true -> (b <? c)%num = true -> (a <? c)%num = true.
Proof.
  unfold lt, SFltb, SFcompare.
  destruct a as [[]|[]| |[] ma ea], b as [[]|[]| |[] mb eb], c as [[]|[]| |[] mc ec];
    try discriminate; try reflexivity;
    change (Pos.compare_cont Eq) with Pos.compare;
    destruct (Z.compare_spec ea eb), (Z.compare_spec eb ec), (Z.compare_spec ea ec);
    try discriminate; try reflexivity; try lia; subst;
    destruct (Pos.compare_spec ma mb), (Pos.compare_spec mb mc),
      (Pos.compare_spec ma mc);
    try discriminate; try reflexivity; lia.
Qed.

Lemma fold_lower (l : list number) (m0 : number) :
  let r := fold_left (fun m v => lower v m) l m0 in
  (forall w, (w <? m0)%num = false -> (w <? r)%num = false) /\
  (forall v, In v l -> (v <? r)%num = false) /\
  (r = m0 \/ In r l).
Proof.
  revert m0. induction l as [|v l IH]; intros m0; cbn [fold_left].
  - split; [auto|]. split; [intros v []|]. left. reflexivity.
  - destruct (IH (lower v m0)) as (H1 & H2 & H3).
    assert (Hstep : forall w, (w <? m0)%num = false -> (w <? lower v m0)%num = false).
    { intros w Hw. unfold lower. destruct (v <? m0)%num eqn:Hv; [|exact Hw].
      destruct (w <? v)%num eqn:Hwv; [|reflexivity].
      rewrite (number_lt_trans w v m0 Hwv Hv) in Hw. discriminate. }
    split; [intros w Hw; apply H1, Hstep, Hw|].
    split.
    + intros w [<-|Hw]; [|apply H2, Hw].
      apply H1. unfold lower. destruct (v <? m0)%num eqn:Hv; [apply number_lt_irrefl | exact Hv].
    + destruct H3 as [H3|H3]; [|right; right; exact H3].
      rewrite H3. unfold lower. destruct (v <? m0)%num; [right; left|left]; reflexivity.
Qed.

Lemma fold_upper (l : list number) (m0 : number) :
  let r := fold_left (fun m v => upper v m) l m0 in
  (forall w, (w >? m0)%num = false -> (w >? r)%num = false) /\
  (forall v, In v l -> (v >? r)%num = false) /\
  (r = m0 \/ In r l).
Proof.
  revert m0. induction l as [|v l IH]; intros m0; cbn [fold_left].
  - split; [auto|]. split; [intros v []|]. left. reflexivity.
  - destruct (IH (upper v m0)) as (H1 & H2 & H3).
    assert (Hstep : forall w, (w >? m0)%num = false -> (w >? upper v m0)%num = false).
    { intros w Hw. unfold upper. destruct (v >? m0)%num eqn:Hv; [|exact Hw].
      destruct (w >? v)%num eqn:Hwv; [|reflexivity].
      pose proof (number_lt_trans m0 v w Hv Hwv) as Ht. unfold gt, lt in *. congruence. }
    split; [intros w Hw; apply H1, Hstep, Hw|].
    split.
    + intros w [<-|Hw]; [|apply H2, Hw].
      apply H1. unfold upper. destruct (v >? m0)%num eqn:Hv; [apply (number_lt_irrefl v) | exact Hv].
    + destruct H3 as [H3|H3]; [|right; right; exact H3].
      rewrite H3. unfold upper. destruct (v >? m0)%num; [right; left|left]; reflexivity.
Qed.

(** ** The chart bounds *)

Lemma widen_x_fields (h : heap) (dv : loc) (s : Stats) :
  xchartMin (widen_x h dv s) = lower (value_of h dv) (xchartMin s) /\
  xchartMax (widen_x h dv s) = upper (value_of h dv) (xchartMax s) /\
  mrchartMax (widen_x h dv s) = mrchartMax s.
Proof.
  unfold widen_x, lower, upper.
  destruct (value_of h dv >? xchartMax s)%num;
    cbn [xchartMin xchartMax mrchartMax set_xchartMax];
    destruct (value_of h dv <? xchartMin s)%num; repeat split.
Qed.

Lemma widen_x_fold (h : heap) (l : list loc) (s : Stats) :
  xchartMin (forEach l (widen_x h) s)
  = fold_left (fun m v => lower v m) (map (value_of h) l) (xchartMin s) /\
  xchartMax (forEach l (widen_x h) s)
  = fold_left (fun m v => upper v m) (map (value_of h) l) (xchartMax s) /\
  mrchartMax (forEach l (widen_x h) s) = mrchartMax s.
Proof.
  unfold forEach. revert s. induction l as [|dv l IH]; intros s; cbn [fold_left map].
  - repeat split.
  - destruct (IH (widen_x h dv s)) as (H1 & H2 & H3).
    destruct (widen_x_fields h dv s) as (F1 & F2 & F3).
    rewrite H1, H2, H3, F1, F2, F3. repeat split.
Qed.

Lemma widen_mr_fold (h : heap) (l : list loc) (s : Stats) :
  xchartMin (forEach l (widen_mr h) s) = xchartMin s /\
  xchartMax (forEach l (widen_mr h) s) = xchartMax s /\
  mrchartMax (forEach l (widen_mr h) s)
  = fold_left (fun m v => upper v m) (map (value_of h) l) (mrchartMax s).
Proof.
  unfold forEach. revert s. induction l as [|dv l IH]; intros s; cbn [fold_left map].
  - repeat split.
  - destruct (IH (widen_mr h dv s)) as (H1 & H2 & H3).
    rewrite H1, H2, H3. unfold widen_mr, upper.
    destruct (value_of h dv >? mrchartMax s)%num; repeat split.
Qed.

(** ** The sign of a movement *)

Lemma binary_round_aux_sign (s : bool) (m e : Z) (l : location) :
  sign_or_nan s (binary_round_aux prec emax s m e l).
Proof.
  unfold binary_round_aux.
  destruct (shr_fexp prec emax m e l) as [mrs' e'].
  destruct (shr_fexp prec emax _ e' loc_Exact) as [mrs'' e''].
  destruct (shr_m mrs'') as [|p|p]; [reflexivity | | exact I].
  destruct (e'' <=? emax - prec)%Z; reflexivity.
Qed.

Lemma times_sign (s : bool) (a : number) (mb : positive) (eb : Z) :
  sign_or_nan s a -> sign_or_nan s (a * S754_finite false mb eb)%num.
Proof.
  destruct a as [sa|sa| |sa ma ea]; cbn [sign_or_nan]; intros Ha; subst;
    try exact I; unfold times, SFmul; rewrite ?xorb_false_r; try reflexivity.
  apply binary_round_aux_sign.
Qed.

Lemma divide_sign (s : bool) (a : number) (mb : positive) (eb : Z) :
  sign_or_nan s a -> sign_or_nan s (a / S754_finite false mb eb)%num.
Proof.
  destruct a as [sa|sa| |sa ma ea]; cbn [sign_or_nan]; intros Ha; subst;
    try exact I; unfold divide, SFdiv; rewrite ?xorb_false_r; try reflexivity.
  destruct (SFdiv_core_binary prec emax (Z.pos ma) ea (Z.pos mb) eb) as [[mz ez] lz].
  apply binary_round_aux_sign.
Qed.

Lemma Math_round_not_negative (a : number) :
  sign_or_nan false a -> sign_or_nan false (Math_round a).
Proof.
  destruct a as [sa|sa| |sa ma ea]; cbn [sign_or_nan]; intros Ha; subst;
    try exact I; try reflexivity.
  unfold Math_round. destruct (0 <=? ea)%Z eqn:He; [reflexivity|].
  set (k := Qfloor (exact_value (S754_finite false ma ea) + (1 # 2))).
  destruct (Z.eqb_spec k 0) as [Hz|Hz]; [reflexivity|].
  assert (Hk : (0 <= k)%Z).
  { subst k. change 0%Z with (Qfloor 0). apply Qfloor_resp_le.
    unfold exact_value. rewrite He. unfold signed, Qle, Qplus. cbn [Qnum Qden]. lia. }
  unfold of_Z, binary_normalize. destruct k as [|p|p]; try lia.
  unfold binary_round.
  destruct (shl_align p 0 _) as [mz ez]. apply binary_round_aux_sign.
Qed.

(** The value of a movement is never below [0]. *)
Lemma round_abs_not_negative (a : number) : sign_or_nan false (round (Math_abs a)).
Proof.
  unfold round, round_to, DECIMAL_POINT.
  change (of_Z (10 ^ 2)) with (S754_finite false 7036874417766400 (-46)).
  apply divide_sign, Math_round_not_negative, times_sign.
  destruct a; cbn [Math_abs SFabs sign_or_nan]; auto.
Qed.

Lemma not_negative_lt_zero (a : number) : sign_or_nan false a -> (a <? zero)%num = false.
Proof.
  destruct a as [sa|sa| |sa ma ea]; cbn [sign_or_nan]; intros Ha; subst;
    try destruct sa; reflexivity.
Qed.

Lemma movement_not_below_zero (h : heap) (data : list loc) (i : nat) :
  (ToNumber (value (movement_of h data i)) <? zero)%num = false.
Proof.
  unfold movement_of. cbn [value ToNumber].
  apply not_negative_lt_zero, round_abs_not_negative.
Qed.

(** Rule C over movements: with the lower limit at [0] only the upper range
    limit can flag. *)
Lemma b64_movements_pass_status (movements : list loc) (lim : Limits) (h : heap)
    (m : loc) :
  In m movements -> m < length h -> (value_of h m <? zero)%num = false ->
  ((value_of h m >? URL lim)%num = true ->
   status_of (movements_pass movements lim h) m = NPL_EXCEPTION) /\
  ((value_of h m >? URL lim)%num = false ->
   status_of (movements_pass movements lim h) m = NORMAL).
Proof.
  intros Hin Hm Hpos. unfold movements_pass.
  set (h1 := reset_status movements h).
  assert (Hso : status_only h h1) by apply b64_status_only_reset_status.
  split; intros Hu.
  - apply b64_checkOutsideLimit_flags; [exact Hin | rewrite (proj1 Hso); exact Hm|].
    rewrite (b64_status_only_value _ _ m Hso). unfold outside.
    rewrite Hu. apply orb_true_r.
  - rewrite b64_checkOutsideLimit_keeps.
    + apply b64_reset_status_In; assumption.
    + right. rewrite (b64_status_only_value _ _ m Hso). unfold outside.
      rewrite Hpos, Hu. reflexivity.
Qed.

(** ** The aggregator *)

Lemma Math_min_Infinity (a : number) : Math_min Infinity a = a.
Proof. destruct a as [[]|[]| |[] m e]; reflexivity. Qed.

Lemma Math_max_neg_Infinity (a : number) : Math_max (- Infinity)%num a = a.
Proof. destruct a as [[]|[]| |[] m e]; reflexivity. Qed.

Lemma same_lists_widen_x (h : heap) (dv : loc) (s : Stats) :
  same_lists s (widen_x h dv s).
Proof.
  unfold widen_x.
  destruct (value_of h dv >? xchartMax s)%num;
    match goal with |- context [if ?c then _ else _] => destruct c end;
    repeat split.
Qed.

Lemma same_lists_widen_mr (h : heap) (dv : loc) (s : Stats) :
  same_lists s (widen_mr h dv s).
Proof. unfold widen_mr. destruct (value_of h dv >? mrchartMax s)%num; repeat split. Qed.

Lemma same_lists_forEach (f : loc -> Stats -> Stats) (l : list loc) (s : Stats) :
  (forall dv s', same_lists s' (f dv s')) -> same_lists s (forEach l f s).
Proof.
  intros Hf. apply forEach_invariant; [repeat split|].
  intros a s' _ (H1 & H2 & H3). destruct (Hf a s') as (G1 & G2 & G3).
  repeat split; congruence.
Qed.

Section Binary64Engine.

Variable fromDateStr : string -> Z.

Lemma b64_date_leb_key (h : heap) (a b : loc) :
  (date_of fromDateStr h a - date_of fromDateStr h b <=? 0)%Z = true
  <-> (date_of fromDateStr h a <= date_of fromDateStr h b)%Z.
Proof. rewrite Z.leb_le. lia. Qed.

Lemma b64_sortDataValues_perm (dv : list loc) (h : heap) :
  Permutation (sortDataValues fromDateStr dv h) dv.
Proof. apply Array_sort_perm. Qed.

Lemma b64_sortDataValues_In (dv : list loc) (h : heap) (l : loc) :
  In l (sortDataValues fromDateStr dv h) <-> In l dv.
Proof.
  split; apply Permutation_in; [|symmetry]; apply b64_sortDataValues_perm.
Qed.

Lemma b64_tableData_In (data : list loc) (h : heap) (l : loc) :
  In l (tableData_of fromDateStr data h) <-> In l data /\ keeps (deref h l) = true.
Proof. unfold tableData_of. rewrite b64_sortDataValues_In. apply b64_removeAllNulls_In. Qed.

Lemma b64_tableData_valid (data : list loc) (h : heap) :
  valid_refs h data -> valid_refs h (tableData_of fromDateStr data h).
Proof.
  unfold valid_refs. rewrite !Forall_forall. intros Hv l Hl.
  apply list_elem_of_In, b64_tableData_In in Hl. apply Hv, list_elem_of_In, Hl.
Qed.

Lemma b64_computeXmrStats_empty (data : list loc) (h : heap) :
  tableData_of fromDateStr data h = [] ->
  computeXmrStats fromDateStr data h = (empty_stats, h).
Proof.
  intros He. unfold computeXmrStats. fold (tableData_of fromDateStr data h). rewrite He.
  reflexivity.
Qed.

(** [computeXmrStats] on a series that is not empty, step by step. *)
Lemma b64_computeXmrStats_unfold (data : list loc) (h : heap) :
  tableData_of fromDateStr data h <> [] ->
  let tableData := tableData_of fromDateStr data h in
  let lim := fst (calculateLimits tableData h) in
  let h5 := values_pass tableData lim (snd (calculateLimits tableData h)) in
  let movements := fst (getMovements tableData h5) in
  let h' := movements_pass movements lim (snd (getMovements tableData h5)) in
  let lv := mkLineValue (fst (findExtremesX fromDateStr tableData h))
                        (snd (findExtremesX fromDateStr tableData h)) lim in
  computeXmrStats fromDateStr data h
  = (forEach movements (widen_mr h')
       (forEach (removeAllNulls tableData h') (widen_x h')
          (limits_stats lv tableData movements)), h').
Proof.
  intros Hne tableData lim h5 movements h' lv.
  subst h' lv. unfold computeXmrStats.
  fold (tableData_of fromDateStr data h). fold tableData.
  destruct (findExtremesX fromDateStr tableData h) as [xmin xmax].
  destruct (Nat.eqb_spec (length tableData) 0) as [Hz|Hz].
  { apply length_zero_iff_nil in Hz. exact (False_ind _ (Hne Hz)). }
  subst lim h5 movements.
  destruct (calculateLimits tableData h) as [lim h1]. cbn [fst snd].
  fold (values_pass tableData lim h1).
  destruct (getMovements tableData (values_pass tableData lim h1)) as [movements h6].
  cbn [fst snd]. fold (movements_pass movements lim h6).
  unfold push_movements, push_xdata, set_mrchartMax, set_xchartMax, set_xchartMin,
    push_lineValue, empty_stats, limits_stats.
  cbn [xchartMin xchartMax mrchartMax lineValues xdataPerRange movementsPerRange
       lineLimits app].
  rewrite Math_min_Infinity, !Math_max_neg_Infinity. reflexivity.
Qed.

Lemma b64_computeXmrStats_nonempty (data : list loc) (h : heap) :
  tableData_of fromDateStr data h <> [] ->
  let tableData := tableData_of fromDateStr data h in
  let lim := fst (calculateLimits tableData h) in
  let h5 := values_pass tableData lim (snd (calculateLimits tableData h)) in
  let movements := fst (getMovements tableData h5) in
  snd (computeXmrStats fromDateStr data h)
  = movements_pass movements lim (snd (getMovements tableData h5)) /\
  lineValues (fst (computeXmrStats fromDateStr data h))
  = [mkLineValue (fst (findExtremesX fromDateStr tableData h))
                 (snd (findExtremesX fromDateStr tableData h)) lim] /\
  xdataPerRange (fst (computeXmrStats fromDateStr data h)) = [tableData] /\
  movementsPerRange (fst (computeXmrStats fromDateStr data h)) = [movements].
Proof.
  intros Hne tableData lim h5 movements.
  rewrite (b64_computeXmrStats_unfold data h Hne). cbv zeta.
  fold tableData lim h5 movements. cbn [fst snd].
  split; [reflexivity|].
  match goal with
  | |- context [forEach movements ?f (forEach ?arr ?g ?s0)] =>
      assert (Hl : same_lists s0 (forEach movements f (forEach arr g s0)))
  end.
  { destruct (same_lists_forEach (widen_x
       (movements_pass movements lim (snd (getMovements tableData h5))))
       (removeAllNulls tableData
          (movements_pass movements lim (snd (getMovements tableData h5))))
       (limits_stats
          (mkLineValue (fst (findExtremesX fromDateStr tableData h))
                       (snd (findExtremesX fromDateStr tableData h)) lim)
          tableData movements)) as (A1 & A2 & A3);
      [intros; apply same_lists_widen_x|].
    match goal with
    | |- same_lists _ (forEach _ ?f ?s1) =>
        destruct (same_lists_forEach f movements s1) as (B1 & B2 & B3);
          [intros; apply same_lists_widen_mr|]
    end.
    repeat split; congruence. }
  destruct Hl as (H1 & H2 & H3). rewrite H1, H2, H3. repeat split.
Qed.

(** C6, as stated, fails: a row with a date whose value is [NaN] has an [x]
    and a value that is neither absent nor [null], yet the cleaning drops
    it. *)
Lemma removeAllNulls_drops_NaN :
  ~ x_absent nan_row /\ value nan_row <> Undefined /\ value nan_row <> Null /\
  keeps nan_row = false /\ removeAllNulls [0] [nan_row] = [].
Proof.
  split; [intros [H|H]; discriminate|].
  split; [discriminate|]. split; [discriminate|].
  split; reflexivity.
Qed.

(** C6, amended: [computeXmrStats] first drops exactly the rows whose [x] is
    missing (absent, [null] or blank) or whose [value] is missing (absent
    or [null]) or [NaN]; every other number is kept, the two zeros and the
    infinities included.  It then sorts the survivors by parsed date,
    ascending and stably: rows with the same date stay in their input order.
    No row makes the computation fail. *)
Theorem preprocessing_spec (data : list loc) (h : heap) :
  let cleaned := removeAllNulls data h in
  let sorted := sortDataValues fromDateStr cleaned h in
  (forall d, keeps d = false <->
             x_absent d \/ value d = Undefined \/ value d = Null \/
             value d = Number NaN) /\
  (forall d n, ~ x_absent d -> value d = Number n -> n <> NaN -> keeps d = true) /\
  (forall d n, ~ x_absent d -> value d = Number n -> (n =? zero)%num = true ->
               keeps d = true) /\
  cleaned = List.filter (fun l => keeps (deref h l)) data /\
  Permutation sorted cleaned /\
  (forall i j a b, i < j -> sorted !! i = Some a -> sorted !! j = Some b ->
     (date_of fromDateStr h a <= date_of fromDateStr h b)%Z) /\
  (forall t, with_key (date_of fromDateStr h) t sorted
             = with_key (date_of fromDateStr h) t cleaned) /\
  (sorted <> [] ->
   xdataPerRange (fst (computeXmrStats fromDateStr data h)) = [sorted]) /\
  (sorted = [] ->
   xdataPerRange (fst (computeXmrStats fromDateStr data h)) = []).
Proof.
  intros cleaned sorted.
  split; [apply b64_keeps_false|].
  split; [apply b64_keeps_number|].
  split.
  { intros d n Hx Hv Hz. apply (b64_keeps_number d n Hx Hv).
    intros ->. discriminate. }
  split; [reflexivity|].
  split; [apply b64_sortDataValues_perm|].
  split.
  { intros i j a b. apply StronglySorted_lookup.
    apply Array_sort_sorted. apply b64_date_leb_key. }
  split.
  { intros t. apply Array_sort_stable. apply b64_date_leb_key. }
  split.
  { intros Hne. destruct (b64_computeXmrStats_nonempty data h Hne) as (_ & _ & Hx & _).
    exact Hx. }
  intros He. rewrite b64_computeXmrStats_empty by exact He. reflexivity.
Qed.

Lemma b64_calculateLimits_extends (xdata : list loc) (h : heap) :
  extends h (snd (calculateLimits xdata h)).
Proof. rewrite b64_calculateLimits_heap. apply b64_getMovements_extends. Qed.

(** The status and the value of an object of the caller at the end of
    [computeXmrStats], read off the pass over the values. *)
Lemma b64_computeXmrStats_old (data : list loc) (h : heap) (l : loc) :
  tableData_of fromDateStr data h <> [] -> l < length h ->
  let tableData := tableData_of fromDateStr data h in
  let h1 := snd (calculateLimits tableData h) in
  let lim := fst (calculateLimits tableData h) in
  deref (snd (computeXmrStats fromDateStr data h)) l
  = deref (values_pass tableData lim h1) l /\
  deref h1 l = deref h l /\ l < length h1.
Proof.
  intros Hne Hl tableData h1 lim.
  destruct (b64_computeXmrStats_nonempty data h Hne) as (Hh & _).
  fold tableData h1 lim in Hh. rewrite Hh. clear Hh.
  pose proof (b64_calculateLimits_extends tableData h) as Hext. fold h1 in Hext.
  assert (Hl1 : l < length h1) by (apply b64_extends_length in Hext; lia).
  set (h5 := values_pass tableData lim h1).
  assert (Hl5 : l < length h5).
  { unfold h5. rewrite (proj1 (b64_status_only_values_pass tableData lim h1)). exact Hl1. }
  split; [|split; [apply b64_extends_old; assumption | exact Hl1]].
  rewrite b64_movements_pass_old.
  - apply b64_extends_old; [apply b64_getMovements_extends | exact Hl5].
  - intros Hin. apply b64_getMovements_fresh in Hin. lia.
Qed.

Lemma b64_computeXmrStats_same_fields (data : list loc) (h : heap) (l : loc) :
  l < length h ->
  same_fields (deref h l) (deref (snd (computeXmrStats fromDateStr data h)) l).
Proof.
  intros Hl.
  destruct (tableData_of fromDateStr data h) as [|a td] eqn:Htd.
  - rewrite b64_computeXmrStats_empty by exact Htd. apply b64_same_fields_refl.
  - assert (Hne : tableData_of fromDateStr data h <> []) by (rewrite Htd; discriminate).
    destruct (b64_computeXmrStats_old data h l Hne Hl) as (Hd & Hd1 & _).
    rewrite Hd, <- Hd1.
    apply (proj2 (b64_status_only_values_pass _ _ _)).
Qed.

Lemma b64_tableData_kept_after (data : list loc) (h : heap) :
  valid_refs h data ->
  removeAllNulls (tableData_of fromDateStr data h)
    (snd (computeXmrStats fromDateStr data h))
  = tableData_of fromDateStr data h.
Proof.
  intros Hv. apply b64_removeAllNulls_all_kept. intros l Hl.
  apply b64_tableData_In in Hl. destruct Hl as [Hin Hk].
  rewrite (b64_keeps_same_fields (deref h l)); [exact Hk|].
  apply b64_computeXmrStats_same_fields.
  unfold valid_refs in Hv. rewrite Forall_forall in Hv. apply Hv, list_elem_of_In, Hin.
Qed.

(** X7: no point is clipped.  On a non-empty series no value is strictly
    below [xchartMin] or strictly above [xchartMax], and no movement value
    is strictly above [mrchartMax]; neither are the natural limits and the
    upper range limit, with which the bounds start.  Each bound is the limit
    it started from or one of the values.  A bound may be an infinity, when
    a limit has overflowed, or [NaN]; nothing is strictly beyond it then
    either. *)
Theorem chart_bounds_cover_data (data : list loc) (h : heap) :
  valid_refs h data ->
  let stats := fst (computeXmrStats fromDateStr data h) in
  let h' := snd (computeXmrStats fromDateStr data h) in
  forall lv tableData movements,
    In lv (lineValues stats) -> In tableData (xdataPerRange stats) ->
    In movements (movementsPerRange stats) ->
    (forall l, In l tableData ->
       (value_of h' l <? xchartMin stats)%num = false /\
       (value_of h' l >? xchartMax stats)%num = false) /\
    (forall m, In m movements -> (value_of h' m >? mrchartMax stats)%num = false) /\
    (LNPL (lineLimits lv) <? xchartMin stats)%num = false /\
    (UNPL (lineLimits lv) >? xchartMax stats)%num = false /\
    (URL (lineLimits lv) >? mrchartMax stats)%num = false /\
    (xchartMin stats = LNPL (lineLimits lv) \/
     exists l, In l tableData /\ xchartMin stats = value_of h' l) /\
    (xchartMax stats = UNPL (lineLimits lv) \/
     exists l, In l tableData /\ xchartMax stats = value_of h' l) /\
    (mrchartMax stats = URL (lineLimits lv) \/
     exists m, In m movements /\ mrchartMax stats = value_of h' m).
Proof.
  intros Hv stats h' lv tableData movements Hlv Htd Hmv.
  destruct (tableData_of fromDateStr data h) as [|a0 td0] eqn:Hnil.
  { subst stats. rewrite b64_computeXmrStats_empty in Hlv by exact Hnil. destruct Hlv. }
  assert (Hne : tableData_of fromDateStr data h <> []) by (rewrite Hnil; discriminate).
  clear Hnil a0 td0.
  destruct (b64_computeXmrStats_nonempty data h Hne) as (_ & Hlines & Hx & Hm).
  pose proof (b64_computeXmrStats_unfold data h Hne) as Hstats. cbv zeta in Hstats.
  apply (f_equal fst) in Hstats. cbn [fst] in Hstats.
  pose proof (b64_computeXmrStats_nonempty data h Hne) as (Hh & _).
  rewrite <- Hh in Hstats.
  rewrite (b64_tableData_kept_after data h Hv) in Hstats.
  fold stats in Hlines, Hx, Hm, Hstats. fold h' in Hstats.
  rewrite Hlines in Hlv. rewrite Hx in Htd. rewrite Hm in Hmv.
  destruct Hlv as [<-|[]]. destruct Htd as [<-|[]]. destruct Hmv as [<-|[]].
  cbn [lineLimits].
  set (td := tableData_of fromDateStr data h) in *.
  set (lim := fst (calculateLimits td h)) in *.
  set (movs := fst (getMovements td
                      (values_pass td lim (snd (calculateLimits td h))))) in *.
  set (s0 := limits_stats _ td movs) in Hstats.
  destruct (widen_x_fold h' td s0) as (X1 & X2 & X3).
  destruct (widen_mr_fold h' movs (forEach td (widen_x h') s0)) as (M1 & M2 & M3).
  rewrite <- Hstats in M1, M2, M3. rewrite X1 in M1. rewrite X2 in M2. rewrite X3 in M3.
  unfold s0, limits_stats in M1, M2, M3.
  cbn [xchartMin xchartMax mrchartMax lineLimits] in M1, M2, M3.
  destruct (fold_lower (map (value_of h') td) (LNPL lim)) as (L1 & L2 & L3).
  destruct (fold_upper (map (value_of h') td) (UNPL lim)) as (U1 & U2 & U3).
  destruct (fold_upper (map (value_of h') movs) (URL lim)) as (R1 & R2 & R3).
  rewrite <- M1 in L1, L2, L3. rewrite <- M2 in U1, U2, U3. rewrite <- M3 in R1, R2, R3.
  split.
  { intros l Hl. split; [apply L2 | apply U2]; apply in_map; exact Hl. }
  split; [intros m Hmm; apply R2, in_map; exact Hmm|].
  split; [apply L1, number_lt_irrefl|].
  split; [apply U1, (number_lt_irrefl (UNPL lim))|].
  split; [apply R1, (number_lt_irrefl (URL lim))|].
  split.
  { destruct L3 as [L3|L3]; [left; exact L3|]. right.
    apply in_map_iff in L3. destruct L3 as (l & El & Hl). exists l. split; congruence. }
  split.
  { destruct U3 as [U3|U3]; [left; exact U3|]. right.
    apply in_map_iff in U3. destruct U3 as (l & El & Hl). exists l. split; congruence. }
  destruct R3 as [R3|R3]; [left; exact R3|]. right.
  apply in_map_iff in R3. destruct R3 as (l & El & Hl). exists l. split; congruence.
Qed.

(** X9: the movements of the result.  There is one movement less than
    there are value points; the movement after point [i-1] carries the
    [order] and [x] of point [i] and the value [round(|v[i] - v[i-1]|)],
    computed in binary64, which is never below [0]; it ends with
    [NPL_EXCEPTION] when its value is strictly above the upper range limit
    and with [NORMAL] otherwise: the first two rules never run on movements
    and the lower limit [0] flags nothing. *)
Theorem movements_of_result (data : list loc) (h : heap) :
  valid_refs h data ->
  let stats := fst (computeXmrStats fromDateStr data h) in
  let h' := snd (computeXmrStats fromDateStr data h) in
  forall lv tableData movements,
    In lv (lineValues stats) -> In tableData (xdataPerRange stats) ->
    In movements (movementsPerRange stats) ->
    length movements = length tableData - 1 /\
    forall i, 1 <= i < length tableData ->
      let m := at_index movements (i - 1) in
      let cur := at_index tableData i in
      let prev := at_index tableData (i - 1) in
      order (deref h' m) = order (deref h' cur) /\
      x (deref h' m) = x (deref h' cur) /\
      value (deref h' m)
      = Number (round (Math_abs (value_of h' cur - value_of h' prev)%num)) /\
      (value_of h' m <? zero)%num = false /\
      ((value_of h' m >? URL (lineLimits lv))%num = true ->
       status_of h' m = NPL_EXCEPTION) /\
      ((value_of h' m >? URL (lineLimits lv))%num = false ->
       status_of h' m = NORMAL).
Proof.
  intros Hv stats h' lv tableData movements Hlv Htd Hmv.
  destruct (tableData_of fromDateStr data h) as [|a0 td0] eqn:Hnil.
  { subst stats. rewrite b64_computeXmrStats_empty in Hlv by exact Hnil. destruct Hlv. }
  assert (Hne : tableData_of fromDateStr data h <> []) by (rewrite Hnil; discriminate).
  clear Hnil a0 td0.
  destruct (b64_computeXmrStats_nonempty data h Hne) as (Hh & Hlines & Hx & Hm).
  fold stats in Hlines, Hx, Hm. fold h' in Hh.
  rewrite Hlines in Hlv. rewrite Hx in Htd. rewrite Hm in Hmv.
  destruct Hlv as [<-|[]]. destruct Htd as [<-|[]]. destruct Hmv as [<-|[]].
  cbn [lineLimits].
  set (td := tableData_of fromDateStr data h) in *.
  set (lim := fst (calculateLimits td h)) in *.
  set (h1 := snd (calculateLimits td h)) in *.
  set (h5 := values_pass td lim h1) in *.
  assert (Hvt : valid_refs h td) by (apply b64_tableData_valid, Hv).
  assert (Hv5 : valid_refs h5 td).
  { unfold valid_refs in *. eapply Forall_impl; [exact Hvt|]. intros l Hl. cbv beta in *.
    unfold h5. rewrite (proj1 (b64_status_only_values_pass td lim h1)).
    pose proof (b64_extends_length h h1 (b64_calculateLimits_extends td h)). lia. }
  pose proof (b64_getMovements_eq td h5 Hv5) as Heq.
  set (movs := fst (getMovements td h5)) in *.
  set (h6 := snd (getMovements td h5)) in *.
  assert (Hmovs : movs = seq (length h5) (length td - 1)).
  { unfold movs. rewrite Heq. reflexivity. }
  assert (Hlen6 : length h6 = length h5 + (length td - 1)).
  { unfold h6. rewrite Heq. cbn [snd]. rewrite length_app, length_map, length_seq.
    reflexivity. }
  split; [rewrite Hmovs; apply length_seq|].
  intros i Hi.
  set (m := at_index movs (i - 1)). set (cur := at_index td i).
  set (prev := at_index td (i - 1)).
  destruct (b64_getMovements_new td h5 i Hv5 Hi) as [Hat Hd].
  fold movs h6 in Hat, Hd. fold m in Hat, Hd.
  assert (Hin : In m movs).
  { unfold m. apply at_index_In. rewrite Hmovs, length_seq. lia. }
  assert (Hm6 : m < length h6) by lia.
  assert (Hso : status_only h6 h') by (rewrite Hh; apply b64_status_only_movements_pass).
  assert (Hold : forall p, In p td -> deref h' p = deref h5 p).
  { intros p Hp. rewrite Hh. rewrite b64_movements_pass_old.
    - apply b64_extends_old; [apply b64_getMovements_extends|].
      unfold valid_refs in Hv5. rewrite Forall_forall in Hv5.
      apply Hv5, list_elem_of_In, Hp.
    - intros Hq. rewrite Hmovs in Hq. apply in_seq in Hq.
      unfold valid_refs in Hv5. rewrite Forall_forall in Hv5.
      pose proof (Hv5 p (proj2 (list_elem_of_In _ _) Hp)). cbv beta in *. lia. }
  assert (Hcur : deref h' cur = deref h5 cur) by (apply Hold, at_index_In; lia).
  assert (Hprev : deref h' prev = deref h5 prev) by (apply Hold, at_index_In; lia).
  destruct (proj2 Hso m) as (Ho & Hxx & Hval).
  assert (Hvm : value_of h' m = value_of h6 m).
  { unfold value_of. rewrite Hval. reflexivity. }
  assert (Hpos : (value_of h6 m <? zero)%num = false).
  { unfold value_of. rewrite Hd. apply movement_not_below_zero. }
  unfold value_of at 1 2. rewrite Hcur, Hprev, <- Ho, <- Hxx, <- Hval, Hd.
  split; [reflexivity|]. split; [reflexivity|]. split; [reflexivity|].
  rewrite Hvm. split; [exact Hpos|].
  unfold status_of. rewrite Hh. apply b64_movements_pass_status; assumption.
Qed.

End Binary64Engine.

(** ** Examples *)

(** The mixed rows: the rows without a date, without a value, with a blank
    date and with the value [NaN] go; the row with the value [-0] stays; the
    two rows of the first day stay in their input order. *)
Lemma preprocessing_spec_witness :
  xdataPerRange (fst (computeXmrStats iso_date_number mixed_refs mixed_rows))
  = [[1; 4; 0; 7]].
Proof.
  destruct (preprocessing_spec iso_date_number mixed_refs mixed_rows)
    as (_ & _ & _ & _ & _ & _ & _ & Hx & _).
  apply Hx. vm_compute. discriminate.
Defined.

(** The row [1e307]: the upper natural limit overflows in [round], and the
    upper bound of the chart is [Infinity]. *)
Lemma chart_bounds_cover_data_witness :
  valid_refs huge_rows [0] /\
  xchartMax (fst (computeXmrStats iso_date_number [0] huge_rows)) = Infinity /\
  (value_of (snd (computeXmrStats iso_date_number [0] huge_rows)) 0
   >? xchartMax (fst (computeXmrStats iso_date_number [0] huge_rows)))%num = false.
Proof.
  assert (Hv : valid_refs huge_rows [0]) by (repeat constructor).
  split; [exact Hv|]. split; [vm_compute; reflexivity|].
  refine (proj2 (proj1 (chart_bounds_cover_data iso_date_number [0] huge_rows Hv
            (first_line (computeXmrStats iso_date_number [0] huge_rows))
            [0]
            (first_movements (computeXmrStats iso_date_number [0] huge_rows))
            _ _ _) 0 _)).
  - vm_compute. left. reflexivity.
  - vm_compute. left. reflexivity.
  - vm_compute. left. reflexivity.
  - left. reflexivity.
Defined.

(** The values [10], [12], [11]: two movements, neither above the upper range
    limit. *)
Lemma movements_of_result_witness :
  valid_refs three_rows three_refs /\
  length (first_movements (computeXmrStats iso_date_number three_refs three_rows))
  = length three_refs - 1.
Proof.
  assert (Hv : valid_refs three_rows three_refs) by (repeat constructor).
  split; [exact Hv|].
  refine (proj1 (movements_of_result iso_date_number three_refs three_rows Hv
            (first_line (computeXmrStats iso_date_number three_refs three_rows))
            three_refs
            (first_movements (computeXmrStats iso_date_number three_refs three_rows))
            _ _ _)).
  - vm_compute. left. reflexivity.
  - vm_compute. left. reflexivity.
  - vm_compute. left. reflexivity.
Defined.

(** Ten rows at [0.005]: their binary64 mean is a little below [0.005], and
    the mean and the natural limits are [0], not [0.01]. *)
Lemma constant_series_limits_witness :
  valid_refs ten_rows ten_refs /\ ten_refs <> [] /\
  (Z.of_nat (length ten_refs) < 2 ^ 53)%Z /\ finite (decimal 5 1000) /\
  (forall l, In l ten_refs -> value_of ten_rows l = decimal 5 1000) /\
  avgX (fst (calculateLimits ten_refs ten_rows)) = zero /\
  LNPL (fst (calculateLimits ten_refs ten_rows)) = zero /\
  round (decimal 5 1000) = decimal 1 100.
Proof.
  assert (Hv : valid_refs ten_rows ten_refs).
  { unfold valid_refs. apply Forall_forall. intros l Hl.
    apply list_elem_of_In, in_seq in Hl. simpl. lia. }
  assert (Hne : ten_refs <> []) by discriminate.
  assert (Hlen : (Z.of_nat (length ten_refs) < 2 ^ 53)%Z) by (vm_compute; reflexivity).
  assert (Hf : finite (decimal 5 1000)) by (vm_compute; exact I).
  assert (Hc : forall l, In l ten_refs -> value_of ten_rows l = decimal 5 1000).
  { intros l Hl. unfold ten_refs in Hl. apply in_seq in Hl.
    assert (Hk : l = 0 \/ l = 1 \/ l = 2 \/ l = 3 \/ l = 4 \/ l = 5 \/ l = 6
                 \/ l = 7 \/ l = 8 \/ l = 9) by lia.
    repeat (destruct Hk as [->|Hk]; [reflexivity|]). subst l. reflexivity. }
  split; [exact Hv|]. split; [exact Hne|]. split; [exact Hlen|].
  split; [exact Hf|]. split; [exact Hc|].
  destruct (constant_series_limits ten_rows ten_refs (decimal 5 1000) Hv Hne Hlen Hf Hc)
    as (HA & _ & _ & HL & _).
  split; [rewrite HA; vm_compute; reflexivity|].
  split; [rewrite HL, HA; vm_compute; reflexivity|].
  vm_compute. reflexivity.
Defined.

End Binary64Facts.
